(** * Redux store engine and middleware pipeline

    A shallow embedding of [src/createStore.js] (with [utils/actionTypes.js]),
    [src/applyMiddleware.js] and [src/bindActionCreators.js].

    The engine's closure variables ([currentReducer], [currentState],
    [currentListeners], [nextListeners], [isDispatching], the per-subscription
    [isSubscribed] cells, and the [let dispatch] of each call of
    [applyMiddleware]) become the fields of an explicit [World] record that
    every operation threads.
    Listener arrays live in a small heap so that the aliasing between
    [currentListeners] and [nextListeners] is visible.  User code (reducers,
    listeners, middleware) is data: a tree of calls into the engine, which the
    interpreter [run] executes against the engine's own operations. *)

From Stdlib Require Import ZArith Lia.
From stdpp Require Import base list strings pretty.

Open Scope string_scope.
Open Scope list_scope.
Open Scope nat_scope.

(** ** JavaScript values *)

#[warnings="-register-all"]
Inductive value : Type :=
| VUndefined
| VNull
| VBool (b : bool)
| VNum (n : Z)
| VStr (s : string)
| VFun (f : nat)                                  (* a user function, by identity *)
| VArr (elems : list value)
| VObj (plain : bool) (fields : list (string * value)).
    (* [plain = false]: an instance of a class (its prototype is not
       Object.prototype); [fields] lists each own property once *)

Definition is_function (v : value) : bool :=
  match v with VFun _ => true | _ => false end.

Definition is_undefined (v : value) : bool :=
  match v with VUndefined => true | _ => false end.

(** [typeof v === 'object'] *)
Definition is_object (v : value) : bool :=
  match v with VNull | VArr _ | VObj _ _ => true | _ => false end.

Definition truthy (v : value) : bool :=
  match v with
  | VUndefined | VNull => false
  | VBool b => b
  | VNum n => negb (n =? 0)%Z
  | VStr s => negb (String.eqb s EmptyString)
  | _ => true
  end.

Fixpoint assoc (key : string) (fields : list (string * value)) : value :=
  match fields with
  | [] => VUndefined
  | (k, v) :: rest => if String.eqb k key then v else assoc key rest
  end.

(** [v.key] for a value that is not null or undefined. *)
Definition getField (v : value) (key : string) : value :=
  match v with
  | VObj _ fields => assoc key fields
  | _ => VUndefined
  end.

(** Modelled from the spec: [utils/isPlainObject] is not among the sources.
    The spec (4.2, dispatch) asks for "a plain structural record (not null,
    not an array, not a class instance, not a function)". *)
Definition isPlainObject (v : value) : bool :=
  match v with VObj true _ => true | _ => false end.

(** The object literal [{ type: t }]. *)
Definition actionOfType (t : string) : value := VObj true [("type", VStr t)].

(** ** Errors, one constructor per [throw] of the sources *)

Inductive error : Type :=
| ErrEnhancerNotFunction        (* 'Expected the enhancer to be a function.' *)
| ErrReducerNotFunction         (* 'Expected the reducer to be a function.' *)
| ErrGetStateWhileDispatching   (* 'You may not call store.getState() while the reducer is executing. ...' *)
| ErrListenerNotFunction        (* 'Expected listener to be a function.' *)
| ErrSubscribeWhileDispatching  (* 'You may not call store.subscribe() while the reducer is executing. ...' *)
| ErrUnsubscribeWhileDispatching(* 'You may not unsubscribe from a store listener while the reducer is executing. ...' *)
| ErrActionNotPlain             (* 'Actions must be plain objects. ...' *)
| ErrActionTypeUndefined        (* 'Actions may not have an undefined "type" property. ...' *)
| ErrReducersMayNotDispatch     (* 'Reducers may not dispatch actions.' *)
| ErrNextReducerNotFunction     (* 'Expected the nextReducer to be a function.' *)
| ErrObserverNotObject          (* TypeError 'Expected the observer to be an object.' *)
| ErrDispatchingWhileConstructing (* 'Dispatching while constructing your middleware is not allowed. ...' *)
| ErrNotCallable                (* the language's TypeError: calling or reading through a non-function / null *)
| ErrNotInScope                 (* the language's ReferenceError *)
| ErrUser (payload : value).    (* anything thrown by user code *)

(** The taxonomy of section 7 of the spec. *)
Inductive errorKind : Type :=
| ConfigError | ValidationError | ReentrancyError | Propagated.

Definition kindOf (e : error) : errorKind :=
  match e with
  | ErrEnhancerNotFunction | ErrReducerNotFunction | ErrNextReducerNotFunction => ConfigError
  | ErrActionNotPlain | ErrActionTypeUndefined | ErrListenerNotFunction => ValidationError
  | ErrGetStateWhileDispatching | ErrSubscribeWhileDispatching
  | ErrUnsubscribeWhileDispatching | ErrReducersMayNotDispatch => ReentrancyError
  | _ => Propagated
  end.

(** ** User code

    A reducer or a listener is a tree of calls on the store it closes over;
    each node carries the continuation that receives the call's result.
    [Subscribe] hands back the identity of the [unsubscribe] closure it
    created, which is all user code can do with it besides calling it. *)

Inductive prog : Type :=
| Ret (v : value)
| Raise (e : error)
| GetState (k : value -> prog)
| Subscribe (listener : value) (k : nat -> prog)
| Unsubscribe (h : nat) (k : prog)
| Dispatch (action : value) (k : value -> prog)
| ReplaceReducer (nextReducer : value) (k : prog)
| ObservableSubscribe (observer : value) (k : nat -> prog)
| TryCatch (body : prog) (handler : error -> prog) (k : value -> prog).

(** Middleware code: [api.getState()], [api.dispatch(a)] and [next(a)]. *)
Inductive mprog : Type :=
| MRet (v : value)
| MRaise (e : error)
| MApiGetState (k : value -> mprog)
| MApiDispatch (action : value) (k : value -> mprog)
| MNext (action : value) (k : value -> mprog)
| MTryCatch (body : mprog) (handler : error -> mprog) (k : value -> mprog).

(** [api => { mw_setup; return next => { mw_wrap; return action => mw_handle action } }] *)
Record Middleware : Type := {
  mw_name : string;                 (* only used to label the recorded calls *)
  mw_setup : mprog;
  mw_wrap : mprog;
  mw_handle : value -> mprog
}.

(** ** The engine's variables *)

(** What a listener array holds: a user function, or an [observeState]
    closure made by the observable adapter (identified by its allocation). *)
Inductive fref : Type :=
| UserFn (f : nat)
| ObserveState (c : nat).

Global Instance fref_eq_dec : EqDecision fref.
Proof. solve_decision. Defined.

(** Calls recorded for the statement of "is invoked" properties. *)
Inductive event : Type :=
| EvReducer (state action : value)
| EvListener (l : fref)
| EvHandler (name : string) (action : value).

Record World : Type := {
  currentReducer : value;
  currentState : value;
  arrays : list (list fref);           (* heap of listener arrays *)
  currentListeners : nat;              (* reference into [arrays] *)
  nextListeners : nat;                 (* reference into [arrays] *)
  isDispatching : bool;
  subscriptions : list (fref * bool);  (* one cell per [subscribe] call: listener, isSubscribed *)
  observers : list value;              (* environment of each [observeState] closure *)
  dispatchVars : list (option (list Middleware));
      (* one [let dispatch] per call of applyMiddleware, in the order of the
         calls: [None] is the initial thrower, [Some chain] is
         [compose(...chain)(store.dispatch)] *)
  trace : list event
}.

Definition set_currentReducer (r : value) (w : World) : World :=
  {| currentReducer := r; currentState := currentState w; arrays := arrays w;
     currentListeners := currentListeners w; nextListeners := nextListeners w;
     isDispatching := isDispatching w; subscriptions := subscriptions w;
     observers := observers w; dispatchVars := dispatchVars w; trace := trace w |}.

Definition set_currentState (s : value) (w : World) : World :=
  {| currentReducer := currentReducer w; currentState := s; arrays := arrays w;
     currentListeners := currentListeners w; nextListeners := nextListeners w;
     isDispatching := isDispatching w; subscriptions := subscriptions w;
     observers := observers w; dispatchVars := dispatchVars w; trace := trace w |}.

Definition set_arrays (h : list (list fref)) (w : World) : World :=
  {| currentReducer := currentReducer w; currentState := currentState w; arrays := h;
     currentListeners := currentListeners w; nextListeners := nextListeners w;
     isDispatching := isDispatching w; subscriptions := subscriptions w;
     observers := observers w; dispatchVars := dispatchVars w; trace := trace w |}.

Definition set_currentListeners (a : nat) (w : World) : World :=
  {| currentReducer := currentReducer w; currentState := currentState w; arrays := arrays w;
     currentListeners := a; nextListeners := nextListeners w;
     isDispatching := isDispatching w; subscriptions := subscriptions w;
     observers := observers w; dispatchVars := dispatchVars w; trace := trace w |}.

Definition set_nextListeners (a : nat) (w : World) : World :=
  {| currentReducer := currentReducer w; currentState := currentState w; arrays := arrays w;
     currentListeners := currentListeners w; nextListeners := a;
     isDispatching := isDispatching w; subscriptions := subscriptions w;
     observers := observers w; dispatchVars := dispatchVars w; trace := trace w |}.

Definition set_isDispatching (b : bool) (w : World) : World :=
  {| currentReducer := currentReducer w; currentState := currentState w; arrays := arrays w;
     currentListeners := currentListeners w; nextListeners := nextListeners w;
     isDispatching := b; subscriptions := subscriptions w;
     observers := observers w; dispatchVars := dispatchVars w; trace := trace w |}.

Definition set_subscriptions (s : list (fref * bool)) (w : World) : World :=
  {| currentReducer := currentReducer w; currentState := currentState w; arrays := arrays w;
     currentListeners := currentListeners w; nextListeners := nextListeners w;
     isDispatching := isDispatching w; subscriptions := s;
     observers := observers w; dispatchVars := dispatchVars w; trace := trace w |}.

Definition set_observers (o : list value) (w : World) : World :=
  {| currentReducer := currentReducer w; currentState := currentState w; arrays := arrays w;
     currentListeners := currentListeners w; nextListeners := nextListeners w;
     isDispatching := isDispatching w; subscriptions := subscriptions w;
     observers := o; dispatchVars := dispatchVars w; trace := trace w |}.

Definition set_dispatchVars (d : list (option (list Middleware))) (w : World) : World :=
  {| currentReducer := currentReducer w; currentState := currentState w; arrays := arrays w;
     currentListeners := currentListeners w; nextListeners := nextListeners w;
     isDispatching := isDispatching w; subscriptions := subscriptions w;
     observers := observers w; dispatchVars := d; trace := trace w |}.

Definition log (e : event) (w : World) : World :=
  {| currentReducer := currentReducer w; currentState := currentState w; arrays := arrays w;
     currentListeners := currentListeners w; nextListeners := nextListeners w;
     isDispatching := isDispatching w; subscriptions := subscriptions w;
     observers := observers w; dispatchVars := dispatchVars w; trace := trace w ++ [e] |}.

(** The world before any store exists. *)
Definition emptyWorld : World :=
  {| currentReducer := VUndefined; currentState := VUndefined; arrays := [];
     currentListeners := 0; nextListeners := 0; isDispatching := false;
     subscriptions := []; observers := []; dispatchVars := []; trace := [] |}.

(** ** Computations: a state monad with exceptions and a fuel bound *)

Inductive outcome (A : Type) : Type :=
| Ok (a : A) (w : World)
| Throw (e : error) (w : World)
| OutOfFuel.
Arguments Ok {A} a w.
Arguments Throw {A} e w.
Arguments OutOfFuel {A}.

Definition M (A : Type) : Type := World -> outcome A.

Definition ret {A} (a : A) : M A := fun w => Ok a w.
Definition throw {A} (e : error) : M A := fun w => Throw e w.
Definition bind {A B} (m : M A) (f : A -> M B) : M B :=
  fun w => match m w with
           | Ok a w' => f a w'
           | Throw e w' => Throw e w'
           | OutOfFuel => OutOfFuel
           end.

(** [try { body } catch (e) { handler e }] *)
Definition catch {A} (body : M A) (handler : error -> M A) : M A :=
  fun w => match body w with
           | Ok a w' => Ok a w'
           | Throw e w' => handler e w'
           | OutOfFuel => OutOfFuel
           end.

(** [try { body } finally { cleanup }], for a cleanup that cannot fail. *)
Definition finally {A} (body : M A) (cleanup : World -> World) : M A :=
  fun w => match body w with
           | Ok a w' => Ok a (cleanup w')
           | Throw e w' => Throw e (cleanup w')
           | OutOfFuel => OutOfFuel
           end.

Definition modify (f : World -> World) : M unit := fun w => Ok tt (f w).
Definition reads {A} (f : World -> A) : M A := fun w => Ok (f w) w.

Notation "x <- m ;; k" := (bind m (fun x => k))
  (at level 100, m at level 99, k at level 200, right associativity).
Notation "m ;;; k" := (bind m (fun _ => k))
  (at level 100, k at level 200, right associativity).

(** ** [Array.prototype] operations used by the engine *)

Fixpoint indexOfFrom (x : fref) (l : list fref) (i : Z) : Z :=
  match l with
  | [] => (-1)%Z
  | y :: rest => if decide (x = y) then i else indexOfFrom x rest (i + 1)%Z
  end.

(** [l.indexOf(x)]: the first index holding [x], or [-1]. *)
Definition indexOf (x : fref) (l : list fref) : Z := indexOfFrom x l 0.

(** [l.splice(start, 1)]: a negative [start] counts from the end. *)
Definition splice1 (start : Z) (l : list fref) : list fref :=
  let len := Z.of_nat (length l) in
  let actual := if (start <? 0)%Z then Z.max (len + start) 0 else Z.min start len in
  delete (Z.to_nat actual) l.

(** The array behind a reference. *)
Definition arrayAt (a : nat) (w : World) : list fref := default [] (arrays w !! a).

(** ** createStore.js *)

Section Engine.

(** The bodies of the user's functions: [fnBody f args] is what calling
    function [f] with [args] does. *)
Variable fnBody : nat -> list value -> prog.

(** The random suffixes of [ActionTypes.INIT] and [ActionTypes.REPLACE]. *)
Variables initSuffix replaceSuffix : string.

Definition INIT : string := ("@@redux/INIT" ++ initSuffix)%string.
Definition REPLACE : string := ("@@redux/REPLACE" ++ replaceSuffix)%string.

(** How user code is executed, and the bound on the notification loop. *)
Variable run : prog -> M value.
Variable gas : nat.

Definition callFunction (f : value) (args : list value) : M value :=
  match f with
  | VFun id => run (fnBody id args)
  | _ => throw ErrNotCallable
  end.

Definition ensureCanMutateNextListeners : M unit := fun w =>
  if nextListeners w =? currentListeners w then
    Ok tt (set_nextListeners (length (arrays w))
             (set_arrays (arrays w ++ [arrayAt (currentListeners w) w]) w))
  else Ok tt w.

Definition getState : M value := fun w =>
  if isDispatching w then Throw ErrGetStateWhileDispatching w
  else Ok (currentState w) w.

(** [subscribe] after its [typeof listener] test. The result is the
    identity of the returned [unsubscribe] closure. *)
Definition subscribeFn (listener : fref) : M nat := fun w =>
  if isDispatching w then Throw ErrSubscribeWhileDispatching w
  else
    (* let isSubscribed = true *)
    let h := length (subscriptions w) in
    let w := set_subscriptions (subscriptions w ++ [(listener, true)]) w in
    (ensureCanMutateNextListeners ;;;
     modify (fun w => set_arrays
               (<[nextListeners w := arrayAt (nextListeners w) w ++ [listener]]> (arrays w)) w) ;;;
     ret h) w.

Definition subscribe (listener : value) : M nat :=
  match listener with
  | VFun f => subscribeFn (UserFn f)
  | _ => throw ErrListenerNotFunction
  end.

(** Calling the closure returned by the [h]-th [subscribe]. *)
Definition unsubscribe (h : nat) : M value := fun w =>
  match subscriptions w !! h with
  | None => Throw ErrNotCallable w
  | Some (listener, isSubscribed) =>
      if negb isSubscribed then Ok VUndefined w
      else if isDispatching w then Throw ErrUnsubscribeWhileDispatching w
      else
        let w := set_subscriptions (<[h := (listener, false)]> (subscriptions w)) w in
        (ensureCanMutateNextListeners ;;;
         modify (fun w =>
           let index := indexOf listener (arrayAt (nextListeners w) w) in
           set_arrays (<[nextListeners w := splice1 index (arrayAt (nextListeners w) w)]>
                         (arrays w)) w) ;;;
         ret VUndefined) w
  end.

(** [observeState] of the observable adapter, for the observer it closes over. *)
Definition observeState (observer : value) : M value :=
  match observer with
  | VUndefined | VNull => throw ErrNotCallable
  | _ =>
      let next := getField observer "next" in
      if truthy next then
        s <- getState ;; callFunction next [s] ;;; ret VUndefined
      else ret VUndefined
  end.

Definition callListener (l : fref) : M value :=
  match l with
  | UserFn f => run (fnBody f [])
  | ObserveState c => fun w => observeState (default VUndefined (observers w !! c)) w
  end.

(** [for (let i = 0; i < listeners.length; i++) { listeners[i]() }]:
    the array is read through its reference at every iteration. *)
Fixpoint notify (budget : nat) (listeners : nat) (i : nat) : M unit :=
  match budget with
  | 0 => fun _ => OutOfFuel
  | S budget' => fun w =>
      match arrayAt listeners w !! i with
      | None => Ok tt w
      | Some listener =>
          (callListener listener ;;; notify budget' listeners (S i))
            (log (EvListener listener) w)
      end
  end.

Definition dispatch (action : value) : M value := fun w =>
  if negb (isPlainObject action) then Throw ErrActionNotPlain w
  else if is_undefined (getField action "type") then Throw ErrActionTypeUndefined w
  else if isDispatching w then Throw ErrReducersMayNotDispatch w
  else
    (finally
       (modify (set_isDispatching true) ;;;
        reducer <- reads currentReducer ;;
        state <- reads currentState ;;
        modify (log (EvReducer state action)) ;;;
        next <- callFunction reducer [state; action] ;;
        modify (set_currentState next))
       (set_isDispatching false) ;;;
     (* const listeners = (currentListeners = nextListeners) *)
     listeners <- reads nextListeners ;;
     modify (set_currentListeners listeners) ;;;
     notify gas listeners 0 ;;;
     ret action) w.

Definition replaceReducer (nextReducer : value) : M value :=
  if negb (is_function nextReducer) then throw ErrNextReducerNotFunction
  else
    modify (set_currentReducer nextReducer) ;;;
    dispatch (actionOfType REPLACE) ;;;
    ret VUndefined.

(** [store[$$observable]().subscribe(observer)]; the result identifies the
    [unsubscribe] of the returned subscription object. *)
Definition observableSubscribe (observer : value) : M nat :=
  if negb (is_object observer) then throw ErrObserverNotObject
  else
    c <- reads (fun w => length (observers w)) ;;
    modify (fun w => set_observers (observers w ++ [observer]) w) ;;;
    observeState observer ;;;
    subscribeFn (ObserveState c).

End Engine.

(** ** Running user code *)

Section Interpreter.

Variable fnBody : nat -> list value -> prog.
Variables initSuffix replaceSuffix : string.

Section Exec.
(** User code run by the engine on behalf of [p] (its reducer, its
    listeners) has one unit of fuel less. *)
Variable lower : prog -> M value.
Variable gas : nat.

Fixpoint exec (p : prog) : M value :=
  match p with
  | Ret v => ret v
  | Raise e => throw e
  | GetState k => v <- getState ;; exec (k v)
  | Subscribe listener k => h <- subscribe listener ;; exec (k h)
  | Unsubscribe h k => unsubscribe h ;;; exec k
  | Dispatch action k => v <- dispatch fnBody lower gas action ;; exec (k v)
  | ReplaceReducer nextReducer k =>
      replaceReducer fnBody replaceSuffix lower gas nextReducer ;;; exec k
  | ObservableSubscribe observer k =>
      h <- observableSubscribe fnBody lower observer ;; exec (k h)
  | TryCatch body handler k =>
      v <- catch (exec body) (fun e => exec (handler e)) ;; exec (k v)
  end.
End Exec.

Fixpoint run (n : nat) (p : prog) : M value :=
  match n with
  | 0 => fun _ => OutOfFuel
  | S n' => exec (run n') n' p
  end.

(** *** The store object *)

Record Store : Type := {
  store_dispatch : value -> M value;
  store_subscribe : value -> M nat;
  store_getState : M value;
  store_replaceReducer : value -> M value;
  store_observable : value -> M nat
}.

(** The object literal returned by [createStore], closing over the engine. *)
Definition engineStore (n : nat) : Store :=
  {| store_dispatch := dispatch fnBody (run n) n;
     store_subscribe := subscribe;
     store_getState := getState;
     store_replaceReducer := replaceReducer fnBody replaceSuffix (run n) n;
     store_observable := observableSubscribe fnBody (run n) |}.

(** A store creator takes its arguments positionally. *)
Definition creator : Type := list value -> M Store.

Definition arg (i : nat) (args : list value) : value := default VUndefined (args !! i).

(** What an enhancer function does with the creator it is given. *)
Variable enhancerBody : nat -> creator -> creator.

(** [let currentReducer = reducer ... let isDispatching = false] *)
Definition initEngine (reducer preloadedState : value) (w : World) : World :=
  {| currentReducer := reducer; currentState := preloadedState;
     arrays := [[]]; currentListeners := 0; nextListeners := 0;
     isDispatching := false; subscriptions := []; observers := [];
     dispatchVars := dispatchVars w; trace := trace w |}.

Fixpoint createStore (n : nat) (reducer preloadedState enhancer : value) : M Store :=
  let swap := is_function preloadedState && is_undefined enhancer in
  let enhancer' := if swap then preloadedState else enhancer in
  let preloadedState' := if swap then VUndefined else preloadedState in
  if negb (is_undefined enhancer') then
    match enhancer' with
    | VFun f =>
        match n with
        | 0 => fun _ => OutOfFuel
        | S n' =>
            enhancerBody f
              (fun args => createStore n' (arg 0 args) (arg 1 args) (arg 2 args))
              [reducer; preloadedState']
        end
    | _ => throw ErrEnhancerNotFunction
    end
  else if negb (is_function reducer) then throw ErrReducerNotFunction
  else
    modify (initEngine reducer preloadedState') ;;;
    dispatch fnBody (run n) n (actionOfType (INIT initSuffix)) ;;;
    ret (engineStore n).

Definition createStoreArgs (n : nat) : creator :=
  fun args => createStore n (arg 0 args) (arg 1 args) (arg 2 args).

(** ** applyMiddleware.js *)

(** A dispatch function built by the pipeline is a stack of handlers over
    the store's own dispatch: [[]] is [store.dispatch], and [m :: next] is
    the handler that [m]'s factory returned for [next]. *)

(** What the [let dispatch] behind a reference holds. *)
Definition dispatchAt (ref : nat) (w : World) : option (list Middleware) :=
  default None (dispatchVars w !! ref).

Section Pipeline.
Variable store : Store.

(** The [let dispatch] of the call of [applyMiddleware] that made the
    capability object. *)
Variable dispatchRef : nat.

(** [middlewareAPI.dispatch]: [(...args) => dispatch(...args)], reading the
    variable when called. [callee] runs the function found there. *)
Definition apiDispatchWith (callee : list Middleware -> value -> M value)
    (action : value) : M value := fun w =>
  match dispatchAt dispatchRef w with
  | None => Throw ErrDispatchingWhileConstructing w
  | Some fn => callee fn action w
  end.

Section Handlers.
Variable apiDispatch : value -> M value.

(** Middleware code with [middlewareAPI] in scope and, from the factory
    on, [next]. *)
Fixpoint mexec (next : option (value -> M value)) (p : mprog) : M value :=
  match p with
  | MRet v => ret v
  | MRaise e => throw e
  | MApiGetState k => v <- store_getState store ;; mexec next (k v)
  | MApiDispatch action k => v <- apiDispatch action ;; mexec next (k v)
  | MNext action k =>
      match next with
      | None => throw ErrNotInScope
      | Some callNext => v <- callNext action ;; mexec next (k v)
      end
  | MTryCatch body handler k =>
      v <- catch (mexec next body) (fun e => mexec next (handler e)) ;; mexec next (k v)
  end.

Fixpoint callDispatchFn (fn : list Middleware) (action : value) : M value :=
  match fn with
  | [] => store_dispatch store action
  | m :: next =>
      modify (log (EvHandler (mw_name m) action)) ;;;
      mexec (Some (callDispatchFn next)) (mw_handle m action)
  end.

(** [middleware(middlewareAPI)(next)]'s second call: runs the factory's
    own code and returns the handler closing over [next]. *)
Definition factory (m : Middleware) (next : list Middleware) : M (list Middleware) :=
  mexec (Some (callDispatchFn next)) (mw_wrap m) ;;; ret (m :: next).

(** [middleware(middlewareAPI)] *)
Definition callMiddleware (m : Middleware)
  : M (list Middleware -> M (list Middleware)) :=
  mexec None (mw_setup m) ;;; ret (factory m).
End Handlers.

Fixpoint composed (n : nat) : list Middleware -> value -> M value :=
  callDispatchFn
    (apiDispatchWith
       match n with
       | 0 => fun _ _ _ => OutOfFuel
       | S n' => composed n'
       end).

Definition apiDispatch (n : nat) : value -> M value :=
  apiDispatchWith (composed n).
End Pipeline.

(** [Array.prototype.map] with an effectful callback. *)
Fixpoint mapM {A B} (f : A -> M B) (l : list A) : M (list B) :=
  match l with
  | [] => ret []
  | x :: rest => y <- f x ;; ys <- mapM f rest ;; ret (y :: ys)
  end.

(** Modelled from the spec: [compose.js] is not among the sources. Section
    4.1: "given zero or more unary functions f1..fn, produce a function g
    such that g(x) = f1(f2(...fn(x)))"; with none, the identity. *)
Fixpoint compose {A} (funcs : list (A -> M A)) (x : A) : M A :=
  match funcs with
  | [] => ret x
  | f :: rest => y <- compose rest x ;; f y
  end.

(** The object literal [{ ...store, dispatch }]. *)
Definition withDispatch (store : Store) (dispatch : value -> M value) : Store :=
  {| store_dispatch := dispatch;
     store_subscribe := store_subscribe store;
     store_getState := store_getState store;
     store_replaceReducer := store_replaceReducer store;
     store_observable := store_observable store |}.

Definition applyMiddleware (n : nat) (middlewares : list Middleware)
    (createStore : creator) : creator := fun args =>
  store <- createStore args ;;
  (* let dispatch = () => { throw ... }: a variable of this call *)
  ref <- reads (fun w => length (dispatchVars w)) ;;
  modify (fun w => set_dispatchVars (dispatchVars w ++ [None]) w) ;;;
  chain <- mapM (callMiddleware store (apiDispatch store ref n)) middlewares ;;
  dispatch <- compose chain [] ;;
  modify (fun w => set_dispatchVars (<[ref := Some dispatch]> (dispatchVars w)) w) ;;;
  ret (withDispatch store (composed store ref n dispatch)).

End Interpreter.

(** ** utils/actionTypes.js *)

(** [s.substring(start)] *)
Fixpoint substringFrom (start : nat) (s : string) : string :=
  match start, s with
  | 0, _ => s
  | S _, EmptyString => EmptyString
  | S start', String _ rest => substringFrom start' rest
  end.

(** [s.split('')]: the characters of [s], each as a string. *)
Fixpoint splitChars (s : string) : list string :=
  match s with
  | EmptyString => []
  | String c rest => String c EmptyString :: splitChars rest
  end.

(** [parts.join(sep)] *)
Fixpoint join (sep : string) (parts : list string) : string :=
  match parts with
  | [] => EmptyString
  | [p] => p
  | p :: rest => (p ++ sep ++ join sep rest)%string
  end.

(** [digits.substring(7).split('').join('.')], for the string [digits] that
    [Math.random().toString(36)] returned: the suffix of [ActionTypes.INIT]
    and of [ActionTypes.REPLACE]. *)
Definition randomSuffix (digits : string) : string :=
  join "." (splitChars (substringFrom 7 digits)).

(** ** bindActionCreators.js *)

(** [typeof v] *)
Definition typeOf (v : value) : string :=
  match v with
  | VUndefined => "undefined"
  | VNull => "object"
  | VBool _ => "boolean"
  | VNum _ => "number"
  | VStr _ => "string"
  | VFun _ => "function"
  | VArr _ | VObj _ _ => "object"
  end.

(** [v === null] *)
Definition is_null (v : value) : bool :=
  match v with VNull => true | _ => false end.

(** The own enumerable properties of an object, in the order in which
    [Object.keys] lists them; for an array, its elements under their
    indices. *)
Definition ownEntries (v : value) : list (string * value) :=
  match v with
  | VObj _ fields => fields
  | VArr elems => imap (fun i x => (pretty i, x)) elems
  | _ => []
  end.

(** [Object.keys(v)] *)
Definition keysOf (v : value) : list string := map fst (ownEntries v).

(** [v[key]] for an own key. *)
Definition getOwn (v : value) (key : string) : value := assoc key (ownEntries v).

(** [obj[key] = x] on an object literal under construction. *)
Fixpoint setProp {A} (key : string) (x : A) (fields : list (string * A))
  : list (string * A) :=
  match fields with
  | [] => [(key, x)]
  | (k, y) :: rest =>
      if String.eqb k key then (k, x) :: rest else (k, y) :: setProp key x rest
  end.

Inductive bindError : Type :=
| ErrExpectedObjectOrFunction (received : string).
    (* 'bindActionCreators expected an object or a function, instead received <received>. ...' *)

(** What [bindActionCreators] returns: one function, or an object of
    functions. *)
Inductive boundCreators : Type :=
| BoundFunction (f : list value -> M value)
| BoundObject (fields : list (string * (list value -> M value))).

Section BindActionCreators.
Variable fnBody : nat -> list value -> prog.
Variable run : prog -> M value.

(** [function () { return dispatch(actionCreator.apply(this, arguments)) }] *)
Definition bindActionCreator (actionCreator : value) (dispatch : value -> M value)
  : list value -> M value :=
  fun arguments =>
    action <- callFunction fnBody run actionCreator arguments ;;
    dispatch action.

(** The loop over [keys], with [boundActionCreators] as it stands. *)
Fixpoint bindEach (actionCreators : value) (dispatch : value -> M value)
    (keys : list string) (boundActionCreators : list (string * (list value -> M value)))
  : list (string * (list value -> M value)) :=
  match keys with
  | [] => boundActionCreators
  | key :: rest =>
      let actionCreator := getOwn actionCreators key in
      bindEach actionCreators dispatch rest
        (if is_function actionCreator then
           setProp key (bindActionCreator actionCreator dispatch) boundActionCreators
         else boundActionCreators)
  end.

Definition bindActionCreators (actionCreators : value) (dispatch : value -> M value)
  : bindError + boundCreators :=
  if is_function actionCreators then
    inr (BoundFunction (bindActionCreator actionCreators dispatch))
  else if negb (is_object actionCreators) || is_null actionCreators then
    inl (ErrExpectedObjectOrFunction
           (if is_null actionCreators then "null" else typeOf actionCreators))
  else
    inr (BoundObject (bindEach actionCreators dispatch (keysOf actionCreators) [])).

End BindActionCreators.

(** [bound[key]] on what [bindActionCreators] returned. *)
Fixpoint boundField (key : string) (fields : list (string * (list value -> M value)))
  : option (list value -> M value) :=
  match fields with
  | [] => None
  | (k, f) :: rest => if String.eqb k key then Some f else boundField key rest
  end.

(** ** The spec's reading of listener notification

    Section 4.2: dispatch "takes the listener snapshot ... and invokes every
    listener in that snapshot, in registration order". Here the snapshot is a
    list taken once, where [notify] reads the array through its reference at
    every iteration. *)

Section SnapshotReading.
Variable fnBody : nat -> list value -> prog.
Variable run : prog -> M value.
Variable gas : nat.

Fixpoint notifySnapshot (budget : nat) (snapshot : list fref) : M unit :=
  match budget with
  | 0 => fun _ => OutOfFuel
  | S budget' => fun w =>
      match snapshot with
      | [] => Ok tt w
      | listener :: rest =>
          (callListener fnBody run listener ;;; notifySnapshot budget' rest)
            (log (EvListener listener) w)
      end
  end.

Definition dispatchSnapshot (action : value) : M value := fun w =>
  if negb (isPlainObject action) then Throw ErrActionNotPlain w
  else if is_undefined (getField action "type") then Throw ErrActionTypeUndefined w
  else if isDispatching w then Throw ErrReducersMayNotDispatch w
  else
    (finally
       (modify (set_isDispatching true) ;;;
        reducer <- reads currentReducer ;;
        state <- reads currentState ;;
        modify (log (EvReducer state action)) ;;;
        next <- callFunction fnBody run reducer [state; action] ;;
        modify (set_currentState next))
       (set_isDispatching false) ;;;
     snapshot <- reads (fun w => arrayAt (nextListeners w) w) ;;
     modify (fun w => set_currentListeners (nextListeners w) w) ;;;
     notifySnapshot gas snapshot ;;;
     ret action) w.
End SnapshotReading.

(** The spec's reading of unsubscription: drop the first occurrence. *)
Fixpoint removeFirst (x : fref) (l : list fref) : list fref :=
  match l with
  | [] => []
  | y :: rest => if decide (x = y) then rest else y :: removeFirst x rest
  end.

(** ** Vocabulary of the statements *)

(** An action [dispatch] accepts. *)
Definition isValidAction (a : value) : bool :=
  isPlainObject a && negb (is_undefined (getField a "type")).

(** User code that only reads the state and returns. *)
Inductive quiet : prog -> Prop :=
| quiet_Ret v : quiet (Ret v)
| quiet_GetState k : (forall v, quiet (k v)) -> quiet (GetState k).

Definition quietListener (fnBody : nat -> list value -> prog) (l : fref) : Prop :=
  match l with
  | UserFn f => quiet (fnBody f [])
  | ObserveState _ => False
  end.

(** A reducer that is the pure function [T]. *)
Definition pureReducer (fnBody : nat -> list value -> prog) (r : nat)
    (T : value -> value -> value) : Prop :=
  forall s a, fnBody r [s; a] = Ret (T s a).

Definition logs (es : list event) (w : World) : World :=
  {| currentReducer := currentReducer w; currentState := currentState w; arrays := arrays w;
     currentListeners := currentListeners w; nextListeners := nextListeners w;
     isDispatching := isDispatching w; subscriptions := subscriptions w;
     observers := observers w; dispatchVars := dispatchVars w; trace := trace w ++ es |}.

(** The states a left fold of [T] passes through. *)
Fixpoint foldStates (T : value -> value -> value) (s : value) (actions : list value)
  : list value :=
  match actions with
  | [] => []
  | a :: rest => T s a :: foldStates T (T s a) rest
  end.

Definition occurrences (x : fref) (l : list fref) : nat :=
  length (filter (fun y => y = x) l).

Definition nextArray (w : World) : list fref := arrayAt (nextListeners w) w.

Definition liveCount (l : fref) (subs : list (fref * bool)) : nat :=
  length (filter (fun c => c = (l, true)) subs).

(** Both references point into the heap, and the live array holds each
    listener once per subscription that is still active. *)
Record wf (w : World) : Prop := {
  wf_next : nextListeners w < length (arrays w);
  wf_current : currentListeners w < length (arrays w);
  wf_live : forall l, occurrences l (nextArray w) = liveCount l (subscriptions w)
}.

(** An array that [subscribe] and [unsubscribe] will not write to: it is not
    the live array, or the live array is still shared with the snapshot. *)
Definition frozen (a : nat) (w : World) : Prop :=
  nextListeners w = a -> currentListeners w = a.

Record ext (w w' : World) : Prop := {
  ext_flag : isDispatching w' = isDispatching w;
  ext_length : length (arrays w) <= length (arrays w');
  ext_frozen : forall a, a < length (arrays w) -> frozen a w ->
               arrays w' !! a = arrays w !! a /\ frozen a w';
  ext_dead : forall h l, subscriptions w !! h = Some (l, false) ->
             subscriptions w' !! h = Some (l, false);
  ext_dispatchVars : dispatchVars w' = dispatchVars w
}.

Definition steady {A} (m : M A) : Prop :=
  forall w, wf w ->
    match m w with
    | Ok _ w' | Throw _ w' => wf w' /\ ext w w'
    | OutOfFuel => True
    end.

(** Two worlds with the same listener registry. *)
Definition sameRegistry (w w' : World) : Prop :=
  arrays w' = arrays w /\ currentListeners w' = currentListeners w /\
  nextListeners w' = nextListeners w /\ subscriptions w' = subscriptions w /\
  dispatchVars w' = dispatchVars w.

(** [ensureCanMutateNextListeners()] followed by an in-place update of
    [nextListeners]: what [subscribe] and [unsubscribe] do to the registry. *)
Definition mutateNext (f : list fref -> list fref) : M unit :=
  ensureCanMutateNextListeners ;;;
  modify (fun w =>
    set_arrays (<[nextListeners w := f (arrayAt (nextListeners w) w)]> (arrays w)) w).

Record Mutated (f : list fref -> list fref) (w w' : World) : Prop := {
  mut_next : nextArray w' = f (nextArray w);
  mut_next_lt : nextListeners w' < length (arrays w');
  mut_current : currentListeners w' = currentListeners w;
  mut_current_lt : currentListeners w' < length (arrays w');
  mut_unshared : nextListeners w' <> currentListeners w';
  mut_length : length (arrays w) <= length (arrays w');
  mut_frozen : forall a, a < length (arrays w) -> frozen a w ->
               arrays w' !! a = arrays w !! a /\ frozen a w';
  mut_reducer : currentReducer w' = currentReducer w;
  mut_state : currentState w' = currentState w;
  mut_flag : isDispatching w' = isDispatching w;
  mut_subs : subscriptions w' = subscriptions w;
  mut_observers : observers w' = observers w;
  mut_dispatchVars : dispatchVars w' = dispatchVars w;
  mut_trace : trace w' = trace w
}.

Record Subscribed (l : fref) (w w' : World) : Prop := {
  sub_next : nextArray w' = nextArray w ++ [l];
  sub_subs : subscriptions w' = subscriptions w ++ [(l, true)];
  sub_current : currentListeners w' = currentListeners w;
  sub_unshared : nextListeners w' <> currentListeners w';
  sub_reducer : currentReducer w' = currentReducer w;
  sub_state : currentState w' = currentState w;
  sub_observers : observers w' = observers w;
  sub_dispatchVars : dispatchVars w' = dispatchVars w;
  sub_trace : trace w' = trace w;
  sub_wf : wf w';
  sub_ext : ext w w'
}.

Record Unsubscribed (h : nat) (l : fref) (w w' : World) : Prop := {
  unsub_next : nextArray w' = removeFirst l (nextArray w);
  unsub_subs : subscriptions w' = <[h := (l, false)]> (subscriptions w);
  unsub_current : currentListeners w' = currentListeners w;
  unsub_unshared : nextListeners w' <> currentListeners w';
  unsub_reducer : currentReducer w' = currentReducer w;
  unsub_state : currentState w' = currentState w;
  unsub_observers : observers w' = observers w;
  unsub_dispatchVars : dispatchVars w' = dispatchVars w;
  unsub_trace : trace w' = trace w;
  unsub_wf : wf w';
  unsub_ext : ext w w'
}.

(** The world after a dispatch whose reducer returned [v] and whose
    listeners were all quiet. *)
Definition afterDispatch (v a : value) (w : World) : World :=
  logs (map EvListener (nextArray w))
    (set_currentListeners (nextListeners w)
       (set_currentState v (log (EvReducer (currentState w) a) w))).

(** The listeners of the subscriptions that are still active, in
    subscription order. *)
Fixpoint liveListeners (subs : list (fref * bool)) : list fref :=
  match subs with
  | [] => []
  | (l, true) :: rest => l :: liveListeners rest
  | (_, false) :: rest => liveListeners rest
  end.

(** Middleware code that never calls [next] (nor re-enters the pipeline
    through [api.dispatch]). *)
Inductive noNext : mprog -> Prop :=
| noNext_ret v : noNext (MRet v)
| noNext_raise e : noNext (MRaise e)
| noNext_getState k : (forall v, noNext (k v)) -> noNext (MApiGetState k)
| noNext_try body handler k :
    noNext body -> (forall e, noNext (handler e)) -> (forall v, noNext (k v)) ->
    noNext (MTryCatch body handler k).

(** A middleware whose two outer functions only return the next closure. *)
Definition plainMiddleware (m : Middleware) : Prop :=
  (exists v, mw_setup m = MRet v) /\ (exists v, mw_wrap m = MRet v).

(** [middlewareAPI.dispatch] as the handlers of a pipeline running with fuel
    [n] see it. *)
Definition apiInside (store : Store) (ref n : nat) : value -> M value :=
  apiDispatchWith ref
    match n with
    | 0 => fun _ _ _ => OutOfFuel
    | S n' => composed store ref n'
    end.

(** The calls of the listeners of [ls], one after the other: each call is
    recorded, then the listener runs. *)
Fixpoint callEach (fnBody : nat -> list value -> prog) (run : prog -> M value)
    (ls : list fref) : M unit :=
  match ls with
  | [] => ret tt
  | l :: rest =>
      modify (log (EvListener l)) ;;;
      match l with
      | UserFn f => run (fnBody f [])
      | ObserveState c =>
          fun w => observeState fnBody run (default VUndefined (observers w !! c)) w
      end ;;;
      callEach fnBody run rest
  end.

(** The world in which [dispatch] starts to call the listeners: the reducer,
    the pure function [T], has handled [a], and the live array has become
    the snapshot. *)
Definition reduced (T : value -> value -> value) (a : value) (w : World) : World :=
  set_currentListeners (nextListeners w)
    (set_currentState (T (currentState w) a) (log (EvReducer (currentState w) a) w)).

(** [w] with one more [let dispatch], holding [d]. *)
Definition newDispatchVar (d : option (list Middleware)) (w : World) : World :=
  set_dispatchVars (dispatchVars w ++ [d]) w.

(** From [w] to [w'] no [let dispatch] has been lost, and each one that
    held its composed function still holds it. *)
Definition assignedKept (w w' : World) : Prop :=
  length (dispatchVars w) <= length (dispatchVars w')
  /\ forall ref fn, dispatchAt ref w = Some fn -> dispatchAt ref w' = Some fn.

(** A store whose [dispatch] and [getState] preserve the engine's
    invariants. *)
Definition steadyStore (store : Store) : Prop :=
  (forall a, steady (store_dispatch store a)) /\ steady (store_getState store).

(** A call of a store creator that leaves a well-formed engine, returns
    such a store, and keeps what the pipelines assembled so far hold. *)
Definition steadyCreator (create : creator) (args : list value) (w : World) : Prop :=
  match create args w with
  | Ok store w0 => wf w0 /\ steadyStore store /\ assignedKept w w0
  | Throw _ w0 => assignedKept w w0
  | OutOfFuel => True
  end.

(** ** Fuel

    [r'] is what [r] becomes with more fuel: the same, unless [r] ran out. *)
Definition refines {A} (r r' : outcome A) : Prop := r = OutOfFuel \/ r = r'.

Definition mrefines {A} (m m' : M A) : Prop := forall w, refines (m w) (m' w).

(** A runner that refuses to start user code unless the engine is idle. *)
Definition assertIdle (run : prog -> M value) : prog -> M value :=
  fun p w => if isDispatching w then Throw ErrNotInScope w else run p w.

(** ** Clients *)

(** A client that reads the state back after each dispatch. *)
Definition dispatchAndRead (store : Store) (a : value) : M (value * value) :=
  r <- store_dispatch store a ;; s <- store_getState store ;; ret (r, s).

(** A client session: build the store, read the state, register the
    listeners, then dispatch the actions, reading the state after each. *)
Definition session (fnBody : nat -> list value -> prog) (initSuffix replaceSuffix : string)
    (enhancerBody : nat -> creator -> creator) (n : nat)
    (reducer : value) (listeners actions : list value)
  : M (value * list (value * value)) :=
  store <- createStore fnBody initSuffix replaceSuffix enhancerBody n
             reducer VUndefined VUndefined ;;
  s0 <- store_getState store ;;
  _ <- mapM (store_subscribe store) listeners ;;
  results <- mapM (dispatchAndRead store) actions ;;
  ret (s0, results).

(** ** A concrete program: the counter of the spec's scenario *)

(** Sample values of the random suffixes of the reserved action types. *)
Definition initKey : string := "7.d.k".
Definition replaceKey : string := "q.2.m".

Definition inc : value := actionOfType "inc".

(** [count(state = 0, action) => action.type === 'inc' ? state + 1 : state] *)
Definition count (state action : value) : value :=
  let state := match state with VUndefined => VNum 0 | _ => state end in
  match getField action "type", state with
  | VStr "inc", VNum n => VNum (n + 1)
  | _, _ => state
  end.

(** Function 0 is the counter; every other function returns at once. *)
Definition counterBody (f : nat) (args : list value) : prog :=
  match f, args with
  | 0, [state; action] => Ret (count state action)
  | _, _ => Ret VUndefined
  end.

(** A listener (function 1) that leaves a mark each time it is called: it
    subscribes function 2, which returns at once. *)
Definition markingBody (f : nat) (args : list value) : prog :=
  match f, args with
  | 0, [state; action] => Ret (count state action)
  | 1, [] => Subscribe (VFun 2) (fun _ => Ret VUndefined)
  | _, _ => Ret VUndefined
  end.

(** No enhancer is in play. *)
Definition noEnhancer (f : nat) (c : creator) : creator := c.

(** A reducer that, on the action [again], calls the unsubscribe function
    of the first subscription and reports that the call came back. *)
Definition unsubscribingBody (f : nat) (args : list value) : prog :=
  match f, args with
  | 0, [state; action] =>
      match getField action "type" with
      | VStr "again" => Unsubscribe 0 (Ret (VStr "unsubscribe returned"))
      | _ => Ret state
      end
  | _, _ => Ret VUndefined
  end.

(** A reducer that dispatches from inside itself on the action [nest], and
    counts otherwise. *)
Definition nestingBody (f : nat) (args : list value) : prog :=
  match f, args with
  | 0, [state; action] =>
      match getField action "type" with
      | VStr "nest" => Dispatch inc (fun _ => Ret state)
      | _ => Ret (count state action)
      end
  | _, _ => Ret VUndefined
  end.

(** A listener (function 1) that, the first time the counter shows 1, reads
    the state, subscribes and unsubscribes another listener and dispatches
    again, all from inside the notification. *)
Definition reentrantListenerBody (f : nat) (args : list value) : prog :=
  match f, args with
  | 0, [state; action] => Ret (count state action)
  | 1, [] =>
      GetState (fun s =>
        match s with
        | VNum 1 =>
            Subscribe (VFun 2) (fun h =>
              Unsubscribe h (Dispatch inc (fun _ => Ret VUndefined)))
        | _ => Ret VUndefined
        end)
  | _, _ => Ret VUndefined
  end.

(** Listener 2 unsubscribes itself (it is the second subscription) and
    subscribes listener 4; the other listeners return at once. *)
Definition selfUnsubscribingBody (f : nat) (args : list value) : prog :=
  match f, args with
  | 0, [state; action] => Ret (count state action)
  | 2, [] => Unsubscribe 1 (Subscribe (VFun 4) (fun _ => Ret VUndefined))
  | _, _ => Ret VUndefined
  end.

(** The world after [createStore(counter)] and the subscription of listeners
    1, 2 and 3. *)
Definition threeListeners : World :=
  Eval vm_compute in
    match (store <- createStore selfUnsubscribingBody initKey replaceKey noEnhancer 1
                      (VFun 0) VUndefined VUndefined ;;
           mapM (store_subscribe store) [VFun 1; VFun 2; VFun 3]) emptyWorld with
    | Ok _ w => w
    | _ => emptyWorld
    end.

(** ** Concrete middleware *)

(** [A]: answers actions of type [blocked] itself, hands the others to [next]. *)
Definition blocker : Middleware :=
  {| mw_name := "A";
     mw_setup := MRet VUndefined;
     mw_wrap := MRet VUndefined;
     mw_handle := fun action =>
       match getField action "type" with
       | VStr "blocked" => MRet (VStr "blocked by A")
       | _ => MNext action MRet
       end |}.

(** [B]: hands every action to [next]. *)
Definition passer : Middleware :=
  {| mw_name := "B";
     mw_setup := MRet VUndefined;
     mw_wrap := MRet VUndefined;
     mw_handle := fun action => MNext action MRet |}.

(** Dispatches as soon as it is given the capability object. *)
Definition eager : Middleware :=
  {| mw_name := "eager";
     mw_setup := MApiDispatch inc MRet;
     mw_wrap := MRet VUndefined;
     mw_handle := fun action => MNext action MRet |}.

(** Turns the action [again] into an [inc] sent through [api.dispatch]. *)
Definition redispatcher : Middleware :=
  {| mw_name := "R";
     mw_setup := MRet VUndefined;
     mw_wrap := MRet VUndefined;
     mw_handle := fun action =>
       match getField action "type" with
       | VStr "again" => MApiDispatch inc MRet
       | _ => MNext action MRet
       end |}.

(** Sends [again] down the chain as soon as it is given [next]. *)
Definition early : Middleware :=
  {| mw_name := "early";
     mw_setup := MRet VUndefined;
     mw_wrap := MNext (actionOfType "again") MRet;
     mw_handle := fun action => MNext action MRet |}.

(** The counter store, as a creator. *)
Definition counterStore : creator :=
  createStoreArgs counterBody initKey replaceKey noEnhancer 1.

(** The world [counterStore] leaves behind. *)
Definition counterWorld : World :=
  Eval vm_compute in
    match counterStore [VFun 0] emptyWorld with
    | Ok _ w => w
    | _ => emptyWorld
    end.

(** ** Vocabulary of the further properties *)

(** One entry of a bound object: the key with its creator bound. *)
Definition bindEntry (fnBody : nat -> list value -> prog) (run : prog -> M value)
    (dispatch : value -> M value) (kv : string * value)
  : string * (list value -> M value) :=
  (fst kv, bindActionCreator fnBody run (snd kv) dispatch).

(** A middleware whose handler is [action => next(g(action))]. *)
Definition forwards (m : Middleware) (g : value -> value) : Prop :=
  forall a, mw_handle m a = MNext (g a) MRet.

(** What a chain of forwarding middleware hands to the store's dispatch,
    and the handler calls on the way there, outermost first. *)
Fixpoint handedDown (chain : list (Middleware * (value -> value))) (a : value) : value :=
  match chain with
  | [] => a
  | (_, g) :: rest => handedDown rest (g a)
  end.

Fixpoint handlerCalls (chain : list (Middleware * (value -> value))) (a : value)
  : list event :=
  match chain with
  | [] => []
  | (m, g) :: rest => EvHandler (mw_name m) a :: handlerCalls rest (g a)
  end.

(** A listener that returns at once in every idle world holding state [s]. *)
Definition inertAt (fnBody : nat -> list value -> prog) (lower : prog -> M value)
    (s : value) (l : fref) : Prop :=
  forall w, currentState w = s -> isDispatching w = false ->
    exists v, callListener fnBody lower l w = Ok v w.

(** Client calls that change the registry. *)
Inductive registryCall : Type :=
| CallSubscribe (listener : value)
| CallUnsubscribe (h : nat).

Definition performCall (c : registryCall) : M unit :=
  match c with
  | CallSubscribe listener => subscribe listener ;;; ret tt
  | CallUnsubscribe h => unsubscribe h ;;; ret tt
  end.

(** The listener arrays allocated between two worlds: one per [slice()]. *)
Definition copiesSince (w0 w : World) : nat := length (arrays w) - length (arrays w0).

(** What has been recorded between two worlds either is nothing, and then
    the state is the same, or starts with a call of the reducer. *)
Definition reducerFirst (w w' : World) : Prop :=
  exists es,
    trace w' = trace w ++ es
    /\ match es with
       | [] => currentState w' = currentState w
       | EvReducer _ _ :: _ => True
       | _ => False
       end.

Definition orderly {A} (m : M A) : Prop :=
  forall w,
    match m w with
    | Ok _ w' | Throw _ w' => reducerFirst w w'
    | OutOfFuel => True
    end.

(** The records of the calls are only ever added to. *)
Definition growing {A} (m : M A) : Prop :=
  forall w,
    match m w with
    | Ok _ w' | Throw _ w' => exists es, trace w' = trace w ++ es
    | OutOfFuel => True
    end.

(** ** Concrete programs for the further properties *)

(** Function 0 counts; function 1 counts every [inc] twice. *)
Definition twoCountersBody (f : nat) (args : list value) : prog :=
  match f, args with
  | 0, [state; action] => Ret (count state action)
  | 1, [state; action] => Ret (count (count state action) action)
  | _, _ => Ret VUndefined
  end.

(** Reducer 0 calls [replaceReducer] with function 2 when it is given the
    action [swap]; function 2 is a reducer that always throws. *)
Definition replacingBody (f : nat) (args : list value) : prog :=
  match f, args with
  | 0, [state; action] =>
      match getField action "type" with
      | VStr "swap" => ReplaceReducer (VFun 2) (Ret state)
      | _ => Ret (count state action)
      end
  | 2, [_; _] => Raise (ErrUser (VStr "broken"))
  | _, _ => Ret VUndefined
  end.

(** Listener 2 throws. *)
Definition throwingListenerBody (f : nat) (args : list value) : prog :=
  match f, args with
  | 0, [state; action] => Ret (count state action)
  | 2, [] => Raise (ErrUser (VStr "listener failed"))
  | _, _ => Ret VUndefined
  end.

(** Reducer 0 throws on the action [bad]. *)
Definition failingBody (f : nat) (args : list value) : prog :=
  match f, args with
  | 0, [state; action] =>
      match getField action "type" with
      | VStr "bad" => Raise (ErrUser (VStr "bad action"))
      | _ => Ret (count state action)
      end
  | _, _ => Ret VUndefined
  end.

Definition showsOne (s : value) : bool :=
  match s with VNum 1 => true | _ => false end.

(** Listener 1 dispatches [inc] once more when the counter shows 1. *)
Definition echoingBody (f : nat) (args : list value) : prog :=
  match f, args with
  | 0, [state; action] => Ret (count state action)
  | 1, [] =>
      GetState (fun s =>
        if showsOne s then Dispatch inc (fun _ => Ret VUndefined) else Ret VUndefined)
  | _, _ => Ret VUndefined
  end.

(** Action creators: function 7 makes [inc], function 8 returns a string,
    function 9 throws. *)
Definition creatorsBody (f : nat) (args : list value) : prog :=
  match f, args with
  | 0, [state; action] => Ret (count state action)
  | 7, _ => Ret inc
  | 8, _ => Ret (VStr "not an action")
  | 9, _ => Raise (ErrUser (VStr "creator failed"))
  | _, _ => Ret VUndefined
  end.

(** A client that subscribes listener 1, dispatches [inc] and calls the
    unsubscribe function it was given. *)
Definition subscribingClient : prog :=
  Subscribe (VFun 1) (fun h => Dispatch inc (fun _ => Unsubscribe h (Ret VUndefined))).

(** The counter store with listeners 1 and 3. *)
Definition twoListeners : World :=
  Eval vm_compute in
    match (store <- createStore echoingBody initKey replaceKey noEnhancer 1
                      (VFun 0) VUndefined VUndefined ;;
           mapM (store_subscribe store) [VFun 1; VFun 3]) emptyWorld with
    | Ok _ w => w
    | _ => emptyWorld
    end.

(** An observer whose [next] is function 1, and the counter store after
    [store[$$observable]().subscribe(observer)]. *)
Definition sampleObserver : value := VObj true [("next", VFun 1)].

Definition observedWorld : World :=
  Eval vm_compute in
    match (store <- createStore counterBody initKey replaceKey noEnhancer 1
                      (VFun 0) VUndefined VUndefined ;;
           store_observable store sampleObserver) emptyWorld with
    | Ok _ w => w
    | _ => emptyWorld
    end.

(** The world that building a store around [failingBody]'s reducer leaves. *)
Definition failingWorld : World :=
  Eval vm_compute in
    match createStoreArgs failingBody initKey replaceKey noEnhancer 1 [VFun 0] emptyWorld with
    | Ok _ w => w
    | _ => emptyWorld
    end.

(** Renames the action [add] to [inc] on its way down. *)
Definition rename (a : value) : value :=
  match getField a "type" with
  | VStr "add" => inc
  | _ => a
  end.

Definition renamer : Middleware :=
  {| mw_name := "N";
     mw_setup := MRet VUndefined;
     mw_wrap := MRet VUndefined;
     mw_handle := fun action => MNext (rename action) MRet |}.

(** Reads the state before and after it hands the action down. *)
Definition reader : Middleware :=
  {| mw_name := "G";
     mw_setup := MRet VUndefined;
     mw_wrap := MRet VUndefined;
     mw_handle := fun action =>
       MApiGetState (fun before =>
         MNext action (fun result =>
           MApiGetState (fun after => MRet (VArr [before; result; after])))) |}.

(** Turns what [next] throws into a value. *)
Definition catcher : Middleware :=
  {| mw_name := "K";
     mw_setup := MRet VUndefined;
     mw_wrap := MRet VUndefined;
     mw_handle := fun action =>
       MTryCatch (MNext action MRet) (fun _ => MRet (VStr "caught")) MRet |}.

(** Every enhancer is [applyMiddleware(N, B)]. *)
Definition renamingEnhancer (f : nat) : creator -> creator :=
  applyMiddleware 1 [renamer; passer].

(** An object of action creators with a field that is not a function. *)
Definition sampleCreators : value :=
  VObj true [("add", VFun 7); ("version", VNum 3); ("fail", VFun 9)].

(** * Properties *)

(** ** Arrays *)

Lemma indexOfFrom_shift x l i :
  x ∈ l -> indexOfFrom x l i = (i + indexOfFrom x l 0)%Z.
Proof.
  revert i. induction l as [|y l IH]; intros i Hin.
  - inversion Hin.
  - simpl. destruct (decide (x = y)) as [->|Hne]; [lia|].
    assert (Hl : x ∈ l) by (inversion Hin; subst; [congruence | assumption]).
    rewrite (IH (i + 1)%Z Hl), (IH (0 + 1)%Z Hl). lia.
Qed.

Lemma indexOfFrom_absent x l i : x ∉ l -> indexOfFrom x l i = (-1)%Z.
Proof.
  revert i. induction l as [|y l IH]; intros i Hnin; [reflexivity|].
  simpl. destruct (decide (x = y)) as [->|Hne].
  - exfalso. apply Hnin. left.
  - apply IH. intros Hl. apply Hnin. now right.
Qed.

Lemma indexOf_range x l :
  x ∈ l -> (0 <= indexOf x l < Z.of_nat (length l))%Z.
Proof.
  unfold indexOf. induction l as [|y l IH]; intros Hin.
  - inversion Hin.
  - simpl indexOfFrom. destruct (decide (x = y)) as [->|Hne].
    + simpl length. lia.
    + assert (Hl : x ∈ l) by (inversion Hin; subst; [congruence | assumption]).
      rewrite (indexOfFrom_shift x l (0 + 1) Hl). specialize (IH Hl).
      simpl length. lia.
Qed.

Lemma delete_oob (l : list fref) i : length l <= i -> delete i l = l.
Proof.
  intros H. rewrite delete_take_drop, take_ge, drop_ge by lia. apply app_nil_r.
Qed.

Lemma splice1_nonneg (i : nat) l : splice1 (Z.of_nat i) l = delete i l.
Proof.
  unfold splice1.
  destruct (Z.of_nat i <? 0)%Z eqn:E; [apply Z.ltb_lt in E; lia|].
  destruct (decide (i < length l)) as [Hlt|Hge].
  - rewrite Z.min_l by lia. now rewrite Nat2Z.id.
  - rewrite Z.min_r by lia. rewrite Nat2Z.id.
    rewrite !delete_oob by lia. reflexivity.
Qed.

(** When the listener is in the array, [indexOf] followed by [splice]
    removes its first occurrence. *)
Lemma splice1_indexOf x l :
  x ∈ l -> splice1 (indexOf x l) l = removeFirst x l.
Proof.
  unfold indexOf. induction l as [|y l IH]; intros Hin.
  - inversion Hin.
  - simpl indexOfFrom. simpl removeFirst.
    destruct (decide (x = y)) as [->|Hne].
    + apply (splice1_nonneg 0).
    + assert (Hl : x ∈ l) by (inversion Hin; subst; [congruence | assumption]).
      rewrite (indexOfFrom_shift x l (0 + 1) Hl).
      pose proof (indexOf_range x l Hl) as Hr. unfold indexOf in Hr.
      specialize (IH Hl).
      replace (0 + 1 + indexOfFrom x l 0)%Z
        with (Z.of_nat (S (Z.to_nat (indexOfFrom x l 0)))) by lia.
      rewrite splice1_nonneg. simpl. f_equal.
      rewrite <- IH.
      replace (indexOfFrom x l 0) with (Z.of_nat (Z.to_nat (indexOfFrom x l 0))) at 2 by lia.
      now rewrite splice1_nonneg.
Qed.

(** When it is not, [splice(-1, 1)] removes the last element. *)
Lemma splice1_absent x l : x ∉ l -> splice1 (indexOf x l) l = removelast l.
Proof.
  intros Hnin. unfold indexOf. rewrite indexOfFrom_absent by assumption.
  unfold splice1. simpl.
  destruct l as [|y l] using rev_ind; [reflexivity|].
  rewrite removelast_last, length_app. simpl.
  replace (Z.to_nat (Z.max (Z.of_nat (length l + 1) + -1) 0)) with (length l) by lia.
  rewrite delete_middle. apply app_nil_r.
Qed.

Lemma occurrences_app x l1 l2 :
  occurrences x (l1 ++ l2) = occurrences x l1 + occurrences x l2.
Proof. unfold occurrences. now rewrite filter_app, length_app. Qed.

Lemma occurrences_cons x y l :
  occurrences x (y :: l) = (if decide (y = x) then 1 else 0) + occurrences x l.
Proof.
  unfold occurrences. rewrite filter_cons.
  destruct (decide (y = x)); reflexivity.
Qed.

Lemma occurrences_pos x l : 0 < occurrences x l <-> x ∈ l.
Proof.
  induction l as [|y l IH].
  - split; [inversion 1 | inversion 1].
  - rewrite occurrences_cons. destruct (decide (y = x)) as [->|Hne].
    + split; [intros _; left | lia].
    + simpl. rewrite IH. split; [now right|].
      inversion 1; subst; [congruence | assumption].
Qed.

Lemma occurrences_removeFirst x y l :
  x ∈ l ->
  occurrences y (removeFirst x l) + (if decide (x = y) then 1 else 0) = occurrences y l.
Proof.
  induction l as [|z l IH]; intros Hin.
  - inversion Hin.
  - simpl removeFirst. destruct (decide (x = z)) as [->|Hne].
    + rewrite occurrences_cons. lia.
    + assert (Hl : x ∈ l) by (inversion Hin; subst; [congruence | assumption]).
      rewrite !occurrences_cons. specialize (IH Hl). lia.
Qed.

(** ** Well-formed worlds and what every operation preserves *)

Lemma ext_refl w : ext w w.
Proof.
  split; [reflexivity | lia | | auto | reflexivity].
  intros a _ Hf. split; [reflexivity | exact Hf].
Qed.

Lemma ext_trans w1 w2 w3 : ext w1 w2 -> ext w2 w3 -> ext w1 w3.
Proof.
  intros [F1 L1 A1 D1 V1] [F2 L2 A2 D2 V2]. split; [congruence | lia | | auto | congruence].
  intros a Ha Hf. destruct (A1 a Ha Hf) as [E1 Hf1].
  destruct (A2 a ltac:(lia) Hf1) as [E2 Hf2]. split; [congruence | exact Hf2].
Qed.

Lemma sameRegistry_wf w w' : sameRegistry w w' -> wf w -> wf w'.
Proof.
  intros (Ha & Hc & Hn & Hs & Hv) [W1 W2 W3].
  split; unfold nextArray, arrayAt in *; rewrite ?Ha, ?Hc, ?Hn, ?Hs; auto.
Qed.

Lemma sameRegistry_ext w w' :
  sameRegistry w w' -> isDispatching w' = isDispatching w -> ext w w'.
Proof.
  intros (Ha & Hc & Hn & Hs & Hv) Hf.
  split; [exact Hf | rewrite Ha; lia | | rewrite Hs; auto | exact Hv].
  intros a _ Hfr. rewrite Ha. split; [reflexivity|].
  unfold frozen in *. now rewrite Hc, Hn.
Qed.

Lemma steady_ret {A} (a : A) : steady (ret a).
Proof. intros w Hw. simpl. split; [exact Hw | apply ext_refl]. Qed.

Lemma steady_throw {A} e : steady (@throw A e).
Proof. intros w Hw. simpl. split; [exact Hw | apply ext_refl]. Qed.

Lemma steady_bind {A B} (m : M A) (f : A -> M B) :
  steady m -> (forall a, steady (f a)) -> steady (bind m f).
Proof.
  intros Hm Hf w Hw. unfold bind. specialize (Hm w Hw).
  destruct (m w) as [a w1|e w1|]; [|exact Hm|exact I].
  destruct Hm as [Hw1 He1]. specialize (Hf a w1 Hw1).
  destruct (f a w1) as [b w2|e w2|]; [| |exact I];
    (split; [tauto | eapply ext_trans; [exact He1 | tauto]]).
Qed.

Lemma steady_catch {A} (m : M A) (h : error -> M A) :
  steady m -> (forall e, steady (h e)) -> steady (catch m h).
Proof.
  intros Hm Hh w Hw. unfold catch. specialize (Hm w Hw).
  destruct (m w) as [a w1|e w1|]; [exact Hm| |exact I].
  destruct Hm as [Hw1 He1]. specialize (Hh e w1 Hw1).
  destruct (h e w1) as [b w2|e' w2|]; [| |exact I];
    (split; [tauto | eapply ext_trans; [exact He1 | tauto]]).
Qed.

Lemma steady_reads {A} (f : World -> A) : steady (reads f).
Proof. intros w Hw. simpl. split; [exact Hw | apply ext_refl]. Qed.

Lemma steady_modify (f : World -> World) :
  (forall w, sameRegistry w (f w) /\ isDispatching (f w) = isDispatching w) ->
  steady (modify f).
Proof.
  intros Hf w Hw. simpl. destruct (Hf w) as [Hr Hd].
  split; [eapply sameRegistry_wf; eauto | now apply sameRegistry_ext].
Qed.

Lemma steady_getState : steady getState.
Proof.
  intros w Hw. unfold getState.
  destruct (isDispatching w); (split; [exact Hw | apply ext_refl]).
Qed.

(** *** Copy-on-write of the live array *)

Lemma mutateNext_effect f w :
  nextListeners w < length (arrays w) ->
  currentListeners w < length (arrays w) ->
  exists w', mutateNext f w = Ok tt w' /\ Mutated f w w'.
Proof.
  intros Hn Hc. unfold mutateNext, bind, ensureCanMutateNextListeners, modify.
  destruct (nextListeners w =? currentListeners w) eqn:E.
  - apply Nat.eqb_eq in E. eexists. split; [reflexivity|].
    split; simpl; try reflexivity; try lia.
    + unfold nextArray, arrayAt. simpl.
      rewrite list_lookup_insert_eq by (rewrite length_app; simpl; lia).
      simpl. rewrite lookup_app_r, Nat.sub_diag by lia. simpl. now rewrite E.
    + rewrite length_insert, length_app. simpl. lia.
    + rewrite length_insert, length_app. simpl. lia.
    + rewrite length_insert, length_app. simpl. lia.
    + intros a Ha Hf. split.
      * rewrite list_lookup_insert_ne by lia. now rewrite lookup_app_l by lia.
      * unfold frozen. simpl. lia.
  - apply Nat.eqb_neq in E. eexists. split; [reflexivity|].
    split; simpl; try reflexivity; try lia; try (rewrite length_insert; lia).
    + unfold nextArray, arrayAt. simpl.
      now rewrite list_lookup_insert_eq by lia.
    + intros a Ha Hf. split.
      * rewrite list_lookup_insert_ne; [reflexivity|].
        intros Heq. apply E. rewrite Heq. symmetry. now apply Hf.
      * exact Hf.
Qed.

Lemma liveCount_app l s1 s2 : liveCount l (s1 ++ s2) = liveCount l s1 + liveCount l s2.
Proof. unfold liveCount. now rewrite filter_app, length_app. Qed.

Lemma liveCount_cons l c s :
  liveCount l (c :: s) = (if decide (c = (l, true)) then 1 else 0) + liveCount l s.
Proof.
  unfold liveCount. rewrite filter_cons. destruct (decide (c = (l, true))); reflexivity.
Qed.

Lemma liveCount_lookup l h s : s !! h = Some (l, true) -> 0 < liveCount l s.
Proof.
  revert h. induction s as [|c s IH]; intros h Hh; [inversion Hh|].
  rewrite liveCount_cons. destruct h as [|h]; simpl in Hh.
  - inversion Hh. subst. rewrite decide_True by reflexivity. lia.
  - specialize (IH h Hh). lia.
Qed.

Lemma liveCount_cancel l l' h s :
  s !! h = Some (l, true) ->
  liveCount l' (<[h := (l, false)]> s) + (if decide (l = l') then 1 else 0) = liveCount l' s.
Proof.
  revert h. induction s as [|c s IH]; intros h Hh; [inversion Hh|].
  destruct h as [|h]; simpl in Hh; simpl.
  - inversion Hh. subst. rewrite !liveCount_cons.
    rewrite (decide_False (P := (l, false) = (l', true))) by congruence.
    destruct (decide (l = l')) as [->|Hne].
    + rewrite decide_True by reflexivity. lia.
    + rewrite decide_False by congruence. lia.
  - rewrite !liveCount_cons. specialize (IH h Hh). lia.
Qed.

(** *** subscribe *)

Lemma subscribeFn_idle l w :
  wf w -> isDispatching w = false ->
  exists w', subscribeFn l w = Ok (length (subscriptions w)) w' /\ Subscribed l w w'.
Proof.
  intros [Wn Wc Wl] Hidle. unfold subscribeFn. rewrite Hidle.
  set (w0 := set_subscriptions (subscriptions w ++ [(l, true)]) w).
  destruct (mutateNext_effect (fun arr => arr ++ [l]) w0 Wn Wc) as (w' & Hrun & Hm).
  exists w'. split.
  - unfold mutateNext in Hrun. unfold bind in *.
    destruct (ensureCanMutateNextListeners w0) as [[] w1|e w1|]; try discriminate.
    simpl in *. now inversion Hrun.
  - destruct Hm. subst w0. simpl in *.
    split; try assumption.
    + split; try assumption.
      intros l'. change (nextArray w') with (nextArray w') . rewrite mut_next0.
      change (nextArray (set_subscriptions _ w)) with (nextArray w).
      rewrite mut_subs0, occurrences_app, liveCount_app, Wl.
      rewrite occurrences_cons, liveCount_cons. unfold occurrences, liveCount. simpl.
      destruct (decide (l = l')) as [->|Hne].
      * now rewrite decide_True by reflexivity.
      * now rewrite decide_False by congruence.
    + split; try assumption.
      intros h' l' Hh'. rewrite mut_subs0. apply lookup_app_l_Some. exact Hh'.
Qed.

Lemma subscribeFn_dispatching l w :
  isDispatching w = true -> subscribeFn l w = Throw ErrSubscribeWhileDispatching w.
Proof. intros H. unfold subscribeFn. now rewrite H. Qed.

Lemma steady_subscribeFn l : steady (subscribeFn l).
Proof.
  intros w Hw. destruct (isDispatching w) eqn:E.
  - rewrite subscribeFn_dispatching by assumption. split; [exact Hw | apply ext_refl].
  - destruct (subscribeFn_idle l w Hw E) as (w' & -> & Hs). destruct Hs. now split.
Qed.

Lemma steady_subscribe v : steady (subscribe v).
Proof.
  destruct v; simpl; try apply steady_throw. apply steady_subscribeFn.
Qed.

(** *** unsubscribe *)

(** A live subscription's listener is in the live array, so [indexOf] never
    answers [-1] there. *)
Lemma live_in_nextArray w h l :
  wf w -> subscriptions w !! h = Some (l, true) -> l ∈ nextArray w.
Proof.
  intros [_ _ Wl] Hh. apply occurrences_pos. rewrite Wl.
  eapply liveCount_lookup; eauto.
Qed.

Lemma unsubscribe_live h l w :
  wf w -> isDispatching w = false -> subscriptions w !! h = Some (l, true) ->
  exists w', unsubscribe h w = Ok VUndefined w' /\ Unsubscribed h l w w'.
Proof.
  intros Hw Hidle Hh. pose proof (live_in_nextArray w h l Hw Hh) as Hin.
  destruct Hw as [Wn Wc Wl]. unfold unsubscribe. rewrite Hh, Hidle. simpl negb. cbv iota.
  set (w0 := set_subscriptions (<[h := (l, false)]> (subscriptions w)) w).
  destruct (mutateNext_effect (fun arr => splice1 (indexOf l arr) arr) w0 Wn Wc)
    as (w' & Hrun & Hm).
  exists w'. split.
  - unfold mutateNext in Hrun. unfold bind in *.
    destruct (ensureCanMutateNextListeners w0) as [[] w1|e w1|]; try discriminate.
    simpl in *. now inversion Hrun.
  - destruct Hm. subst w0. simpl in *.
    change (nextArray (set_subscriptions _ w)) with (nextArray w) in mut_next0.
    rewrite splice1_indexOf in mut_next0 by assumption.
    split; try assumption.
    + split; try assumption.
      intros l'. rewrite mut_next0, mut_subs0.
      pose proof (occurrences_removeFirst l l' (nextArray w) Hin) as H1.
      pose proof (liveCount_cancel l l' h (subscriptions w) Hh) as H2.
      specialize (Wl l'). lia.
    + split; try assumption.
      intros h' l' Hh'. rewrite mut_subs0.
      rewrite list_lookup_insert_ne; [exact Hh'|]. intros ->. congruence.
Qed.

Lemma unsubscribe_dead h l w :
  subscriptions w !! h = Some (l, false) -> unsubscribe h w = Ok VUndefined w.
Proof. intros Hh. unfold unsubscribe. now rewrite Hh. Qed.

Lemma unsubscribe_dispatching h l w :
  subscriptions w !! h = Some (l, true) -> isDispatching w = true ->
  unsubscribe h w = Throw ErrUnsubscribeWhileDispatching w.
Proof. intros Hh Hd. unfold unsubscribe. now rewrite Hh, Hd. Qed.

Lemma steady_unsubscribe h : steady (unsubscribe h).
Proof.
  intros w Hw. destruct (subscriptions w !! h) as [[l [|]]|] eqn:Hh.
  - destruct (isDispatching w) eqn:E.
    + rewrite (unsubscribe_dispatching h l) by assumption. split; [exact Hw | apply ext_refl].
    + destruct (unsubscribe_live h l w Hw E Hh) as (w' & -> & Hs). destruct Hs. now split.
  - rewrite (unsubscribe_dead h l) by assumption. split; [exact Hw | apply ext_refl].
  - unfold unsubscribe. rewrite Hh. split; [exact Hw | apply ext_refl].
Qed.

(** *** dispatch and everything user code can reach *)

Section Steady.
Variable fnBody : nat -> list value -> prog.
Variables initSuffix replaceSuffix : string.

Section Level.
Variable lower : prog -> M value.
Variable gas : nat.
Hypothesis lower_steady : forall p, steady (lower p).

Lemma steady_callFunction f args : steady (callFunction fnBody lower f args).
Proof. destruct f; simpl; try apply steady_throw. apply lower_steady. Qed.

Lemma steady_observeState observer : steady (observeState fnBody lower observer).
Proof.
  unfold observeState.
  destruct observer; try apply steady_throw;
    (destruct (truthy _); [|apply steady_ret];
     apply steady_bind; [apply steady_getState|]; intros ?;
     apply steady_bind; [apply steady_callFunction|]; intros _; apply steady_ret).
Qed.

Lemma steady_callListener l : steady (callListener fnBody lower l).
Proof.
  destruct l; simpl; [apply lower_steady|].
  intros w Hw. apply steady_observeState, Hw.
Qed.

Lemma steady_log (m : M unit) e : steady m -> steady (fun w => m (log e w)).
Proof.
  intros Hm w Hw.
  assert (Hr : sameRegistry w (log e w)) by (now repeat split).
  specialize (Hm (log e w) (sameRegistry_wf _ _ Hr Hw)).
  pose proof (sameRegistry_ext _ _ Hr eq_refl) as He.
  destruct (m (log e w)) as [a w1|e1 w1|]; [| |exact I];
    (split; [tauto | eapply ext_trans; [exact He | tauto]]).
Qed.

Lemma steady_notify budget a i : steady (notify fnBody lower budget a i).
Proof.
  revert i. induction budget as [|b IH]; intros i w Hw; [exact I|].
  simpl. destruct (arrayAt a w !! i) as [l|] eqn:E.
  - apply (steady_log (callListener fnBody lower l ;;; notify fnBody lower b a (S i)));
      [|exact Hw].
    apply steady_bind; [apply steady_callListener | intros _; apply IH].
  - split; [exact Hw | apply ext_refl].
Qed.

(** The reentrancy flag is raised for the reducer call and for nothing
    else; the listeners are notified after it is lowered. *)
Lemma dispatch_unfold action w :
  isPlainObject action = true ->
  is_undefined (getField action "type") = false ->
  isDispatching w = false ->
  dispatch fnBody lower gas action w =
  match callFunction fnBody lower (currentReducer w) [currentState w; action]
          (log (EvReducer (currentState w) action) (set_isDispatching true w)) with
  | Ok next w1 =>
      match notify fnBody lower gas (nextListeners w1) 0
              (set_currentListeners (nextListeners w1)
                 (set_isDispatching false (set_currentState next w1))) with
      | Ok _ w2 => Ok action w2
      | Throw e w2 => Throw e w2
      | OutOfFuel => OutOfFuel
      end
  | Throw e w1 => Throw e (set_isDispatching false w1)
  | OutOfFuel => OutOfFuel
  end.
Proof.
  intros Hp Ht Hidle. unfold dispatch. rewrite Hp, Ht, Hidle. simpl negb. cbv iota.
  cbv [bind finally modify reads ret]. simpl.
  destruct (callFunction _ _ _ _ _) as [v w1|e w1|]; reflexivity.
Qed.

Lemma steady_dispatch action : steady (dispatch fnBody lower gas action).
Proof.
  intros w Hw.
  destruct (isPlainObject action) eqn:Hp;
    [|unfold dispatch; rewrite Hp; split; [exact Hw | apply ext_refl]].
  destruct (is_undefined (getField action "type")) eqn:Ht;
    [unfold dispatch; rewrite Hp, Ht; split; [exact Hw | apply ext_refl]|].
  destruct (isDispatching w) eqn:Hidle;
    [unfold dispatch; rewrite Hp, Ht, Hidle; split; [exact Hw | apply ext_refl]|].
  rewrite dispatch_unfold by assumption.
  set (wd := log _ (set_isDispatching true w)).
  assert (Hrd : sameRegistry w wd) by (now repeat split).
  pose proof (steady_callFunction (currentReducer w) [currentState w; action] wd
                (sameRegistry_wf _ _ Hrd Hw)) as Hred.
  destruct (callFunction _ _ _ _ wd) as [v w1|e w1|]; [| |exact I].
  - destruct Hred as [Hw1 [F1 L1 A1 D1 V1]].
    set (w3 := set_currentListeners _ _).
    assert (Hw3 : wf w3).
    { destruct Hw1 as [Wn Wc Wl]. split; simpl; auto. }
    assert (He3 : ext w w3).
    { split; simpl; [now rewrite Hidle | exact L1 | | exact D1 | exact V1].
      intros a Ha Hf. destruct (A1 a Ha Hf) as [E1 Hf1].
      split; [exact E1 | unfold frozen; simpl; auto]. }
    pose proof (steady_notify gas (nextListeners w1) 0 w3 Hw3) as Hn.
    destruct (notify _ _ _ _ _ w3) as [r w4|e w4|]; [| |exact I];
      (split; [tauto | eapply ext_trans; [exact He3 | tauto]]).
  - destruct Hred as [Hw1 [F1 L1 A1 D1 V1]]. split.
    + destruct Hw1 as [Wn Wc Wl]. split; simpl; auto.
    + split; simpl; [now rewrite Hidle | exact L1 | | exact D1 | exact V1].
      intros a Ha Hf. destruct (A1 a Ha Hf) as [E1 Hf1]. split; [exact E1 | exact Hf1].
Qed.

Lemma steady_replaceReducer r :
  steady (replaceReducer fnBody replaceSuffix lower gas r).
Proof.
  unfold replaceReducer. destruct (negb (is_function r)); [apply steady_throw|].
  apply steady_bind; [apply steady_modify; intros w; now repeat split|]; intros _.
  apply steady_bind; [apply steady_dispatch|]; intros _. apply steady_ret.
Qed.

Lemma steady_observableSubscribe observer :
  steady (observableSubscribe fnBody lower observer).
Proof.
  unfold observableSubscribe. destruct (negb (is_object observer)); [apply steady_throw|].
  apply steady_bind; [apply steady_reads|]; intros c.
  apply steady_bind; [apply steady_modify; intros w; now repeat split|]; intros _.
  apply steady_bind; [apply steady_observeState|]; intros _.
  apply steady_subscribeFn.
Qed.

Lemma steady_exec p : steady (exec fnBody replaceSuffix lower gas p).
Proof.
  induction p as [v|e|k IH|l k IH|h k IH|a k IH|r k IH|o k IH|body IHb handler IHh k IHk];
    simpl.
  - apply steady_ret.
  - apply steady_throw.
  - apply steady_bind; [apply steady_getState | exact IH].
  - apply steady_bind; [apply steady_subscribe | exact IH].
  - apply steady_bind; [apply steady_unsubscribe | intros _; exact IH].
  - apply steady_bind; [apply steady_dispatch | exact IH].
  - apply steady_bind; [apply steady_replaceReducer | intros _; exact IH].
  - apply steady_bind; [apply steady_observableSubscribe | exact IH].
  - apply steady_bind; [apply steady_catch; [exact IHb | exact IHh] | exact IHk].
Qed.
End Level.

(** Whatever user code does, at any depth: the registry stays well formed,
    frozen arrays keep their contents, and the reentrancy flag ends as it
    started. *)
Lemma steady_run n p : steady (run fnBody replaceSuffix n p).
Proof.
  revert p. induction n as [|n IH]; intros p; [intros w _; exact I|].
  simpl. apply steady_exec. exact IH.
Qed.

End Steady.

(** ** The snapshot is what [dispatch] iterates over *)

Section Snapshot.
Variable fnBody : nat -> list value -> prog.
Variable replaceSuffix : string.

Section Level.
Variable lower : prog -> M value.
Variable gas : nat.
Hypothesis lower_steady : forall p, steady (lower p).

Lemma notify_snapshot budget a i w :
  wf w -> a < length (arrays w) -> frozen a w ->
  notify fnBody lower budget a i w
  = notifySnapshot fnBody lower budget (drop i (arrayAt a w)) w.
Proof.
  revert i w. induction budget as [|b IH]; intros i w Hw Ha Hf; [reflexivity|].
  simpl. destruct (arrayAt a w !! i) as [l|] eqn:E.
  - rewrite (drop_S _ _ _ E).
    assert (Hr : sameRegistry w (log (EvListener l) w)) by (now repeat split).
    pose proof (steady_callListener fnBody lower lower_steady l _
                  (sameRegistry_wf _ _ Hr Hw)) as Hc.
    unfold bind. destruct (callListener fnBody lower l _) as [v w1|e w1|]; try reflexivity.
    destruct Hc as [Hw1 [F1 L1 A1 D1 V1]]. simpl in L1.
    destruct (A1 a Ha Hf) as [E1 Hf1]. simpl in E1.
    rewrite IH by (auto; lia). unfold arrayAt. now rewrite E1.
  - apply lookup_ge_None in E. now rewrite drop_ge by lia.
Qed.

Lemma dispatch_snapshot action w :
  wf w ->
  dispatch fnBody lower gas action w = dispatchSnapshot fnBody lower gas action w.
Proof.
  intros Hw. unfold dispatch, dispatchSnapshot.
  destruct (negb (isPlainObject action)); [reflexivity|].
  destruct (is_undefined (getField action "type")); [reflexivity|].
  destruct (isDispatching w) eqn:Hidle; [reflexivity|].
  cbv [bind finally modify reads ret]. simpl.
  set (wd := log _ (set_isDispatching true w)).
  assert (Hrd : sameRegistry w wd) by (now repeat split).
  pose proof (steady_callFunction fnBody lower lower_steady (currentReducer w)
                [currentState w; action] wd (sameRegistry_wf _ _ Hrd Hw)) as Hred.
  destruct (callFunction _ _ _ _ wd) as [v w1|e w1|]; try reflexivity.
  destruct Hred as [[Wn Wc Wl] _].
  rewrite notify_snapshot.
  - reflexivity.
  - split; simpl; auto.
  - simpl. exact Wn.
  - unfold frozen. simpl. auto.
Qed.
End Level.

End Snapshot.

(** ** Pure reducers and quiet listeners *)

Lemma logs_nil w : logs [] w = w.
Proof. destruct w. unfold logs. simpl. now rewrite app_nil_r. Qed.

Lemma logs_log es e w : logs es (log e w) = logs (e :: es) w.
Proof. unfold logs, log. simpl. f_equal. now rewrite <- app_assoc. Qed.

Lemma logs_logs es1 es2 w : logs es2 (logs es1 w) = logs (es1 ++ es2) w.
Proof. unfold logs. simpl. f_equal. now rewrite <- app_assoc. Qed.

Lemma sameRegistry_logs es w : sameRegistry w (logs es w).
Proof. now repeat split. Qed.

Lemma foldStates_last T s actions :
  last (s :: foldStates T s actions) = Some (fold_left T actions s).
Proof.
  revert s. induction actions as [|a rest IH]; intros s; [reflexivity|].
  simpl foldStates. simpl fold_left. rewrite last_cons_cons. apply IH.
Qed.

Lemma foldStates_lookup T s actions i :
  i < length actions ->
  foldStates T s actions !! i = Some (fold_left T (take (S i) actions) s).
Proof.
  revert s i. induction actions as [|a rest IH]; intros s i Hi; simpl in Hi; [lia|].
  destruct i as [|i]; [reflexivity|].
  simpl. apply IH. lia.
Qed.

Section Quiet.
Variable fnBody : nat -> list value -> prog.
Variables initSuffix replaceSuffix : string.

Lemma exec_quiet lower gas p w :
  quiet p -> isDispatching w = false ->
  exists v, exec fnBody replaceSuffix lower gas p w = Ok v w.
Proof.
  intros Hq Hidle. induction Hq as [v|k Hk IH]; simpl.
  - now exists v.
  - unfold bind, getState. rewrite Hidle. apply IH.
Qed.

Lemma callListener_quiet m l w :
  quietListener fnBody l -> isDispatching w = false ->
  exists v, callListener fnBody (run fnBody replaceSuffix (S m)) l w = Ok v w.
Proof.
  destruct l as [f|c]; simpl; [|tauto]. intros Hq Hidle. now apply exec_quiet.
Qed.

Lemma notifySnapshot_cons lower b l rest w :
  notifySnapshot fnBody lower (S b) (l :: rest) w
  = (callListener fnBody lower l ;;; notifySnapshot fnBody lower b rest)
      (log (EvListener l) w).
Proof. reflexivity. Qed.

(** A run of quiet listeners at the head of the snapshot only leaves its
    records. *)
Lemma notifySnapshot_quiet_prefix m qs rest b w :
  Forall (quietListener fnBody) qs -> isDispatching w = false ->
  notifySnapshot fnBody (run fnBody replaceSuffix (S m)) (length qs + b) (qs ++ rest) w
  = notifySnapshot fnBody (run fnBody replaceSuffix (S m)) b rest
      (logs (map EvListener qs) w).
Proof.
  intros Hq. revert w. induction Hq as [|l qs Hl Hqs IH]; intros w Hidle.
  - simpl. now rewrite logs_nil.
  - change (length (l :: qs) + b) with (S (length qs + b)).
    change ((l :: qs) ++ rest) with (l :: (qs ++ rest)).
    rewrite notifySnapshot_cons.
    destruct (callListener_quiet m l (log (EvListener l) w) Hl Hidle) as [v Hv].
    unfold bind. rewrite Hv. rewrite IH by exact Hidle. now rewrite logs_log.
Qed.

Lemma notifySnapshot_quiet m qs budget w :
  Forall (quietListener fnBody) qs -> isDispatching w = false ->
  length qs < budget ->
  notifySnapshot fnBody (run fnBody replaceSuffix (S m)) budget qs w
  = Ok tt (logs (map EvListener qs) w).
Proof.
  intros Hq Hidle Hb.
  pose proof (notifySnapshot_quiet_prefix m qs [] (S (budget - length qs - 1)) w Hq Hidle) as H.
  rewrite app_nil_r in H.
  replace (length qs + S (budget - length qs - 1)) with budget in H by lia.
  rewrite H. reflexivity.
Qed.

(** One dispatch through a reducer that returns [v]: the state is replaced,
    then the snapshot is notified. *)
Lemma dispatch_reduces m gas r v a w :
  wf w -> isDispatching w = false -> isValidAction a = true ->
  currentReducer w = VFun r -> fnBody r [currentState w; a] = Ret v ->
  dispatch fnBody (run fnBody replaceSuffix (S m)) gas a w
  = match notifySnapshot fnBody (run fnBody replaceSuffix (S m)) gas (nextArray w)
            (set_currentListeners (nextListeners w)
               (set_currentState v (log (EvReducer (currentState w) a) w))) with
    | Ok _ w2 => Ok a w2
    | Throw e w2 => Throw e w2
    | OutOfFuel => OutOfFuel
    end.
Proof.
  intros Hw Hidle Hv Hr Hbody. unfold isValidAction in Hv.
  apply andb_true_iff in Hv as [Hp Ht]. apply negb_true_iff in Ht.
  rewrite dispatch_unfold by assumption.
  rewrite Hr. simpl callFunction. rewrite Hbody. simpl exec. unfold ret.
  assert (Hw' : wf (set_currentListeners (nextListeners w)
                      (set_currentState v (log (EvReducer (currentState w) a) w)))).
  { destruct Hw as [Wn Wc Wl]. split; simpl; auto. }
  assert (Heq : set_currentListeners
                  (nextListeners (log (EvReducer (currentState w) a) (set_isDispatching true w)))
                  (set_isDispatching false
                     (set_currentState v
                        (log (EvReducer (currentState w) a) (set_isDispatching true w))))
                = set_currentListeners (nextListeners w)
                    (set_currentState v (log (EvReducer (currentState w) a) w))).
  { destruct w. simpl in *. subst. reflexivity. }
  simpl nextListeners at 1. rewrite Heq.
  rewrite notify_snapshot.
  - reflexivity.
  - apply steady_run.
  - exact Hw'.
  - simpl. apply Hw.
  - unfold frozen. simpl. auto.
Qed.

Lemma dispatch_quiet m gas r v a w :
  wf w -> isDispatching w = false -> isValidAction a = true ->
  currentReducer w = VFun r -> fnBody r [currentState w; a] = Ret v ->
  Forall (quietListener fnBody) (nextArray w) -> length (nextArray w) < gas ->
  dispatch fnBody (run fnBody replaceSuffix (S m)) gas a w = Ok a (afterDispatch v a w).
Proof.
  intros Hw Hidle Hv Hr Hbody Hq Hgas.
  rewrite (dispatch_reduces m gas r v) by assumption.
  rewrite notifySnapshot_quiet; auto.
Qed.

Lemma afterDispatch_wf v a w : wf w -> wf (afterDispatch v a w).
Proof. intros [Wn Wc Wl]. split; simpl; auto. Qed.

End Quiet.

(** ** Sequences of subscriptions and dispatches *)

Section Sessions.
Variable fnBody : nat -> list value -> prog.
Variables initSuffix replaceSuffix : string.
Variable enhancerBody : nat -> creator -> creator.

Lemma subscribe_all fs w :
  wf w -> isDispatching w = false ->
  exists w',
    mapM subscribe (map VFun fs) w = Ok (seq (length (subscriptions w)) (length fs)) w'
    /\ nextArray w' = nextArray w ++ map UserFn fs
    /\ subscriptions w' = subscriptions w ++ map (fun f => (UserFn f, true)) fs
    /\ wf w' /\ isDispatching w' = false
    /\ currentReducer w' = currentReducer w /\ currentState w' = currentState w
    /\ trace w' = trace w.
Proof.
  revert w. induction fs as [|f fs IH]; intros w Hw Hidle.
  - exists w. simpl. rewrite !app_nil_r. repeat split; auto; apply Hw.
  - destruct (subscribeFn_idle (UserFn f) w Hw Hidle) as (w1 & Hrun & Hs).
    destruct Hs. destruct sub_ext0 as [Hflag _ _ _ _].
    destruct (IH w1 sub_wf0 ltac:(congruence))
      as (w' & Hrest & Hn & Hsubs & Hw' & Hi' & Hr & Hst & Htr).
    exists w'. simpl. unfold bind. rewrite Hrun, Hrest. unfold ret.
    rewrite sub_subs0, length_app, Nat.add_1_r in *.
    split; [reflexivity|].
    split; [rewrite Hn, sub_next0, <- app_assoc; reflexivity|].
    split; [rewrite Hsubs, <- app_assoc; reflexivity|].
    repeat (split; [first [assumption | congruence]|]). congruence.
Qed.

Lemma mapM_cons {A B} (f : A -> M B) x rest w y w1 ys w2 :
  f x w = Ok y w1 -> mapM f rest w1 = Ok ys w2 ->
  mapM f (x :: rest) w = Ok (y :: ys) w2.
Proof. intros H1 H2. simpl. unfold bind. now rewrite H1, H2. Qed.

Lemma dispatchAndRead_ok store a w r w1 s :
  store_dispatch store a w = Ok r w1 -> store_getState store w1 = Ok s w1 ->
  dispatchAndRead store a w = Ok (r, s) w1.
Proof. intros H1 H2. unfold dispatchAndRead, bind. now rewrite H1, H2. Qed.

(** Through a pure reducer and quiet listeners, each dispatch returns its
    action and moves the state one step along the fold. *)
Lemma dispatch_sequence T r m gas actions w :
  pureReducer fnBody r T ->
  wf w -> isDispatching w = false -> currentReducer w = VFun r ->
  Forall (quietListener fnBody) (nextArray w) -> length (nextArray w) < gas ->
  Forall (fun a => isValidAction a = true) actions ->
  exists w',
    mapM (dispatchAndRead
            {| store_dispatch := dispatch fnBody (run fnBody replaceSuffix (S m)) gas;
               store_subscribe := subscribe;
               store_getState := getState;
               store_replaceReducer :=
                 replaceReducer fnBody replaceSuffix (run fnBody replaceSuffix (S m)) gas;
               store_observable :=
                 observableSubscribe fnBody (run fnBody replaceSuffix (S m)) |})
         actions w
    = Ok (zip actions (foldStates T (currentState w) actions)) w'
    /\ currentState w' = fold_left T actions (currentState w)
    /\ wf w' /\ isDispatching w' = false /\ currentReducer w' = VFun r
    /\ nextArray w' = nextArray w.
Proof.
  intros HT Hw Hidle Hr Hq Hgas Hv. revert w Hw Hidle Hr Hq Hgas.
  induction Hv as [|a actions Ha Hactions IH]; intros w Hw Hidle Hr Hq Hgas.
  - exists w. simpl. repeat split; auto; apply Hw.
  - pose proof (dispatch_quiet fnBody replaceSuffix m gas r (T (currentState w) a) a w
                  Hw Hidle Ha Hr (HT _ _) Hq Hgas) as Hd.
    set (w1 := afterDispatch (T (currentState w) a) a w) in *.
    assert (Hn1 : nextArray w1 = nextArray w) by reflexivity.
    destruct (IH w1) as (w' & Hrest & Hst & Hw' & Hi' & Hr' & Hn').
    + now apply afterDispatch_wf.
    + exact Hidle.
    + exact Hr.
    + now rewrite Hn1.
    + now rewrite Hn1.
    + exists w'. split; [|split; [exact Hst|auto]].
      simpl foldStates. simpl zip.
      eapply mapM_cons; [|exact Hrest].
      apply dispatchAndRead_ok; [exact Hd|].
      unfold store_getState, getState.
      change (isDispatching w1) with (isDispatching w). now rewrite Hidle.
Qed.

Lemma initEngine_wf reducer p w : wf (initEngine reducer p w).
Proof. split; simpl; auto. Qed.

(** Construction without enhancer: the engine is initialised and the
    reserved initialise action is dispatched through the reducer. *)
Lemma createStore_fresh T r m p w0 :
  pureReducer fnBody r T -> is_function p = false ->
  createStore fnBody initSuffix replaceSuffix enhancerBody (S m) (VFun r) p VUndefined w0
  = Ok (engineStore fnBody replaceSuffix (S m))
       (afterDispatch (T p (actionOfType (INIT initSuffix))) (actionOfType (INIT initSuffix))
          (initEngine (VFun r) p w0)).
Proof.
  intros HT Hp.
  cbn [createStore]. rewrite Hp. cbn [is_undefined andb negb is_function].
  unfold bind at 1. unfold modify at 1. unfold bind at 1.
  rewrite (dispatch_quiet fnBody replaceSuffix m (S m) r
             (T p (actionOfType (INIT initSuffix)))).
  - reflexivity.
  - apply initEngine_wf.
  - reflexivity.
  - reflexivity.
  - reflexivity.
  - apply HT.
  - constructor.
  - simpl. lia.
Qed.

(** Every store that [createStore] itself builds starts well formed and
    idle, and every operation of its store object keeps it so. *)
Lemma createStore_establishes_wf n reducer p w :
  is_function p = false ->
  match createStore fnBody initSuffix replaceSuffix enhancerBody n reducer p VUndefined w with
  | Ok store w' => store = engineStore fnBody replaceSuffix n /\ wf w' /\ isDispatching w' = false
  | Throw _ _ | OutOfFuel => True
  end.
Proof.
  intros Hp. destruct n as [|n].
  - cbn [createStore]. rewrite Hp. cbn [is_undefined andb negb].
    destruct (is_function reducer); [|exact I].
    cbn [negb]. unfold bind at 1. unfold modify at 1. unfold bind at 1.
    pose proof (steady_dispatch fnBody (run fnBody replaceSuffix 0) 0
                  (steady_run fnBody replaceSuffix 0) (actionOfType (INIT initSuffix))
                  (initEngine reducer p w) (initEngine_wf _ _ _)) as Hs.
    destruct (dispatch _ _ _ _ _) as [v w'|e w'|]; try exact I.
    destruct Hs as [Hw' [F _ _ _ _]]. unfold ret. repeat split; try apply Hw'. exact F.
  - cbn [createStore]. rewrite Hp. cbn [is_undefined andb negb].
    destruct (is_function reducer); [|exact I].
    cbn [negb]. unfold bind at 1. unfold modify at 1. unfold bind at 1.
    pose proof (steady_dispatch fnBody (run fnBody replaceSuffix (S n)) (S n)
                  (steady_run fnBody replaceSuffix (S n)) (actionOfType (INIT initSuffix))
                  (initEngine reducer p w) (initEngine_wf _ _ _)) as Hs.
    destruct (dispatch _ _ _ _ _) as [v w'|e w'|]; try exact I.
    destruct Hs as [Hw' [F _ _ _ _]]. unfold ret. repeat split; try apply Hw'. exact F.
Qed.

Lemma engineStore_steady n :
  (forall a, steady (store_dispatch (engineStore fnBody replaceSuffix n) a))
  /\ (forall l, steady (store_subscribe (engineStore fnBody replaceSuffix n) l))
  /\ steady (store_getState (engineStore fnBody replaceSuffix n))
  /\ (forall r, steady (store_replaceReducer (engineStore fnBody replaceSuffix n) r))
  /\ (forall o, steady (store_observable (engineStore fnBody replaceSuffix n) o))
  /\ (forall h, steady (unsubscribe h)).
Proof.
  pose proof (steady_run fnBody replaceSuffix n) as Hrun.
  split; [intros a; now apply steady_dispatch|].
  split; [intros l; apply steady_subscribe|].
  split; [apply steady_getState|].
  split; [intros r; now apply steady_replaceReducer|].
  split; [intros o; now apply steady_observableSubscribe|].
  intros h. apply steady_unsubscribe.
Qed.

End Sessions.

(** ** More fuel never changes a result *)

Lemma refines_refl {A} (r : outcome A) : refines r r.
Proof. now right. Qed.

Lemma mrefines_refl {A} (m : M A) : mrefines m m.
Proof. intros w. apply refines_refl. Qed.

Lemma mrefines_bind {A B} (m m' : M A) (f f' : A -> M B) :
  mrefines m m' -> (forall a, mrefines (f a) (f' a)) ->
  mrefines (bind m f) (bind m' f').
Proof.
  intros Hm Hf w. unfold bind. destruct (Hm w) as [->| ->]; [now left|].
  destruct (m' w) as [a w1|e w1|]; [apply Hf | now right | now right].
Qed.

Lemma mrefines_catch {A} (m m' : M A) (h h' : error -> M A) :
  mrefines m m' -> (forall e, mrefines (h e) (h' e)) ->
  mrefines (catch m h) (catch m' h').
Proof.
  intros Hm Hh w. unfold catch. destruct (Hm w) as [->| ->]; [now left|].
  destruct (m' w) as [a w1|e w1|]; [now right | apply Hh | now right].
Qed.

Lemma mrefines_finally {A} (m m' : M A) cleanup :
  mrefines m m' -> mrefines (finally m cleanup) (finally m' cleanup).
Proof.
  intros Hm w. unfold finally. destruct (Hm w) as [->| ->]; [now left | now right].
Qed.

Section FuelMonotone.
Variable fnBody : nat -> list value -> prog.
Variable replaceSuffix : string.

Section Level.
Variables lower lower' : prog -> M value.
Variables gas gas' : nat.
Hypothesis lower_le : forall p, mrefines (lower p) (lower' p).
Hypothesis gas_le : gas <= gas'.

Lemma mrefines_callFunction f args :
  mrefines (callFunction fnBody lower f args) (callFunction fnBody lower' f args).
Proof. destruct f; simpl; try apply mrefines_refl. apply lower_le. Qed.

Lemma mrefines_observeState observer :
  mrefines (observeState fnBody lower observer) (observeState fnBody lower' observer).
Proof.
  unfold observeState.
  destruct observer; try apply mrefines_refl;
    (destruct (truthy _); [|apply mrefines_refl];
     apply mrefines_bind; [apply mrefines_refl|]; intros ?;
     apply mrefines_bind; [apply mrefines_callFunction|]; intros _; apply mrefines_refl).
Qed.

Lemma mrefines_callListener l :
  mrefines (callListener fnBody lower l) (callListener fnBody lower' l).
Proof.
  destruct l; simpl; [apply lower_le|]. intros w. apply mrefines_observeState.
Qed.

Lemma mrefines_notify budget budget' a i :
  budget <= budget' ->
  mrefines (notify fnBody lower budget a i) (notify fnBody lower' budget' a i).
Proof.
  revert budget' i. induction budget as [|b IH]; intros budget' i Hb w; [now left|].
  destruct budget' as [|b']; [lia|]. simpl.
  destruct (arrayAt a w !! i) as [l|]; [|now right].
  apply (mrefines_bind (callListener fnBody lower l) (callListener fnBody lower' l)
           (fun _ => notify fnBody lower b a (S i))
           (fun _ => notify fnBody lower' b' a (S i))).
  - apply mrefines_callListener.
  - intros _. apply IH. lia.
Qed.

Lemma mrefines_dispatch action :
  mrefines (dispatch fnBody lower gas action) (dispatch fnBody lower' gas' action).
Proof.
  intros w. unfold dispatch.
  destruct (negb (isPlainObject action)); [now right|].
  destruct (is_undefined (getField action "type")); [now right|].
  destruct (isDispatching w); [now right|].
  revert w. apply mrefines_bind.
  - apply mrefines_finally.
    apply mrefines_bind; [apply mrefines_refl|]; intros _.
    apply mrefines_bind; [apply mrefines_refl|]; intros reducer.
    apply mrefines_bind; [apply mrefines_refl|]; intros state.
    apply mrefines_bind; [apply mrefines_refl|]; intros _.
    apply mrefines_bind; [apply mrefines_callFunction|]; intros next.
    apply mrefines_refl.
  - intros _.
    apply mrefines_bind; [apply mrefines_refl|]; intros listeners.
    apply mrefines_bind; [apply mrefines_refl|]; intros _.
    apply mrefines_bind; [now apply mrefines_notify|]; intros _.
    apply mrefines_refl.
Qed.

Lemma mrefines_replaceReducer r :
  mrefines (replaceReducer fnBody replaceSuffix lower gas r)
           (replaceReducer fnBody replaceSuffix lower' gas' r).
Proof.
  unfold replaceReducer. destruct (negb (is_function r)); [apply mrefines_refl|].
  apply mrefines_bind; [apply mrefines_refl|]; intros _.
  apply mrefines_bind; [apply mrefines_dispatch|]; intros _. apply mrefines_refl.
Qed.

Lemma mrefines_observableSubscribe observer :
  mrefines (observableSubscribe fnBody lower observer)
           (observableSubscribe fnBody lower' observer).
Proof.
  unfold observableSubscribe. destruct (negb (is_object observer)); [apply mrefines_refl|].
  apply mrefines_bind; [apply mrefines_refl|]; intros c.
  apply mrefines_bind; [apply mrefines_refl|]; intros _.
  apply mrefines_bind; [apply mrefines_observeState|]; intros _.
  apply mrefines_refl.
Qed.

Lemma mrefines_exec p :
  mrefines (exec fnBody replaceSuffix lower gas p) (exec fnBody replaceSuffix lower' gas' p).
Proof.
  induction p as [v|e|k IH|l k IH|h k IH|a k IH|r k IH|o k IH|body IHb handler IHh k IHk];
    simpl.
  - apply mrefines_refl.
  - apply mrefines_refl.
  - apply mrefines_bind; [apply mrefines_refl | exact IH].
  - apply mrefines_bind; [apply mrefines_refl | exact IH].
  - apply mrefines_bind; [apply mrefines_refl | intros _; exact IH].
  - apply mrefines_bind; [apply mrefines_dispatch | exact IH].
  - apply mrefines_bind; [apply mrefines_replaceReducer | intros _; exact IH].
  - apply mrefines_bind; [apply mrefines_observableSubscribe | exact IH].
  - apply mrefines_bind; [apply mrefines_catch; [exact IHb | exact IHh] | exact IHk].
Qed.
End Level.

Lemma mrefines_run_S n p :
  mrefines (run fnBody replaceSuffix n p) (run fnBody replaceSuffix (S n) p).
Proof.
  revert p. induction n as [|n IH]; intros p; [intros w; now left|].
  cbn [run]. apply mrefines_exec; [exact IH | lia].
Qed.

(** A result obtained with some fuel is the result with any more fuel. *)
Lemma run_fuel_monotone n k p w r :
  run fnBody replaceSuffix n p w = r -> r <> OutOfFuel ->
  run fnBody replaceSuffix (n + k) p w = r.
Proof.
  intros Hr Hne. induction k as [|k IH].
  - now rewrite Nat.add_0_r.
  - rewrite Nat.add_succ_r.
    destruct (mrefines_run_S (n + k) p w) as [Ho|He]; congruence.
Qed.

Lemma dispatch_fuel_monotone n k gas j a w r :
  dispatch fnBody (run fnBody replaceSuffix n) gas a w = r -> r <> OutOfFuel ->
  dispatch fnBody (run fnBody replaceSuffix (n + k)) (gas + j) a w = r.
Proof.
  intros Hr Hne.
  destruct (mrefines_dispatch (run fnBody replaceSuffix n) (run fnBody replaceSuffix (n + k))
              gas (gas + j)) with (action := a) (w := w) as [Ho|He]; try congruence.
  - intros p w'. destruct (run fnBody replaceSuffix n p w') eqn:E; [right|right|now left];
      symmetry; apply run_fuel_monotone; congruence.
  - lia.
Qed.

End FuelMonotone.

(** ** Lists of listeners *)

Lemma afterDispatch_trace v a w :
  trace (afterDispatch v a w)
  = trace w ++ EvReducer (currentState w) a :: map EvListener (nextArray w).
Proof. unfold afterDispatch. simpl. now rewrite <- app_assoc. Qed.

Lemma Forall_removeFirst (P : fref -> Prop) x l : Forall P l -> Forall P (removeFirst x l).
Proof.
  induction 1 as [|y l Hy Hl IH]; simpl; [constructor|].
  destruct (decide (x = y)); [assumption | now constructor].
Qed.

Lemma length_removeFirst x l : length (removeFirst x l) <= length l.
Proof.
  induction l as [|y l IH]; simpl; [lia|].
  destruct (decide (x = y)); simpl; lia.
Qed.

Lemma occurrences_replicate x n : occurrences x (replicate n x) = n.
Proof.
  induction n as [|n IH]; [reflexivity|].
  simpl replicate. rewrite occurrences_cons, decide_True by reflexivity. now rewrite IH.
Qed.

Lemma map_replicate {A B} (g : A -> B) n x : map g (replicate n x) = replicate n (g x).
Proof. induction n as [|n IH]; simpl; [reflexivity | now rewrite IH]. Qed.

(** ** The reentrancy flag around the reducer *)

Section Reentrancy.
Variable fnBody : nat -> list value -> prog.
Variable replaceSuffix : string.

Lemma dispatch_dispatching lower gas a w :
  isValidAction a = true -> isDispatching w = true ->
  dispatch fnBody lower gas a w = Throw ErrReducersMayNotDispatch w.
Proof.
  intros Hv Hd. unfold isValidAction in Hv.
  apply andb_true_iff in Hv as [Hp Ht]. apply negb_true_iff in Ht.
  unfold dispatch. now rewrite Hp, Ht, Hd.
Qed.

(** [try { ... } finally { isDispatching = false }]: what the reducer throws
    comes out of [dispatch] with the flag lowered. *)
Lemma dispatch_reducer_throws lower gas a w e w1 :
  isValidAction a = true -> isDispatching w = false ->
  callFunction fnBody lower (currentReducer w) [currentState w; a]
    (log (EvReducer (currentState w) a) (set_isDispatching true w)) = Throw e w1 ->
  dispatch fnBody lower gas a w = Throw e (set_isDispatching false w1).
Proof.
  intros Hv Hidle Hred. unfold isValidAction in Hv.
  apply andb_true_iff in Hv as [Hp Ht]. apply negb_true_iff in Ht.
  rewrite dispatch_unfold by assumption. now rewrite Hred.
Qed.

(** Whatever happens inside, a dispatch entered while idle leaves the engine
    idle. *)
Lemma dispatch_ends_idle n gas a w :
  wf w -> isDispatching w = false ->
  match dispatch fnBody (run fnBody replaceSuffix n) gas a w with
  | Ok _ w' | Throw _ w' => isDispatching w' = false /\ wf w'
  | OutOfFuel => True
  end.
Proof.
  intros Hw Hidle.
  pose proof (steady_dispatch fnBody (run fnBody replaceSuffix n) gas
                (steady_run fnBody replaceSuffix n) a w Hw) as Hs.
  destruct (dispatch _ _ _ _ w) as [v w'|e w'|]; [| |exact I];
    destruct Hs as [Hw' [F _ _ _ _]]; (split; [congruence | exact Hw']).
Qed.

End Reentrancy.

(** ** The reentrancy flag during notification *)

Section ListenersStartIdle.
Variable fnBody : nat -> list value -> prog.
Variable lower : prog -> M value.
Hypothesis lower_steady : forall p, steady (lower p).

Lemma callListener_assertIdle l w :
  isDispatching w = false ->
  callListener fnBody (assertIdle lower) l w = callListener fnBody lower l w.
Proof.
  intros Hidle. destruct l as [f|c]; simpl.
  - unfold assertIdle. now rewrite Hidle.
  - unfold observeState.
    destruct (default VUndefined (observers w !! c)); try reflexivity;
      (destruct (truthy _); [|reflexivity];
       unfold bind, getState; rewrite Hidle;
       destruct (getField _ _); try reflexivity;
       simpl; unfold assertIdle; now rewrite Hidle).
Qed.

(** Refusing to start a listener on a busy engine changes nothing: no
    listener is ever started on one. *)
Lemma notify_assertIdle budget a i w :
  wf w -> isDispatching w = false ->
  notify fnBody lower budget a i w = notify fnBody (assertIdle lower) budget a i w.
Proof.
  revert i w. induction budget as [|b IH]; intros i w Hw Hidle; [reflexivity|].
  simpl. destruct (arrayAt a w !! i) as [l|]; [|reflexivity].
  unfold bind. rewrite callListener_assertIdle by exact Hidle.
  assert (Hr : sameRegistry w (log (EvListener l) w)) by (now repeat split).
  pose proof (steady_callListener fnBody lower lower_steady l _
                (sameRegistry_wf _ _ Hr Hw)) as Hc.
  destruct (callListener fnBody lower l _) as [v w1|e w1|]; try reflexivity.
  destruct Hc as [Hw1 [F _ _ _ _]]. apply IH; [exact Hw1|].
  rewrite F. exact Hidle.
Qed.

End ListenersStartIdle.

(** ** A listener that unsubscribes itself *)

Lemma removeFirst_middle x pre post :
  x ∉ pre -> removeFirst x (pre ++ x :: post) = pre ++ post.
Proof.
  induction pre as [|y pre IH]; intros Hnin; simpl.
  - now rewrite decide_True by reflexivity.
  - rewrite decide_False.
    + f_equal. apply IH. intros Hin. apply Hnin. now right.
    + intros ->. apply Hnin. left.
Qed.

Section SnapshotScenario.
Variable fnBody : nat -> list value -> prog.
Variable replaceSuffix : string.

(** A listener that unsubscribes itself and subscribes another one, called
    in the middle of a notification: the rest of the snapshot is still
    notified, and the live array has lost the one and gained the other. *)
Lemma notifySnapshot_self_unsubscribing m f2 f4 h2 pre post budget w :
  wf w -> isDispatching w = false ->
  nextArray w = pre ++ UserFn f2 :: post -> UserFn f2 ∉ pre ->
  subscriptions w !! h2 = Some (UserFn f2, true) ->
  fnBody f2 [] = Unsubscribe h2 (Subscribe (VFun f4) (fun _ => Ret VUndefined)) ->
  Forall (quietListener fnBody) pre -> Forall (quietListener fnBody) post ->
  length pre + length post + 1 < budget ->
  exists w1,
    notifySnapshot fnBody (run fnBody replaceSuffix (S m)) budget
      (pre ++ UserFn f2 :: post) w = Ok tt w1
    /\ trace w1 = trace w ++ map EvListener (pre ++ UserFn f2 :: post)
    /\ nextArray w1 = pre ++ post ++ [UserFn f4]
    /\ wf w1 /\ isDispatching w1 = false
    /\ currentReducer w1 = currentReducer w /\ currentState w1 = currentState w.
Proof.
  intros Hw Hidle Hnext Hnin Hh Hbody Hpre Hpost Hb.
  replace budget with (length pre + S (budget - length pre - 1)) by lia.
  rewrite notifySnapshot_quiet_prefix by assumption.
  rewrite notifySnapshot_cons.
  set (wb := log (EvListener (UserFn f2)) (logs (map EvListener pre) w)).
  assert (Hrb : sameRegistry w wb) by (now repeat split).
  assert (Hwb : wf wb) by (eapply sameRegistry_wf; eauto).
  destruct (unsubscribe_live h2 (UserFn f2) wb Hwb Hidle Hh) as (wc & Hun & Hu).
  destruct Hu. destruct unsub_ext0 as [Hflagc _ _ _ _].
  change (nextArray wb) with (nextArray w) in unsub_next0.
  rewrite Hnext, removeFirst_middle in unsub_next0 by assumption.
  destruct (subscribeFn_idle (UserFn f4) wc unsub_wf0 ltac:(rewrite Hflagc; exact Hidle))
    as (wd & Hsub & Hs).
  destruct Hs. destruct sub_ext0 as [Hflagd _ _ _ _].
  assert (Hcall : callListener fnBody (run fnBody replaceSuffix (S m)) (UserFn f2) wb
                  = Ok VUndefined wd).
  { cbn [callListener run]. rewrite Hbody. cbn [exec subscribe].
    unfold bind. rewrite Hun, Hsub. reflexivity. }
  unfold bind. rewrite Hcall.
  rewrite notifySnapshot_quiet;
    [|assumption | rewrite Hflagd, Hflagc; exact Hidle | lia].
  eexists. split; [reflexivity|].
  split.
  { cbn [trace logs]. rewrite sub_trace0, unsub_trace0.
    unfold wb. cbn [trace logs log].
    rewrite map_app. simpl. rewrite <- !app_assoc. reflexivity. }
  split.
  { change (nextArray (logs (map EvListener post) wd)) with (nextArray wd).
    rewrite sub_next0, unsub_next0. now rewrite <- app_assoc. }
  split; [eapply sameRegistry_wf; [apply sameRegistry_logs | exact sub_wf0]|].
  split; [cbn [isDispatching logs]; rewrite Hflagd, Hflagc; exact Hidle|].
  split; cbn [currentReducer currentState logs].
  - now rewrite sub_reducer0, unsub_reducer0.
  - now rewrite sub_state0, unsub_state0.
Qed.

End SnapshotScenario.

Lemma occurrences_liveListeners l subs :
  occurrences l (liveListeners subs) = liveCount l subs.
Proof.
  induction subs as [|[l' [|]] subs IH]; [reflexivity| |]; simpl liveListeners.
  - rewrite occurrences_cons, liveCount_cons, IH.
    destruct (decide (l' = l)) as [->|Hne].
    + now rewrite decide_True by reflexivity.
    + now rewrite decide_False by congruence.
  - rewrite liveCount_cons, IH. now rewrite decide_False by congruence.
Qed.

(** A sufficient check of well-formedness for a concrete world. *)
Lemma wf_from_liveListeners w :
  nextListeners w < length (arrays w) -> currentListeners w < length (arrays w) ->
  nextArray w = liveListeners (subscriptions w) -> wf w.
Proof.
  intros Hn Hc Hl. split; [exact Hn | exact Hc |].
  intros l. rewrite Hl. apply occurrences_liveListeners.
Qed.

(** ** The middleware pipeline *)

Section PipelineFacts.
Variable store : Store.
Variable ref : nat.

Lemma callMiddleware_returns api ms w :
  Forall (fun m => exists v, mw_setup m = MRet v) ms ->
  mapM (callMiddleware store api) ms w = Ok (map (factory store api) ms) w.
Proof.
  induction 1 as [|m ms [v Hv] _ IH]; [reflexivity|].
  simpl. unfold bind at 1. unfold callMiddleware at 1. rewrite Hv. simpl.
  unfold bind. now rewrite IH.
Qed.

Lemma callMiddleware_plain api ms w :
  Forall plainMiddleware ms ->
  mapM (callMiddleware store api) ms w = Ok (map (factory store api) ms) w.
Proof.
  intros H. apply callMiddleware_returns.
  eapply Forall_impl; [exact H|]. intros m [Hs _]. exact Hs.
Qed.

(** Composition applies the last factory first; each factory returns its
    handler stacked on what it was given. *)
Lemma compose_factories_plain api ms base w :
  Forall plainMiddleware ms ->
  compose (map (factory store api) ms) base w = Ok (ms ++ base) w.
Proof.
  induction 1 as [|m ms [_ [v Hv]] _ IH]; [reflexivity|].
  simpl. unfold bind. rewrite IH. unfold factory. rewrite Hv. reflexivity.
Qed.

Lemma composed_unfold n fn a :
  composed store ref n fn a = callDispatchFn store (apiInside store ref n) fn a.
Proof. destruct n; reflexivity. Qed.

Lemma mexec_noNext api next p w :
  noNext p -> mexec store api next p w = mexec store api None p w.
Proof.
  intros Hp. revert w.
  induction Hp as [v|e|k Hk IH|body handler k Hb IHb Hh IHh Hk IHk]; intros w; simpl.
  - reflexivity.
  - reflexivity.
  - unfold bind. destruct (store_getState store w); try reflexivity. apply IH.
  - unfold bind, catch. rewrite IHb.
    destruct (mexec store api None body w) as [v w1|e w1|]; try reflexivity.
    + apply IHk.
    + rewrite IHh. destruct (mexec store api None (handler e) w1); try reflexivity.
      apply IHk.
Qed.

Lemma apiDispatch_unassembled n a w :
  dispatchAt ref w = None ->
  apiDispatch store ref n a w = Throw ErrDispatchingWhileConstructing w.
Proof. intros H. unfold apiDispatch, apiDispatchWith. now rewrite H. Qed.

Lemma apiDispatch_assembled n fn a w :
  dispatchAt ref w = Some fn ->
  apiDispatch store ref n a w = composed store ref n fn a w.
Proof. intros H. unfold apiDispatch, apiDispatchWith. now rewrite H. Qed.

(** A middleware that dispatches while it is being given the capability
    object stops the assembly. *)
Lemma setup_dispatch_throws n pre m post a k w :
  Forall plainMiddleware pre -> mw_setup m = MApiDispatch a k ->
  dispatchAt ref w = None ->
  mapM (callMiddleware store (apiDispatch store ref n)) (pre ++ m :: post) w
  = Throw ErrDispatchingWhileConstructing w.
Proof.
  intros Hpre Hm Hvar. induction Hpre as [|p pre [[v Hv] _] _ IH].
  - simpl. unfold bind at 1. unfold callMiddleware at 1. rewrite Hm. simpl.
    unfold bind. now rewrite apiDispatch_unassembled.
  - simpl. unfold bind at 1. unfold callMiddleware at 1. rewrite Hv. simpl.
    unfold bind. now rewrite IH.
Qed.

(** So does one that dispatches while it is being given [next]. *)
Lemma wrap_dispatch_throws n pre m post a k w :
  Forall plainMiddleware post -> mw_wrap m = MApiDispatch a k ->
  dispatchAt ref w = None ->
  compose (map (factory store (apiDispatch store ref n)) (pre ++ m :: post)) [] w
  = Throw ErrDispatchingWhileConstructing w.
Proof.
  intros Hpost Hm Hvar. induction pre as [|p pre IH].
  - simpl. unfold bind. rewrite compose_factories_plain by assumption.
    unfold factory. rewrite Hm. simpl. unfold bind.
    now rewrite apiDispatch_unassembled.
  - simpl. unfold bind. now rewrite IH.
Qed.

End PipelineFacts.

(** Declaring the variable and assigning it, seen from the outside. *)
Lemma assign_new_dispatchVar (d : option (list Middleware)) (w : World) :
  set_dispatchVars (<[length (dispatchVars w) := d]> (dispatchVars (newDispatchVar None w)))
    (newDispatchVar None w)
  = newDispatchVar d w.
Proof.
  unfold newDispatchVar, set_dispatchVars. cbn [dispatchVars]. f_equal.
  rewrite <- (Nat.add_0_r (length (dispatchVars w))) at 1.
  now rewrite insert_app_r.
Qed.

Lemma dispatchAt_new (d : option (list Middleware)) (w : World) :
  dispatchAt (length (dispatchVars w)) (newDispatchVar d w) = d.
Proof.
  unfold dispatchAt, newDispatchVar. cbn [dispatchVars set_dispatchVars].
  now rewrite lookup_app_r, Nat.sub_diag by lia.
Qed.

Lemma applyMiddleware_unfold n ms (create : creator) args w store w0 :
  create args w = Ok store w0 ->
  applyMiddleware n ms create args w
  = (chain <- mapM (callMiddleware store
                      (apiDispatch store (length (dispatchVars w0)) n)) ms ;;
     dispatch <- compose chain [] ;;
     modify (fun w' => set_dispatchVars
                         (<[length (dispatchVars w0) := Some dispatch]> (dispatchVars w')) w') ;;;
     ret (withDispatch store (composed store (length (dispatchVars w0)) n dispatch)))
      (newDispatchVar None w0).
Proof.
  intros Hc. unfold applyMiddleware. unfold bind at 1. rewrite Hc. reflexivity.
Qed.

Lemma applyMiddleware_plain n ms (create : creator) args w store w0 :
  create args w = Ok store w0 -> Forall plainMiddleware ms ->
  applyMiddleware n ms create args w
  = Ok (withDispatch store (composed store (length (dispatchVars w0)) n ms))
       (newDispatchVar (Some ms) w0).
Proof.
  intros Hc Hms. rewrite (applyMiddleware_unfold n ms create args w store w0 Hc).
  unfold bind at 1. rewrite callMiddleware_plain by assumption.
  unfold bind at 1. rewrite compose_factories_plain by assumption.
  rewrite app_nil_r. cbv [bind modify ret].
  now rewrite assign_new_dispatchVar.
Qed.

(** *** What the pipeline preserves *)

Section PipelineSteady.
Variable store : Store.
Variable ref : nat.
Hypothesis dispatch_steady : forall a, steady (store_dispatch store a).
Hypothesis getState_steady : steady (store_getState store).

Lemma steady_mexec api next p :
  (forall a, steady (api a)) ->
  match next with Some callNext => forall a, steady (callNext a) | None => True end ->
  steady (mexec store api next p).
Proof.
  intros Hapi Hnext.
  induction p as [v|e|k IH|a k IH|a k IH|body IHb handler IHh k IHk]; simpl.
  - apply steady_ret.
  - apply steady_throw.
  - apply steady_bind; [exact getState_steady | exact IH].
  - apply steady_bind; [apply Hapi | exact IH].
  - destruct next as [callNext|]; [|apply steady_throw].
    apply steady_bind; [apply Hnext | exact IH].
  - apply steady_bind; [apply steady_catch; [exact IHb | exact IHh] | exact IHk].
Qed.

Lemma steady_callDispatchFn api fn a :
  (forall a, steady (api a)) -> steady (callDispatchFn store api fn a).
Proof.
  intros Hapi. revert a. induction fn as [|m next IH]; intros a; simpl.
  - apply dispatch_steady.
  - apply steady_bind; [apply steady_modify; intros w; now repeat split|].
    intros _. apply steady_mexec; [exact Hapi | exact IH].
Qed.

Lemma steady_apiDispatchWith callee a :
  (forall fn a, steady (callee fn a)) -> steady (apiDispatchWith ref callee a).
Proof.
  intros Hc w Hw. unfold apiDispatchWith.
  destruct (dispatchAt ref w) as [fn|]; [apply Hc, Hw|].
  split; [exact Hw | apply ext_refl].
Qed.

Lemma steady_composed n fn a : steady (composed store ref n fn a).
Proof.
  revert fn a. induction n as [|n IH]; intros fn a; simpl.
  - apply steady_callDispatchFn. intros a'. apply steady_apiDispatchWith.
    intros fn' a'' w _. exact I.
  - apply steady_callDispatchFn. intros a'. apply steady_apiDispatchWith. exact IH.
Qed.

Lemma steady_apiDispatch n a : steady (apiDispatch store ref n a).
Proof. apply steady_apiDispatchWith. intros fn a'. apply steady_composed. Qed.

(** Whatever the middleware do when they are given the capability object,
    what comes back is the list of their factories. *)
Lemma steady_callMiddlewares api ms w :
  (forall a, steady (api a)) -> wf w ->
  match mapM (callMiddleware store api) ms w with
  | Ok chain w' => chain = map (factory store api) ms /\ wf w' /\ ext w w'
  | Throw _ w' => wf w' /\ ext w w'
  | OutOfFuel => True
  end.
Proof.
  intros Hapi. revert w. induction ms as [|m ms IH]; intros w Hw.
  - simpl. split; [reflexivity|]. split; [exact Hw | apply ext_refl].
  - simpl. unfold bind at 1. unfold callMiddleware at 1. unfold bind at 1.
    pose proof (steady_mexec api None (mw_setup m) Hapi I w Hw) as Hs.
    destruct (mexec store api None (mw_setup m) w) as [v w1|e w1|]; [|exact Hs|exact I].
    destruct Hs as [Hw1 He1]. cbn [ret]. unfold bind at 1.
    specialize (IH w1 Hw1).
    destruct (mapM (callMiddleware store api) ms w1) as [chain w2|e w2|]; [| |exact I].
    + destruct IH as (-> & Hw2 & He2). cbn [ret].
      split; [reflexivity|]. split; [exact Hw2 | eapply ext_trans; eassumption].
    + destruct IH as (Hw2 & He2). split; [exact Hw2 | eapply ext_trans; eassumption].
Qed.

Lemma steady_factory api m next :
  (forall a, steady (api a)) -> steady (factory store api m next).
Proof.
  intros Hapi. unfold factory. apply steady_bind; [|intros _; apply steady_ret].
  apply steady_mexec; [exact Hapi|]. intros a. now apply steady_callDispatchFn.
Qed.

Lemma steady_factories api ms base :
  (forall a, steady (api a)) -> steady (compose (map (factory store api) ms) base).
Proof.
  intros Hapi. induction ms as [|m ms IH]; simpl.
  - apply steady_ret.
  - apply steady_bind; [exact IH|]. intros next. now apply steady_factory.
Qed.

End PipelineSteady.

(** *** Each pipeline has a variable of its own *)

Lemma assignedKept_refl w : assignedKept w w.
Proof. split; [lia | auto]. Qed.

Lemma assignedKept_trans w1 w2 w3 :
  assignedKept w1 w2 -> assignedKept w2 w3 -> assignedKept w1 w3.
Proof. intros [L1 K1] [L2 K2]. split; [lia | auto]. Qed.

Lemma dispatchAt_assigned ref fn w :
  dispatchAt ref w = Some fn -> ref < length (dispatchVars w).
Proof.
  unfold dispatchAt. intros H. apply lookup_lt_is_Some.
  destruct (dispatchVars w !! ref); [eauto | discriminate].
Qed.

Lemma wf_set_dispatchVars d w : wf w -> wf (set_dispatchVars d w).
Proof. intros [Hn Hc Hl]. split; [exact Hn | exact Hc | exact Hl]. Qed.

(** What the variable of a call of [applyMiddleware] holds when the call is
    over, whatever the middleware do: the composed function when the call
    returns, the thrower still when it throws. *)
Lemma applyMiddleware_outcome n ms (create : creator) args w store w0 :
  create args w = Ok store w0 -> wf w0 -> steadyStore store ->
  match applyMiddleware n ms create args w with
  | Ok enhanced w1 =>
      exists fn,
        enhanced = withDispatch store (composed store (length (dispatchVars w0)) n fn)
        /\ dispatchVars w1 = dispatchVars w0 ++ [Some fn] /\ wf w1
  | Throw _ w1 => dispatchVars w1 = dispatchVars w0 ++ [None] /\ wf w1
  | OutOfFuel => True
  end.
Proof.
  intros Hcreate Hw0 [Hd Hg].
  rewrite (applyMiddleware_unfold n ms create args w store w0 Hcreate).
  set (ref := length (dispatchVars w0)).
  set (wa := newDispatchVar None w0).
  assert (Hwa : wf wa) by now apply wf_set_dispatchVars.
  assert (Hapi : forall a, steady (apiDispatch store ref n a)).
  { intros a. now apply steady_apiDispatch. }
  unfold bind at 1.
  pose proof (steady_callMiddlewares store Hg _ ms wa Hapi Hwa) as Hm.
  destruct (mapM _ ms wa) as [chain wb|e wb|]; [| |exact I].
  - destruct Hm as (-> & Hwb & [_ _ _ _ Vb]).
    unfold bind at 1.
    pose proof (steady_factories store Hd Hg _ ms [] Hapi wb Hwb) as Hf.
    destruct (compose _ [] wb) as [fn wc|e wc|]; [| |exact I].
    + destruct Hf as (Hwc & [_ _ _ _ Vc]). cbv [bind modify ret].
      exists fn. split; [reflexivity|].
      split; [|now apply wf_set_dispatchVars].
      cbn [dispatchVars set_dispatchVars]. rewrite Vc, Vb.
      unfold wa, newDispatchVar, ref. cbn [dispatchVars set_dispatchVars].
      rewrite <- (Nat.add_0_r (length (dispatchVars w0))) at 1.
      now rewrite insert_app_r.
    + destruct Hf as (Hwc & [_ _ _ _ Vc]). split; [|exact Hwc].
      rewrite Vc, Vb. reflexivity.
  - destruct Hm as (Hwb & [_ _ _ _ Vb]). split; [|exact Hwb]. rewrite Vb. reflexivity.
Qed.

Lemma assignedKept_app w w' ds :
  dispatchVars w' = dispatchVars w ++ ds -> assignedKept w w'.
Proof.
  intros H. split; [rewrite H, length_app; lia|].
  intros ref fn Hat. pose proof (dispatchAt_assigned _ _ _ Hat) as Hlt.
  unfold dispatchAt in *. now rewrite H, lookup_app_l.
Qed.

(** A pipeline put around a store declares its own variable and assigns no
    other. *)
Lemma applyMiddleware_steady n ms (create : creator) args w :
  steadyCreator create args w -> steadyCreator (applyMiddleware n ms create) args w.
Proof.
  unfold steadyCreator. intros Hc.
  destruct (create args w) as [store w0|e w0|] eqn:Hcreate.
  - destruct Hc as (Hw0 & Hs & Hk0).
    pose proof (applyMiddleware_outcome n ms create args w store w0 Hcreate Hw0 Hs) as Ho.
    destruct (applyMiddleware n ms create args w) as [enhanced w1|e w1|]; [| |exact I].
    + destruct Ho as (fn & -> & Hv & Hw1). destruct Hs as [Hd Hg].
      split; [exact Hw1|]. split.
      * split; [intros a; now apply steady_composed | exact Hg].
      * eapply assignedKept_trans; [exact Hk0 | eapply assignedKept_app; exact Hv].
    + destruct Ho as (Hv & _).
      eapply assignedKept_trans; [exact Hk0 | eapply assignedKept_app; exact Hv].
  - assert (Ht : applyMiddleware n ms create args w = Throw e w0).
    { unfold applyMiddleware. unfold bind at 1. now rewrite Hcreate. }
    rewrite Ht. exact Hc.
  - assert (Ht : applyMiddleware n ms create args w = OutOfFuel).
    { unfold applyMiddleware. unfold bind at 1. now rewrite Hcreate. }
    rewrite Ht. exact I.
Qed.

(** * The statements of the specification *)

(** ** C1: the state is the left fold of the reducer *)

(** C1. For a store built from a pure reducer [T] with no initial state,
    [getState()] right after construction is [T(undefined, INIT)]; after
    registering any quiet listeners and dispatching any sequence of valid
    actions, every [dispatch] returns the action it was given and the state
    read back after the i-th dispatch is the left fold of [T] over the first
    i actions. *)
Theorem C1_state_is_left_fold
    (fnBody : nat -> list value -> prog) (initSuffix replaceSuffix : string)
    (enhancerBody : nat -> creator -> creator)
    (T : value -> value -> value) (r m : nat) (fs : list nat) (actions : list value)
    (w0 : World) :
  pureReducer fnBody r T ->
  Forall (fun f => quiet (fnBody f [])) fs ->
  length fs <= m ->
  Forall (fun a => isValidAction a = true) actions ->
  let s0 := T VUndefined (actionOfType (INIT initSuffix)) in
  exists w',
    session fnBody initSuffix replaceSuffix enhancerBody (S m) (VFun r) (map VFun fs) actions w0
    = Ok (s0, zip actions (foldStates T s0 actions)) w'
    /\ getState w' = Ok (fold_left T actions s0) w'
    /\ forall i, i < length actions ->
         foldStates T s0 actions !! i = Some (fold_left T (take (S i) actions) s0).
Proof.
  intros HT Hq Hm Hv s0. unfold session.
  unfold bind at 1.
  rewrite (createStore_fresh fnBody initSuffix replaceSuffix enhancerBody T r m VUndefined
             w0 HT eq_refl).
  set (w1 := afterDispatch _ _ _).
  assert (Hw1 : wf w1) by apply afterDispatch_wf, initEngine_wf.
  unfold bind at 1. cbn [store_getState engineStore]. unfold getState at 1.
  change (isDispatching w1) with false. cbv iota.
  destruct (subscribe_all fs w1 Hw1 eq_refl)
    as (w2 & Hsub & Hn2 & Hs2 & Hw2 & Hi2 & Hr2 & Hst2 & Htr2).
  unfold bind at 1. cbn [store_subscribe engineStore]. rewrite Hsub.
  destruct (dispatch_sequence fnBody replaceSuffix T r m (S m) actions w2 HT Hw2 Hi2)
    as (w3 & Hrun & Hst3 & Hw3 & Hi3 & Hr3 & Hn3).
  - now rewrite Hr2.
  - rewrite Hn2. change (nextArray w1) with (@nil fref). simpl.
    apply Forall_map. exact Hq.
  - rewrite Hn2. change (nextArray w1) with (@nil fref). simpl.
    rewrite length_map. lia.
  - exact Hv.
  - exists w3. rewrite Hst2 in Hrun, Hst3. change (currentState w1) with s0 in Hrun, Hst3.
    split; [|split].
    + unfold bind at 1. unfold engineStore. rewrite Hrun. reflexivity.
    + unfold getState. now rewrite Hi3, Hst3.
    + intros i Hi. now apply foldStates_lookup.
Qed.

(** The spec's scenario: three [inc] actions take the counter to 3. *)
Lemma C1_witness :
  exists w',
    session counterBody initKey replaceKey noEnhancer 2 (VFun 0) [VFun 1] [inc; inc; inc]
      emptyWorld
    = Ok (VNum 0, [(inc, VNum 1); (inc, VNum 2); (inc, VNum 3)]) w'
    /\ getState w' = Ok (VNum 3) w'.
Proof.
  destruct (C1_state_is_left_fold counterBody initKey replaceKey noEnhancer count 0 1 [1]
              [inc; inc; inc] emptyWorld) as (w' & Hrun & Hget & _).
  - intros s a. reflexivity.
  - repeat constructor.
  - simpl. lia.
  - repeat constructor.
  - exists w'. split; [exact Hrun | exact Hget].
Defined.

(** ** C2: the listener snapshot *)

(** C2. With listeners [pre ++ [L2] ++ post] registered, where [L2]
    unsubscribes itself and subscribes [L4] from its own callback and the
    others only read: dispatch [D] calls every listener of [pre ++ [L2] ++
    post] once, in order, and not [L4]; the next dispatch calls [pre ++ post
    ++ [L4]] and not [L2]. In general [dispatch] behaves as if it iterated
    over a list taken once, because no user code, at any depth, changes an
    array that [subscribe] and [unsubscribe] are unable to write to: they
    copy the live array away from the snapshot first, so that afterwards the
    two references differ and the snapshot's array is as it was. *)
Theorem C2_listener_snapshot
    (fnBody : nat -> list value -> prog) (replaceSuffix : string)
    (T : value -> value -> value) (r m gas f2 f4 h2 : nat) (pre post : list fref)
    (a1 a2 : value) (w : World) :
  pureReducer fnBody r T ->
  wf w -> isDispatching w = false -> currentReducer w = VFun r ->
  nextArray w = pre ++ UserFn f2 :: post -> UserFn f2 ∉ pre ++ post ->
  subscriptions w !! h2 = Some (UserFn f2, true) ->
  fnBody f2 [] = Unsubscribe h2 (Subscribe (VFun f4) (fun _ => Ret VUndefined)) ->
  Forall (quietListener fnBody) pre -> Forall (quietListener fnBody) post ->
  quiet (fnBody f4 []) ->
  length pre + length post + 1 < gas ->
  isValidAction a1 = true -> isValidAction a2 = true ->
  let send := dispatch fnBody (run fnBody replaceSuffix (S m)) gas in
  (exists w1 w2,
     send a1 w = Ok a1 w1
     /\ trace w1 = trace w ++ EvReducer (currentState w) a1
                             :: map EvListener (pre ++ UserFn f2 :: post)
     /\ nextArray w1 = pre ++ post ++ [UserFn f4]
     /\ send a2 w1 = Ok a2 w2
     /\ trace w2 = trace w1 ++ EvReducer (T (currentState w) a1) a2
                               :: map EvListener (pre ++ post ++ [UserFn f4])
     /\ UserFn f2 ∉ pre ++ post ++ [UserFn f4])
  /\ (forall n gas' a' w',
        wf w' ->
        dispatch fnBody (run fnBody replaceSuffix n) gas' a' w'
        = dispatchSnapshot fnBody (run fnBody replaceSuffix n) gas' a' w')
  /\ (forall n p w' snapshot,
        wf w' -> snapshot < length (arrays w') -> frozen snapshot w' ->
        match run fnBody replaceSuffix n p w' with
        | Ok _ w'' | Throw _ w'' =>
            arrays w'' !! snapshot = arrays w' !! snapshot /\ frozen snapshot w''
        | OutOfFuel => True
        end)
  /\ (forall f w',
        wf w' -> isDispatching w' = false ->
        exists h w'',
          subscribe (VFun f) w' = Ok h w''
          /\ nextListeners w'' <> currentListeners w''
          /\ currentListeners w'' = currentListeners w'
          /\ arrayAt (currentListeners w'') w'' = arrayAt (currentListeners w') w')
  /\ (forall h l w',
        wf w' -> isDispatching w' = false -> subscriptions w' !! h = Some (l, true) ->
        exists w'',
          unsubscribe h w' = Ok VUndefined w''
          /\ nextListeners w'' <> currentListeners w''
          /\ currentListeners w'' = currentListeners w'
          /\ arrayAt (currentListeners w'') w'' = arrayAt (currentListeners w') w').
Proof.
  intros HT Hw Hidle Hr Hnext Hnin Hh Hbody Hpre Hpost Hf4 Hgas Ha1 Ha2 send.
  subst send. split; [|split; [|split; [|split]]].
  - assert (Hnin' : UserFn f2 ∉ pre).
    { intros Hin. apply Hnin. apply elem_of_app. now left. }
    rewrite (dispatch_reduces fnBody replaceSuffix m gas r (T (currentState w) a1) a1 w)
      by (try assumption; apply HT).
    set (w0 := set_currentListeners _ _).
    assert (Hw0 : wf w0).
    { destruct Hw as [Wn Wc Wl]. split; simpl; auto. }
    destruct (notifySnapshot_self_unsubscribing fnBody replaceSuffix m f2 f4 h2 pre post gas w0
                Hw0 Hidle Hnext Hnin' Hh Hbody Hpre Hpost Hgas)
      as (w1 & Hn & Htr1 & Hnext1 & Hw1 & Hidle1 & Hred1 & Hst1).
    rewrite Hnext, Hn.
    assert (Hq1 : Forall (quietListener fnBody) (pre ++ post ++ [UserFn f4])).
    { apply Forall_app. split; [exact Hpre|]. apply Forall_app. split; [exact Hpost|].
      constructor; [exact Hf4 | constructor]. }
    exists w1, (afterDispatch (T (currentState w1) a2) a2 w1).
    split; [reflexivity|].
    split.
    { rewrite Htr1. unfold w0. cbn [trace set_currentListeners set_currentState log].
      now rewrite <- app_assoc. }
    split; [exact Hnext1|].
    split.
    { apply (dispatch_quiet fnBody replaceSuffix m gas r); try assumption.
      - rewrite Hred1. exact Hr.
      - apply HT.
      - now rewrite Hnext1.
      - rewrite Hnext1, !length_app. simpl. lia. }
    split.
    { rewrite afterDispatch_trace, Hnext1, Hst1. reflexivity. }
    intros Hin. rewrite app_assoc in Hin. apply elem_of_app in Hin as [Hin|Hin].
    + now apply Hnin.
    + apply list_elem_of_singleton in Hin. inversion Hin. subst f4.
      rewrite Hbody in Hf4. inversion Hf4.
  - intros n gas' a' w' Hw'. apply dispatch_snapshot; [|exact Hw'].
    apply steady_run.
  - intros n p w' snapshot Hw' Hlt Hfr.
    pose proof (steady_run fnBody replaceSuffix n p w' Hw') as Hs.
    destruct (run fnBody replaceSuffix n p w') as [v w''|e w''|]; [| |exact I];
      destruct Hs as [_ [_ _ A _ _]]; exact (A snapshot Hlt Hfr).
  - intros f w' Hw' Hidle'.
    destruct (subscribeFn_idle (UserFn f) w' Hw' Hidle') as (w'' & Hs & Hsub).
    destruct Hsub. destruct sub_ext0 as [_ _ A _ _].
    exists (length (subscriptions w')), w''.
    split; [exact Hs|]. split; [exact sub_unshared0|]. split; [exact sub_current0|].
    rewrite sub_current0. unfold arrayAt.
    destruct (A (currentListeners w') ltac:(apply Hw') ltac:(intros ?; reflexivity)) as [E _].
    now rewrite E.
  - intros h l w' Hw' Hidle' Hlive.
    destruct (unsubscribe_live h l w' Hw' Hidle' Hlive) as (w'' & Hs & Hun).
    destruct Hun. destruct unsub_ext0 as [_ _ A _ _].
    exists w''.
    split; [exact Hs|]. split; [exact unsub_unshared0|]. split; [exact unsub_current0|].
    rewrite unsub_current0. unfold arrayAt.
    destruct (A (currentListeners w') ltac:(apply Hw') ltac:(intros ?; reflexivity)) as [E _].
    now rewrite E.
Qed.

(** The spec's scenario with listeners 1, 2, 3 and the late listener 4. *)
Lemma C2_witness :
  exists w1 w2,
    dispatch selfUnsubscribingBody (run selfUnsubscribingBody replaceKey 1) 4 inc threeListeners
    = Ok inc w1
    /\ trace w1 = trace threeListeners
                  ++ [EvReducer (VNum 0) inc; EvListener (UserFn 1);
                      EvListener (UserFn 2); EvListener (UserFn 3)]
    /\ dispatch selfUnsubscribingBody (run selfUnsubscribingBody replaceKey 1) 4 inc w1 = Ok inc w2
    /\ trace w2 = trace w1
                  ++ [EvReducer (VNum 1) inc; EvListener (UserFn 1);
                      EvListener (UserFn 3); EvListener (UserFn 4)].
Proof.
  destruct (C2_listener_snapshot selfUnsubscribingBody replaceKey count 0 0 4 2 4 1
              [UserFn 1] [UserFn 3] inc inc threeListeners)
    as ((w1 & w2 & H1 & H2 & _ & H3 & H4 & _) & _).
  - intros s a. reflexivity.
  - apply wf_from_liveListeners; [simpl; lia | simpl; lia | reflexivity].
  - reflexivity.
  - reflexivity.
  - reflexivity.
  - intros Hin. apply elem_of_cons in Hin as [Hin|Hin]; [discriminate|].
    apply elem_of_cons in Hin as [Hin|Hin]; [discriminate|]. inversion Hin.
  - reflexivity.
  - reflexivity.
  - repeat constructor.
  - repeat constructor.
  - constructor.
  - simpl. lia.
  - reflexivity.
  - reflexivity.
  - exists w1, w2. repeat split; assumption.
Defined.

(** ** C3: the order of the middleware *)

(** C3. For middleware [[A; B]] the enhanced store's dispatch enters [A]'s
    handler; [A]'s [next] is [B]'s handler, whose [next] is the base store's
    dispatch. When [A]'s handler does not call [next] for an action, the
    result is what [A]'s handler alone returns: neither [B]'s handler nor the
    base dispatch takes part. The enhanced store is the base store with only
    [dispatch] replaced. *)
Theorem C3_middleware_order
    (A B : Middleware) (create : creator) (args : list value) (n : nat)
    (store : Store) (w w0 : World) :
  create args w = Ok store w0 ->
  plainMiddleware A -> plainMiddleware B ->
  let api := apiInside store (length (dispatchVars w0)) n in
  let callBase := store_dispatch store in
  let callB := fun a w' =>
    mexec store api (Some callBase) (mw_handle B a) (log (EvHandler (mw_name B) a) w') in
  let callA := fun a w' =>
    mexec store api (Some callB) (mw_handle A a) (log (EvHandler (mw_name A) a) w') in
  exists enhanced,
    applyMiddleware n [A; B] create args w = Ok enhanced (newDispatchVar (Some [A; B]) w0)
    /\ (forall a w', store_dispatch enhanced a w' = callA a w')
    /\ (forall a w', noNext (mw_handle A a) ->
          store_dispatch enhanced a w'
          = mexec store api None (mw_handle A a) (log (EvHandler (mw_name A) a) w'))
    /\ (forall a v w', mw_handle A a = MRet v ->
          store_dispatch enhanced a w' = Ok v (log (EvHandler (mw_name A) a) w'))
    /\ store_getState enhanced = store_getState store
    /\ store_subscribe enhanced = store_subscribe store
    /\ store_replaceReducer enhanced = store_replaceReducer store
    /\ store_observable enhanced = store_observable store.
Proof.
  intros Hc HA HB api callBase callB callA.
  exists (withDispatch store (composed store (length (dispatchVars w0)) n [A; B])).
  split; [apply applyMiddleware_plain; auto|].
  assert (Hd : forall a w',
             store_dispatch
               (withDispatch store (composed store (length (dispatchVars w0)) n [A; B])) a w'
             = callA a w').
  { intros a w'. cbn [store_dispatch withDispatch]. rewrite composed_unfold. reflexivity. }
  split; [exact Hd|].
  split.
  { intros a w' Hn. rewrite Hd. unfold callA. now apply mexec_noNext. }
  split.
  { intros a v w' Hv. rewrite Hd. unfold callA. rewrite Hv. reflexivity. }
  repeat split.
Qed.

(** The counter store behind [[A; B]]: an [inc] goes through [A], [B] and
    the reducer; a [blocked] action stops at [A]. *)
Lemma C3_witness :
  exists enhanced w1 w2 w3,
    applyMiddleware 1 [blocker; passer] counterStore [VFun 0] emptyWorld = Ok enhanced w1
    /\ store_dispatch enhanced inc w1 = Ok inc w2
    /\ trace w2 = [EvReducer VUndefined (actionOfType (INIT initKey));
                   EvHandler "A" inc; EvHandler "B" inc; EvReducer (VNum 0) inc]
    /\ store_dispatch enhanced (actionOfType "blocked") w2 = Ok (VStr "blocked by A") w3
    /\ trace w3 = trace w2 ++ [EvHandler "A" (actionOfType "blocked")]
    /\ store_getState enhanced w3 = Ok (VNum 1) w3.
Proof.
  destruct (C3_middleware_order blocker passer counterStore [VFun 0] 1
              (engineStore counterBody replaceKey 1) emptyWorld counterWorld)
    as (enhanced & Happly & Hd & _ & Hshort & Hget & _).
  - reflexivity.
  - split; eexists; reflexivity.
  - split; eexists; reflexivity.
  - exists enhanced. eexists. eexists. eexists.
    split; [exact Happly|].
    split; [rewrite Hd; vm_compute; reflexivity|].
    split; [reflexivity|].
    split; [apply Hshort; reflexivity|].
    split; [reflexivity|].
    rewrite Hget. reflexivity.
Defined.

(** ** C4: nested dispatch and recovery *)

(** C4. A dispatch made from inside the executing reducer throws the
    reentrancy error; the error leaves the outer [dispatch] with the flag
    back to idle and the state untouched, and the next, non-nested dispatch
    goes through. More generally a dispatch entered while idle ends idle,
    whether it returns or throws, and what the reducer throws reaches the
    caller with the flag already lowered. *)
Theorem C4_nested_dispatch_rejected_engine_recovers
    (fnBody : nat -> list value -> prog) (replaceSuffix : string)
    (T : value -> value) (k : value -> value -> prog)
    (r m gas : nat) (bad inner good : value) (w : World) :
  wf w -> isDispatching w = false -> currentReducer w = VFun r ->
  isValidAction bad = true -> isValidAction inner = true -> isValidAction good = true ->
  (forall s, fnBody r [s; bad] = Dispatch inner (k s)) ->
  (forall s, fnBody r [s; good] = Ret (T s)) ->
  Forall (quietListener fnBody) (nextArray w) -> length (nextArray w) < gas ->
  let send := dispatch fnBody (run fnBody replaceSuffix (S m)) gas in
  (forall w', isDispatching w' = true ->
     send inner w' = Throw ErrReducersMayNotDispatch w')
  /\ kindOf ErrReducersMayNotDispatch = ReentrancyError
  /\ (exists w1,
        send bad w = Throw ErrReducersMayNotDispatch w1
        /\ isDispatching w1 = false
        /\ currentState w1 = currentState w
        /\ trace w1 = trace w ++ [EvReducer (currentState w) bad]
        /\ exists w2,
             send good w1 = Ok good w2
             /\ currentState w2 = T (currentState w)
             /\ isDispatching w2 = false)
  /\ (forall lower gas' a e w' w1,
        isValidAction a = true -> isDispatching w' = false ->
        callFunction fnBody lower (currentReducer w') [currentState w'; a]
          (log (EvReducer (currentState w') a) (set_isDispatching true w')) = Throw e w1 ->
        dispatch fnBody lower gas' a w' = Throw e (set_isDispatching false w1))
  /\ (forall n gas' a w',
        wf w' -> isDispatching w' = false ->
        match dispatch fnBody (run fnBody replaceSuffix n) gas' a w' with
        | Ok _ w'' | Throw _ w'' => isDispatching w'' = false
        | OutOfFuel => True
        end).
Proof.
  intros Hw Hidle Hr Hbad Hinner Hgood Hnest Hpure Hq Hgas send.
  subst send.
  split; [intros w' Hd; now apply dispatch_dispatching|].
  split; [reflexivity|].
  split; [|split; [intros lower gas' a e w' w1; apply dispatch_reducer_throws|]].
  - exists (log (EvReducer (currentState w) bad) w).
    assert (Hthrow : dispatch fnBody (run fnBody replaceSuffix (S m)) gas bad w
                     = Throw ErrReducersMayNotDispatch
                         (log (EvReducer (currentState w) bad) w)).
    { rewrite (dispatch_reducer_throws fnBody (run fnBody replaceSuffix (S m)) gas bad w
                 ErrReducersMayNotDispatch
                 (log (EvReducer (currentState w) bad) (set_isDispatching true w)));
        try assumption.
      - f_equal. destruct w. simpl in *. subst. reflexivity.
      - rewrite Hr. cbn [callFunction run]. rewrite Hnest. cbn [exec].
        unfold bind. now rewrite dispatch_dispatching. }
    split; [exact Hthrow|]. split; [exact Hidle|]. split; [reflexivity|].
    split; [reflexivity|].
    exists (afterDispatch (T (currentState w)) good (log (EvReducer (currentState w) bad) w)).
    split; [|split; [reflexivity | exact Hidle]].
    apply (dispatch_quiet fnBody replaceSuffix m gas r); try assumption.
    + eapply sameRegistry_wf; [|exact Hw]. now repeat split.
    + apply Hpure.
  - intros n gas' a w' Hw' Hidle'.
    pose proof (dispatch_ends_idle fnBody replaceSuffix n gas' a w' Hw' Hidle') as He.
    destruct (dispatch _ _ _ _ w') as [v w''|e w''|]; tauto.
Qed.

(** The reducer of the counter store dispatches from inside itself on
    [nest]; the store then takes an [inc]. *)
Lemma C4_witness :
  exists w1 w2,
    dispatch nestingBody (run nestingBody replaceKey 1) 1 (actionOfType "nest")
      (initEngine (VFun 0) (VNum 0) emptyWorld)
    = Throw ErrReducersMayNotDispatch w1
    /\ isDispatching w1 = false
    /\ dispatch nestingBody (run nestingBody replaceKey 1) 1 inc w1 = Ok inc w2
    /\ currentState w2 = VNum 1.
Proof.
  destruct (C4_nested_dispatch_rejected_engine_recovers nestingBody replaceKey
              (fun s => count s inc) (fun s _ => Ret s) 0 0 1
              (actionOfType "nest") inc inc (initEngine (VFun 0) (VNum 0) emptyWorld))
    as (_ & _ & (w1 & H1 & H2 & _ & _ & w2 & H3 & H4 & _) & _ & _).
  - apply initEngine_wf.
  - reflexivity.
  - reflexivity.
  - reflexivity.
  - reflexivity.
  - reflexivity.
  - intros s. reflexivity.
  - intros s. reflexivity.
  - constructor.
  - simpl. lia.
  - exists w1, w2. repeat split; assumption.
Defined.

(** ** C5: the reentrancy flag *)

(** C5, as the code has it. The flag is up exactly while the reducer runs:
    [dispatch] raises it after validating the action, lowers it when the
    reducer returns or throws, and only then notifies the listeners. While it
    is up, [getState], [subscribe], [unsubscribe] of an active registration
    and [dispatch] fail with a reentrancy error; while it is down, as it is
    during notification, they are let through; user code never leaves it
    changed, so that every listener of a notification is started on an idle
    engine. *)
Theorem C5_flag_is_up_only_around_the_reducer
    (fnBody : nat -> list value -> prog) (replaceSuffix : string)
    (lower : prog -> M value) (gas : nat) (a : value) (w : World) :
  isValidAction a = true ->
  (isDispatching w = true ->
     getState w = Throw ErrGetStateWhileDispatching w
     /\ (forall f, subscribe (VFun f) w = Throw ErrSubscribeWhileDispatching w)
     /\ (forall h l, subscriptions w !! h = Some (l, true) ->
           unsubscribe h w = Throw ErrUnsubscribeWhileDispatching w)
     /\ dispatch fnBody lower gas a w = Throw ErrReducersMayNotDispatch w
     /\ map kindOf [ErrGetStateWhileDispatching; ErrSubscribeWhileDispatching;
                    ErrUnsubscribeWhileDispatching; ErrReducersMayNotDispatch]
        = [ReentrancyError; ReentrancyError; ReentrancyError; ReentrancyError])
  /\ (isDispatching w = false ->
        dispatch fnBody lower gas a w
        = match callFunction fnBody lower (currentReducer w) [currentState w; a]
                  (log (EvReducer (currentState w) a) (set_isDispatching true w)) with
          | Ok next w1 =>
              match notify fnBody lower gas (nextListeners w1) 0
                      (set_currentListeners (nextListeners w1)
                         (set_isDispatching false (set_currentState next w1))) with
              | Ok _ w2 => Ok a w2
              | Throw e w2 => Throw e w2
              | OutOfFuel => OutOfFuel
              end
          | Throw e w1 => Throw e (set_isDispatching false w1)
          | OutOfFuel => OutOfFuel
          end)
  /\ (isDispatching w = false -> wf w ->
        getState w = Ok (currentState w) w
        /\ (forall f, exists w', subscribe (VFun f) w = Ok (length (subscriptions w)) w')
        /\ (forall h l, subscriptions w !! h = Some (l, true) ->
              exists w', unsubscribe h w = Ok VUndefined w'))
  /\ (forall n p, wf w ->
        match run fnBody replaceSuffix n p w with
        | Ok _ w' | Throw _ w' => isDispatching w' = isDispatching w
        | OutOfFuel => True
        end)
  /\ (forall n budget listeners i, wf w -> isDispatching w = false ->
        notify fnBody (run fnBody replaceSuffix n) budget listeners i w
        = notify fnBody (assertIdle (run fnBody replaceSuffix n)) budget listeners i w).
Proof.
  intros Hv. pose proof Hv as Hv'. unfold isValidAction in Hv'.
  apply andb_true_iff in Hv' as [Hp Ht]. apply negb_true_iff in Ht.
  split; [|split; [|split; [|split]]].
  - intros Hd. split; [unfold getState; now rewrite Hd|].
    split; [intros f; now apply subscribeFn_dispatching|].
    split; [intros h l Hh; now apply (unsubscribe_dispatching h l)|].
    split; [now apply dispatch_dispatching | reflexivity].
  - intros Hidle. now apply dispatch_unfold.
  - intros Hidle Hw. split; [unfold getState; now rewrite Hidle|].
    split.
    { intros f. destruct (subscribeFn_idle (UserFn f) w Hw Hidle) as (w' & Hs & _).
      now exists w'. }
    intros h l Hh. destruct (unsubscribe_live h l w Hw Hidle Hh) as (w' & Hs & _).
    now exists w'.
  - intros n p Hw. pose proof (steady_run fnBody replaceSuffix n p w Hw) as Hs.
    destruct (run fnBody replaceSuffix n p w) as [v w'|e w'|]; [| |exact I];
      destruct Hs as [_ [F _ _ _ _]]; exact F.
  - intros n budget listeners i Hw Hidle.
    apply notify_assertIdle; [apply steady_run | exact Hw | exact Hidle].
Qed.

(** The counter store, caught while its flag is up. *)
Lemma C5_witness :
  getState (set_isDispatching true (initEngine (VFun 0) (VNum 0) emptyWorld))
  = Throw ErrGetStateWhileDispatching
      (set_isDispatching true (initEngine (VFun 0) (VNum 0) emptyWorld))
  /\ dispatch counterBody (run counterBody replaceKey 1) 1 inc
       (set_isDispatching true (initEngine (VFun 0) (VNum 0) emptyWorld))
     = Throw ErrReducersMayNotDispatch
         (set_isDispatching true (initEngine (VFun 0) (VNum 0) emptyWorld)).
Proof.
  destruct (C5_flag_is_up_only_around_the_reducer counterBody replaceKey
              (run counterBody replaceKey 1) 1 inc
              (set_isDispatching true (initEngine (VFun 0) (VNum 0) emptyWorld)))
    as [Hup _].
  - reflexivity.
  - destruct (Hup eq_refl) as (H1 & _ & _ & H2 & _). split; assumption.
Defined.

(** Against C5 as stated ("for the entire duration of a dispatch call,
    including listener notification, every invocation of getState, subscribe,
    unsubscribe, or dispatch fails"): a listener that reads the state,
    subscribes, unsubscribes and dispatches during its notification. Every
    call goes through: the nested dispatch runs the reducer a second time, the
    outer [dispatch] returns, and the counter shows 2. *)
Lemma C5_counterexample :
  exists w',
    (store <- createStore reentrantListenerBody initKey replaceKey noEnhancer 3
                (VFun 0) VUndefined VUndefined ;;
     store_subscribe store (VFun 1) ;;;
     store_dispatch store inc ;;;
     store_getState store) emptyWorld
    = Ok (VNum 2) w'
    /\ trace w' = [EvReducer VUndefined (actionOfType (INIT initKey));
                   EvReducer (VNum 0) inc; EvListener (UserFn 1);
                   EvReducer (VNum 1) inc; EvListener (UserFn 1)]
    /\ subscriptions w' = [(UserFn 1, true); (UserFn 2, false)].
Proof. eexists. vm_compute. repeat split. Qed.

(** ** C6: dispatching while the pipeline is being assembled *)

(** C6. Every call of [applyMiddleware] has a [dispatch] variable of its
    own, and the capability object's [dispatch] runs whatever that variable
    holds when it is called. While the chain is being assembled the variable
    holds the thrower: a middleware that calls the capability [dispatch] when
    it is given the capability object, or when it is given [next], makes the
    assembly fail with the "dispatching while constructing" error. Once the
    composed function has been assigned, the capability [dispatch] is the
    composed dispatch of the enhanced store (handlers running inside the
    pipeline reach it with one unit of fuel less), in every later state in
    which the assigned variables are kept. They are kept by every dispatch
    through the enhanced store and by every later assembly, of any chain: a
    second pipeline, such as one put around the enhanced store, declares a
    variable of its own. For a chain of any middleware whatever, the variable
    still holds the thrower when the assembly throws, and the capability
    [dispatch] is the dispatch of the enhanced store when it returns. *)
Theorem C6_capability_dispatch
    (create : creator) (args : list value) (n : nat) (store : Store) (w w0 : World)
    (pre post : list Middleware) (m : Middleware) (a : value) (k : value -> mprog) :
  create args w = Ok store w0 ->
  Forall plainMiddleware pre -> Forall plainMiddleware post ->
  let ref := length (dispatchVars w0) in
  let chain := pre ++ m :: post in
  (forall w', dispatchAt ref w' = None ->
     apiDispatch store ref n a w' = Throw ErrDispatchingWhileConstructing w')
  /\ (mw_setup m = MApiDispatch a k ->
        applyMiddleware n chain create args w
        = Throw ErrDispatchingWhileConstructing (newDispatchVar None w0))
  /\ ((exists v, mw_setup m = MRet v) -> mw_wrap m = MApiDispatch a k ->
        applyMiddleware n chain create args w
        = Throw ErrDispatchingWhileConstructing (newDispatchVar None w0))
  /\ (plainMiddleware m ->
        exists enhanced w1,
          applyMiddleware n chain create args w = Ok enhanced w1
          /\ dispatchAt ref w1 = Some chain
          /\ (forall a' w', assignedKept w1 w' ->
                apiDispatch store ref n a' w' = store_dispatch enhanced a' w')
          /\ (forall n' a' w', n = S n' -> assignedKept w1 w' ->
                apiInside store ref n a' w' = composed store ref n' chain a' w')
          /\ (wf w0 -> steadyStore store ->
                wf w1 /\ steadyStore enhanced
                /\ (forall a' w', wf w' ->
                      match store_dispatch enhanced a' w' with
                      | Ok _ w'' | Throw _ w'' => dispatchVars w'' = dispatchVars w'
                      | OutOfFuel => True
                      end)
                /\ (forall n2 ms2 create2 args2 w',
                      assignedKept w1 w' -> steadyCreator create2 args2 w' ->
                      match applyMiddleware n2 ms2 create2 args2 w' with
                      | Ok enhanced2 w2 =>
                          wf w2 /\ steadyStore enhanced2 /\ assignedKept w1 w2
                          /\ forall a', apiDispatch store ref n a' w2
                                        = store_dispatch enhanced a' w2
                      | Throw _ w2 =>
                          assignedKept w1 w2
                          /\ forall a', apiDispatch store ref n a' w2
                                        = store_dispatch enhanced a' w2
                      | OutOfFuel => True
                      end)))
  /\ (wf w0 -> steadyStore store ->
        forall ms,
          match applyMiddleware n ms create args w with
          | Ok enhanced w1 =>
              (exists fn, dispatchAt ref w1 = Some fn)
              /\ forall a' w', assignedKept w1 w' ->
                    apiDispatch store ref n a' w' = store_dispatch enhanced a' w'
          | Throw _ w1 =>
              dispatchAt ref w1 = None
              /\ forall a', apiDispatch store ref n a' w1
                            = Throw ErrDispatchingWhileConstructing w1
          | OutOfFuel => True
          end).
Proof.
  intros Hc Hpre Hpost ref chain.
  split; [intros w' Hv; now apply apiDispatch_unassembled|].
  assert (Hnew : dispatchAt ref (newDispatchVar None w0) = None)
    by apply dispatchAt_new.
  split; [|split; [|split]].
  - intros Hm. rewrite (applyMiddleware_unfold n chain create args w store w0 Hc).
    unfold bind at 1.
    now rewrite (setup_dispatch_throws store ref n pre m post a k).
  - intros Hv Hm. rewrite (applyMiddleware_unfold n chain create args w store w0 Hc).
    unfold bind at 1. rewrite callMiddleware_returns.
    + unfold bind at 1.
      now rewrite (wrap_dispatch_throws store ref n pre m post a k).
    + apply Forall_app. split.
      * eapply Forall_impl; [exact Hpre|]. intros p [Hs _]. exact Hs.
      * constructor; [exact Hv|].
        eapply Forall_impl; [exact Hpost|]. intros p [Hs _]. exact Hs.
  - intros Hplain.
    assert (Hall : Forall plainMiddleware chain).
    { apply Forall_app. split; [exact Hpre | now constructor]. }
    set (enhanced := withDispatch store (composed store ref n chain)).
    set (w1 := newDispatchVar (Some chain) w0).
    assert (Hat : dispatchAt ref w1 = Some chain) by apply dispatchAt_new.
    assert (Hfwd : forall a' w', assignedKept w1 w' ->
                     apiDispatch store ref n a' w' = store_dispatch enhanced a' w').
    { intros a' w' [_ Hk]. apply apiDispatch_assembled. now apply Hk. }
    exists enhanced, w1.
    split; [now apply applyMiddleware_plain|].
    split; [exact Hat|].
    split; [exact Hfwd|].
    split.
    { intros n' a' w' -> [_ Hk]. unfold apiInside, apiDispatchWith.
      now rewrite (Hk ref chain Hat). }
    intros Hw0 [Hd Hg].
    assert (Hw1 : wf w1) by now apply wf_set_dispatchVars.
    assert (Hse : steadyStore enhanced).
    { split; [intros a'; now apply steady_composed | exact Hg]. }
    split; [exact Hw1|]. split; [exact Hse|]. split.
    { intros a' w' Hw'. destruct Hse as [Hde _]. specialize (Hde a' w' Hw').
      destruct (store_dispatch enhanced a' w') as [v w''|e w''|]; [| |exact I];
        destruct Hde as [_ [_ _ _ _ V]]; exact V. }
    intros n2 ms2 create2 args2 w' Hk Hc2.
    pose proof (applyMiddleware_steady n2 ms2 create2 args2 w' Hc2) as H2.
    unfold steadyCreator in H2.
    destruct (applyMiddleware n2 ms2 create2 args2 w') as [enhanced2 w2|e w2|];
      [| |exact I].
    + destruct H2 as (Hw2 & Hs2 & Hk2).
      assert (Hk12 : assignedKept w1 w2) by (eapply assignedKept_trans; eassumption).
      split; [exact Hw2|]. split; [exact Hs2|]. split; [exact Hk12|].
      intros a'. now apply Hfwd.
    + assert (Hk12 : assignedKept w1 w2) by (eapply assignedKept_trans; eassumption).
      split; [exact Hk12|]. intros a'. now apply Hfwd.
  - intros Hw0 Hs ms.
    pose proof (applyMiddleware_outcome n ms create args w store w0 Hc Hw0 Hs) as Ho.
    destruct (applyMiddleware n ms create args w) as [enhanced w1|e w1|]; [| |exact I].
    + destruct Ho as (fn & -> & Hv & _).
      assert (Hat : dispatchAt ref w1 = Some fn).
      { unfold dispatchAt, ref. now rewrite Hv, lookup_app_r, Nat.sub_diag by lia. }
      split; [now exists fn|].
      intros a' w' [_ Hk]. apply apiDispatch_assembled. now apply Hk.
    + destruct Ho as (Hv & _).
      assert (Hat : dispatchAt ref w1 = None).
      { unfold dispatchAt, ref. now rewrite Hv, lookup_app_r, Nat.sub_diag by lia. }
      split; [exact Hat|]. intros a'. now apply apiDispatch_unassembled.
Qed.


(** On the counter store. A middleware that dispatches when it is given the
    capability object stops the assembly. Once the pipeline [[B; R]] is
    assembled, [R]'s [api.dispatch(inc)] enters the pipeline from the top,
    through [B] and [R] again, before it reaches the reducer. With [[B]] put
    around the store that [[R]] enhanced, each pipeline has its variable:
    [R]'s [api.dispatch(inc)] enters [R]'s own pipeline, not [B]'s. And a
    middleware of the outer pipeline may send an action down the inner one
    while the outer one is being assembled. *)
Lemma C6_witness :
  applyMiddleware 2 [passer; eager; passer] counterStore [VFun 0] emptyWorld
  = Throw ErrDispatchingWhileConstructing (newDispatchVar None counterWorld)
  /\ (exists enhanced w1 w2,
        applyMiddleware 2 [passer; redispatcher] counterStore [VFun 0] emptyWorld
        = Ok enhanced w1
        /\ apiDispatch (engineStore counterBody replaceKey 1) 0 2 inc w1
           = store_dispatch enhanced inc w1
        /\ store_dispatch enhanced (actionOfType "again") w1 = Ok inc w2
        /\ trace w2 = [EvReducer VUndefined (actionOfType (INIT initKey));
                       EvHandler "B" (actionOfType "again");
                       EvHandler "R" (actionOfType "again");
                       EvHandler "B" inc; EvHandler "R" inc;
                       EvReducer (VNum 0) inc])
  /\ (exists inner w1 outer w2 w3,
        applyMiddleware 2 [redispatcher] counterStore [VFun 0] emptyWorld = Ok inner w1
        /\ applyMiddleware 2 [passer] (applyMiddleware 2 [redispatcher] counterStore)
             [VFun 0] emptyWorld
           = Ok outer w2
        /\ dispatchVars w2 = [Some [redispatcher]; Some [passer]]
        /\ (forall a', apiDispatch (engineStore counterBody replaceKey 1) 0 2 a' w2
                       = store_dispatch inner a' w2)
        /\ store_dispatch outer (actionOfType "again") w2 = Ok inc w3
        /\ trace w3 = [EvReducer VUndefined (actionOfType (INIT initKey));
                       EvHandler "B" (actionOfType "again");
                       EvHandler "R" (actionOfType "again");
                       EvHandler "R" inc;
                       EvReducer (VNum 0) inc])
  /\ match applyMiddleware 2 [early] (applyMiddleware 2 [redispatcher] counterStore)
             [VFun 0] emptyWorld with
     | Ok _ w1 => trace w1 = [EvReducer VUndefined (actionOfType (INIT initKey));
                              EvHandler "R" (actionOfType "again");
                              EvHandler "R" inc;
                              EvReducer (VNum 0) inc]
     | _ => False
     end.
Proof.
  assert (Hp : plainMiddleware passer) by (split; eexists; reflexivity).
  assert (Hr : plainMiddleware redispatcher) by (split; eexists; reflexivity).
  split; [|split; [|split]].
  - destruct (C6_capability_dispatch counterStore [VFun 0] 2
                (engineStore counterBody replaceKey 1)
                emptyWorld counterWorld [passer] [passer] eager inc MRet)
      as (_ & Hsetup & _).
    + reflexivity.
    + now constructor.
    + now constructor.
    + apply Hsetup. reflexivity.
  - destruct (C6_capability_dispatch counterStore [VFun 0] 2
                (engineStore counterBody replaceKey 1)
                emptyWorld counterWorld [passer] [] redispatcher inc MRet)
      as (_ & _ & _ & Hafter & _).
    + reflexivity.
    + now constructor.
    + constructor.
    + destruct (Hafter Hr) as (enhanced & w1 & Happly & _ & Hfwd & _).
      assert (Hall : Forall plainMiddleware [passer; redispatcher]).
      { constructor; [exact Hp | constructor; [exact Hr | constructor]]. }
      pose proof (applyMiddleware_plain 2 [passer; redispatcher] counterStore [VFun 0]
                    emptyWorld (engineStore counterBody replaceKey 1) counterWorld eq_refl
                    Hall) as Happly'.
      simpl app in Happly. pose proof Happly as Heq. rewrite Happly' in Heq.
      inversion Heq as [[He Hw]].
      exists enhanced, w1. eexists.
      split; [exact Happly|].
      split; [apply Hfwd; apply assignedKept_refl|].
      rewrite <- He, <- Hw.
      split; [vm_compute; reflexivity | reflexivity].
  - destruct (C6_capability_dispatch counterStore [VFun 0] 2
                (engineStore counterBody replaceKey 1)
                emptyWorld counterWorld [] [] redispatcher inc MRet)
      as (_ & _ & _ & Hafter & _).
    + reflexivity.
    + constructor.
    + constructor.
    + destruct (Hafter Hr) as (inner & w1 & Happly & _ & _ & _ & Hnest).
      simpl app in Happly, Hnest.
      assert (Hall : Forall plainMiddleware [redispatcher]) by now constructor.
      pose proof (applyMiddleware_plain 2 [redispatcher] counterStore [VFun 0]
                    emptyWorld (engineStore counterBody replaceKey 1) counterWorld eq_refl
                    Hall) as Happly'.
      pose proof Happly as Heq. rewrite Happly' in Heq. inversion Heq as [[He Hw]].
      destruct Hnest as (Hw1 & Hs1 & _ & Hsecond).
      { apply wf_from_liveListeners; [vm_compute; lia | vm_compute; lia | reflexivity]. }
      { destruct (engineStore_steady counterBody replaceKey 1) as (Hd & _ & Hg & _).
        split; assumption. }
      specialize (Hsecond 2 [passer] (fun _ => ret inner) [VFun 0] w1
                    (assignedKept_refl w1)).
      pose proof (applyMiddleware_plain 2 [passer] (fun _ => ret inner) [VFun 0] w1 inner w1
                    eq_refl ltac:(now constructor)) as Houter.
      rewrite Houter in Hsecond.
      destruct Hsecond as (_ & _ & _ & Hfwd).
      { unfold steadyCreator. cbn [ret].
        split; [exact Hw1|]. split; [exact Hs1 | apply assignedKept_refl]. }
      exists inner, w1, (withDispatch inner (composed inner (length (dispatchVars w1)) 2 [passer])),
             (newDispatchVar (Some [passer]) w1).
      eexists.
      split; [exact Happly|].
      split.
      { rewrite <- Houter. unfold applyMiddleware at 1. unfold bind at 1.
        rewrite Happly. reflexivity. }
      split; [rewrite <- Hw; reflexivity|].
      split; [exact Hfwd|].
      rewrite <- He, <- Hw.
      split; [vm_compute; reflexivity | reflexivity].
  - vm_compute. reflexivity.
Defined.

(** ** C7: malformed actions *)

(** C7. Dispatching a value that is not a plain record, or a record whose
    [type] is unset, throws a validation error and leaves the whole engine as
    it was: state, registry, reentrancy flag, and no reducer call recorded. *)
Theorem C7_malformed_action_rejected
    (fnBody : nat -> list value -> prog) (replaceSuffix : string) (n : nat)
    (a : value) (w : World) :
  isPlainObject a = false \/ is_undefined (getField a "type") = true ->
  exists e,
    store_dispatch (engineStore fnBody replaceSuffix n) a w = Throw e w
    /\ kindOf e = ValidationError
    /\ (isDispatching w = false -> getState w = Ok (currentState w) w).
Proof.
  intros Hbad. cbn [store_dispatch engineStore]. unfold dispatch.
  destruct (isPlainObject a) eqn:Hp.
  - destruct Hbad as [Hbad|Hbad]; [discriminate|]. rewrite Hbad. simpl.
    exists ErrActionTypeUndefined. repeat split.
    intros Hidle. unfold getState. now rewrite Hidle.
  - simpl. exists ErrActionNotPlain. repeat split.
    intros Hidle. unfold getState. now rewrite Hidle.
Qed.

(** [dispatch("not-a-record")] and [dispatch({})] on the counter store. *)
Lemma C7_witness :
  (exists e, store_dispatch (engineStore counterBody replaceKey 1) (VStr "not-a-record")
               (initEngine (VFun 0) (VNum 7) emptyWorld)
             = Throw e (initEngine (VFun 0) (VNum 7) emptyWorld)
             /\ kindOf e = ValidationError)
  /\ (exists e, store_dispatch (engineStore counterBody replaceKey 1) (VObj true [])
                  (initEngine (VFun 0) (VNum 7) emptyWorld)
                = Throw e (initEngine (VFun 0) (VNum 7) emptyWorld)
                /\ kindOf e = ValidationError).
Proof.
  split.
  - destruct (C7_malformed_action_rejected counterBody replaceKey 1 (VStr "not-a-record")
                (initEngine (VFun 0) (VNum 7) emptyWorld)) as (e & H1 & H2 & _).
    + left. reflexivity.
    + exists e. split; assumption.
  - destruct (C7_malformed_action_rejected counterBody replaceKey 1 (VObj true [])
                (initEngine (VFun 0) (VNum 7) emptyWorld)) as (e & H1 & H2 & _).
    + right. reflexivity.
    + exists e. split; assumption.
Defined.

(** Values the validation turns away. *)
Example not_plain_values :
  map isPlainObject
    [VStr "s"; VNull; VUndefined; VNum 1; VArr []; VFun 3; VObj false [("type", VStr "t")]]
  = [false; false; false; false; false; false; false].
Proof. reflexivity. Qed.

(** ** C8: constructor arguments *)

(** C8. [createStore(reducer, second, third)]: a function in second place
    with nothing in third is taken as the enhancer and the initial state is
    cleared; with an enhancer the result is [enhancer(createStore)(reducer,
    preloadedState)]; a defined enhancer that is not a function, and a reducer
    that is not a function when there is no enhancer, are configuration
    errors. *)
Theorem C8_constructor_arguments
    (fnBody : nat -> list value -> prog) (initSuffix replaceSuffix : string)
    (enhancerBody : nat -> creator -> creator)
    (n : nat) (reducer second third : value) (w : World) :
  let create := createStore fnBody initSuffix replaceSuffix enhancerBody in
  let createArgs := createStoreArgs fnBody initSuffix replaceSuffix enhancerBody in
  (is_function second = true -> is_undefined third = true ->
     create n reducer second third w = create n reducer VUndefined second w)
  /\ (forall f, second = VFun f -> is_undefined third = true ->
        create (S n) reducer second third w
        = enhancerBody f (createArgs n) [reducer; VUndefined] w)
  /\ (forall f, third = VFun f ->
        create (S n) reducer second third w
        = enhancerBody f (createArgs n) [reducer; second] w)
  /\ (is_undefined third = false -> is_function third = false ->
        create n reducer second third w = Throw ErrEnhancerNotFunction w
        /\ kindOf ErrEnhancerNotFunction = ConfigError)
  /\ (is_undefined third = true -> is_function second = false ->
      is_function reducer = false ->
        create n reducer second third w = Throw ErrReducerNotFunction w
        /\ kindOf ErrReducerNotFunction = ConfigError).
Proof.
  intros create createArgs. subst create createArgs.
  split; [|split; [|split; [|split]]].
  - intros Hs Ht. destruct second; try discriminate. destruct third; try discriminate.
    destruct n; reflexivity.
  - intros f -> Ht. destruct third; try discriminate. reflexivity.
  - intros f ->. cbn [createStore is_undefined]. rewrite andb_false_r. reflexivity.
  - intros Hu Hf. split; [|reflexivity].
    destruct n; cbn [createStore]; rewrite Hu, andb_false_r; simpl;
      destruct third; try discriminate; reflexivity.
  - intros Hu Hs Hr.  split; [|reflexivity].
    destruct n; cbn [createStore]; rewrite Hu, Hs; simpl; rewrite Hu; simpl;
      rewrite Hr; reflexivity.
Qed.

(** [createStore(counter, applyMiddleware(B))] hands construction over to the
    enhancer; a number in third place and a string in first place are turned
    away. *)
Example constructor_examples :
  let enhancers := fun (_ : nat) => applyMiddleware 1 [passer] in
  let create := createStore counterBody initKey replaceKey enhancers in
  create 2 (VFun 0) (VFun 7) VUndefined emptyWorld
  = applyMiddleware 1 [passer]
      (createStoreArgs counterBody initKey replaceKey enhancers 1)
      [VFun 0; VUndefined] emptyWorld
  /\ (exists enhanced w1 w2,
        create 2 (VFun 0) (VFun 7) VUndefined emptyWorld = Ok enhanced w1
        /\ store_dispatch enhanced inc w1 = Ok inc w2
        /\ trace w2 = [EvReducer VUndefined (actionOfType (INIT initKey));
                       EvHandler "B" inc; EvReducer (VNum 0) inc])
  /\ create 1 (VFun 0) VUndefined (VNum 3) emptyWorld
     = Throw ErrEnhancerNotFunction emptyWorld
  /\ create 1 (VStr "reducer") VUndefined VUndefined emptyWorld
     = Throw ErrReducerNotFunction emptyWorld.
Proof.
  cbv zeta. split; [reflexivity|]. split; [|split; reflexivity].
  eexists. eexists. eexists. vm_compute. repeat split.
Qed.

(** ** C9: unsubscribe *)

(** C9, as the code has it. The first call of an unsubscribe function
    removes one registration of its listener (the first occurrence in the
    live array); every later call, whatever the program did in between and
    even while a transition is in progress, returns without touching the
    engine; and a call on a registration that is still active throws the
    reentrancy error when a transition is in progress. *)
Theorem C9_unsubscribe_idempotent
    (fnBody : nat -> list value -> prog) (replaceSuffix : string)
    (h : nat) (l : fref) (w : World) :
  wf w -> subscriptions w !! h = Some (l, true) ->
  (isDispatching w = false ->
     exists w1,
       unsubscribe h w = Ok VUndefined w1
       /\ nextArray w1 = removeFirst l (nextArray w)
       /\ occurrences l (nextArray w1) + 1 = occurrences l (nextArray w)
       /\ unsubscribe h w1 = Ok VUndefined w1
       /\ (forall n p,
             match run fnBody replaceSuffix n p w1 with
             | Ok _ w2 | Throw _ w2 => unsubscribe h w2 = Ok VUndefined w2
             | OutOfFuel => True
             end)
       /\ unsubscribe h (set_isDispatching true w1)
          = Ok VUndefined (set_isDispatching true w1))
  /\ (isDispatching w = true ->
        unsubscribe h w = Throw ErrUnsubscribeWhileDispatching w
        /\ kindOf ErrUnsubscribeWhileDispatching = ReentrancyError).
Proof.
  intros Hw Hh. split.
  - intros Hidle.
    destruct (unsubscribe_live h l w Hw Hidle Hh) as (w1 & Hrun & Hu).
    destruct Hu.
    assert (Hdead : subscriptions w1 !! h = Some (l, false)).
    { rewrite unsub_subs0. apply list_lookup_insert_eq. eapply lookup_lt_Some; eauto. }
    exists w1. split; [exact Hrun|]. split; [exact unsub_next0|]. split; [|split; [|split]].
    + rewrite unsub_next0.
      pose proof (occurrences_removeFirst l l (nextArray w)
                    (live_in_nextArray w h l Hw Hh)) as Ho.
      rewrite decide_True in Ho by reflexivity. exact Ho.
    + now apply (unsubscribe_dead h l).
    + intros n p. pose proof (steady_run fnBody replaceSuffix n p w1 unsub_wf0) as Hs.
      destruct (run fnBody replaceSuffix n p w1) as [v w2|e w2|]; [| |exact I];
        destruct Hs as [_ [_ _ _ D _]]; apply (unsubscribe_dead h l); auto.
    + now apply (unsubscribe_dead h l).
  - intros Hd. split; [|reflexivity]. now apply (unsubscribe_dispatching h l).
Qed.

(** The counter store with one listener, unsubscribed once. *)
Lemma C9_witness :
  exists w1,
    unsubscribe 0
      (set_subscriptions [(UserFn 1, true)]
         (set_arrays [[UserFn 1]] (initEngine (VFun 0) (VNum 0) emptyWorld)))
    = Ok VUndefined w1
    /\ nextArray w1 = []
    /\ unsubscribe 0 w1 = Ok VUndefined w1.
Proof.
  destruct (C9_unsubscribe_idempotent counterBody replaceKey 0 (UserFn 1)
              (set_subscriptions [(UserFn 1, true)]
                 (set_arrays [[UserFn 1]] (initEngine (VFun 0) (VNum 0) emptyWorld))))
    as [Hidle _].
  - split; simpl; auto. intros l. unfold nextArray, arrayAt, occurrences, liveCount. simpl.
    rewrite !filter_cons, !filter_nil.
    destruct (decide (UserFn 1 = l)) as [<-|Hne].
    + rewrite decide_True by reflexivity. reflexivity.
    + rewrite decide_False by congruence. reflexivity.
  - reflexivity.
  - destruct (Hidle eq_refl) as (w1 & H1 & H2 & _ & H3 & _).
    exists w1. split; [exact H1|]. split; [exact H2|exact H3].
Defined.

(** Against C9 as stated ("unsubscribe fails with a reentrancy error if
    invoked while a transition is in progress"): a reducer calls an
    unsubscribe function that was already used; the call returns, the
    reducer's result becomes the state and [dispatch] returns normally. *)
Lemma C9_counterexample :
  exists w',
    (store <- createStore unsubscribingBody initKey replaceKey noEnhancer 2
                (VFun 0) VUndefined VUndefined ;;
     h <- store_subscribe store (VFun 1) ;;
     unsubscribe h ;;;
     store_dispatch store (actionOfType "again") ;;;
     store_getState store) emptyWorld
    = Ok (VStr "unsubscribe returned") w'.
Proof. eexists. vm_compute. reflexivity. Qed.

(** ** C10: the same listener registered several times *)

(** Every snapshot of the live array is called through: with budget to
    spare, the loop is the sequence of the calls. *)
Lemma notifySnapshot_callEach fnBody run budget ls w :
  length ls < budget ->
  notifySnapshot fnBody run budget ls w = callEach fnBody run ls w.
Proof.
  revert budget w. induction ls as [|l ls IH]; intros budget w Hb.
  - destruct budget; [lia | reflexivity].
  - destruct budget as [|b]; [simpl in Hb; lia|].
    cbn [notifySnapshot callEach]. unfold bind at 2. unfold modify at 1.
    unfold bind. unfold callListener.
    destruct l as [f|c].
    + destruct (run (fnBody f []) _) as [v w1|e w1|]; try reflexivity.
      apply IH. simpl in Hb. lia.
    + destruct (observeState _ _ _ _) as [v w1|e w1|]; try reflexivity.
      apply IH. simpl in Hb. lia.
Qed.

Section Each.
Variable fnBody : nat -> list value -> prog.
Variable replaceSuffix : string.

Lemma dispatch_calls_each T r m gas a w :
  pureReducer fnBody r T ->
  wf w -> isDispatching w = false -> currentReducer w = VFun r ->
  isValidAction a = true -> length (nextArray w) < gas ->
  dispatch fnBody (run fnBody replaceSuffix (S m)) gas a w
  = (callEach fnBody (run fnBody replaceSuffix (S m)) (nextArray w) ;;; ret a)
      (reduced T a w).
Proof.
  intros HT Hw Hidle Hr Ha Hgas.
  rewrite (dispatch_reduces fnBody replaceSuffix m gas r (T (currentState w) a) a w
             Hw Hidle Ha Hr (HT _ _)).
  rewrite notifySnapshot_callEach by exact Hgas.
  unfold bind, reduced.
  destruct (callEach _ _ _ _) as [[] w2|e w2|]; reflexivity.
Qed.

End Each.

(** The chain of a dispatch, an unsubscription and a second dispatch when
    every listener only reads the state. *)
Lemma duplicate_registrations_quiet
    (fnBody : nat -> list value -> prog) (replaceSuffix : string)
    (T : value -> value -> value) (r m gas f n k : nat) (a : value) (w : World) :
  pureReducer fnBody r T ->
  wf w -> isDispatching w = false -> currentReducer w = VFun r ->
  Forall (quietListener fnBody) (nextArray w) -> quiet (fnBody f []) ->
  1 < n -> k < n -> length (nextArray w) + n < gas -> isValidAction a = true ->
  let dispatch := dispatch fnBody (run fnBody replaceSuffix (S m)) gas in
  let registered := nextArray w ++ replicate n (UserFn f) in
  exists w1 w2 w3 w4,
    mapM subscribe (replicate n (VFun f)) w = Ok (seq (length (subscriptions w)) n) w1
    /\ nextArray w1 = registered
    /\ dispatch a w1 = Ok a w2
    /\ trace w2 = trace w1 ++ EvReducer (currentState w) a :: map EvListener registered
    /\ occurrences (UserFn f) registered = occurrences (UserFn f) (nextArray w) + n
    /\ unsubscribe (length (subscriptions w) + k) w2 = Ok VUndefined w3
    /\ nextArray w3 = removeFirst (UserFn f) registered
    /\ occurrences (UserFn f) (nextArray w3) + 1 = occurrences (UserFn f) registered
    /\ dispatch a w3 = Ok a w4
    /\ trace w4 = trace w3 ++ EvReducer (T (currentState w) a) a
                              :: map EvListener (removeFirst (UserFn f) registered).
Proof.
  intros HT Hw Hidle Hr Hq Hf Hn Hk Hgas Ha dispatch' registered.
  destruct (subscribe_all (replicate n f) w Hw Hidle)
    as (w1 & Hsub & Hn1 & Hs1 & Hw1 & Hi1 & Hr1 & Hst1 & Htr1).
  rewrite map_replicate, length_replicate in Hsub. rewrite map_replicate in Hn1.
  rewrite (map_replicate (fun f => (UserFn f, true)) n f) in Hs1.
  fold registered in Hn1.
  assert (Hqreg : Forall (quietListener fnBody) registered).
  { apply Forall_app. split; [exact Hq|]. apply Forall_replicate. exact Hf. }
  assert (Hlen : length registered = length (nextArray w) + n).
  { unfold registered. now rewrite length_app, length_replicate. }
  pose proof (dispatch_quiet fnBody replaceSuffix m gas r (T (currentState w1) a) a w1
                Hw1 Hi1 Ha ltac:(congruence) (HT _ _)
                ltac:(now rewrite Hn1) ltac:(rewrite Hn1; lia)) as Hd1.
  set (w2 := afterDispatch (T (currentState w1) a) a w1) in *.
  assert (Hw2 : wf w2) by now apply afterDispatch_wf.
  assert (Hh : subscriptions w2 !! (length (subscriptions w) + k) = Some (UserFn f, true)).
  { change (subscriptions w2) with (subscriptions w1). rewrite Hs1.
    rewrite lookup_app_r by lia.
    replace (length (subscriptions w) + k - length (subscriptions w)) with k by lia.
    now apply lookup_replicate_2. }
  destruct (unsubscribe_live _ _ w2 Hw2 Hi1 Hh) as (w3 & Hun & Hu). destruct Hu.
  change (nextArray w2) with (nextArray w1) in unsub_next0. rewrite Hn1 in unsub_next0.
  assert (Hin : UserFn f ∈ registered).
  { unfold registered. apply elem_of_app. right.
    destruct n; [lia|]. simpl. left. }
  destruct unsub_ext0 as [Hflag3 _ _ _ _].
  pose proof (dispatch_quiet fnBody replaceSuffix m gas r (T (currentState w3) a) a w3
                unsub_wf0 ltac:(rewrite Hflag3; exact Hi1) Ha
                ltac:(rewrite unsub_reducer0; change (currentReducer w2) with (currentReducer w1);
                      congruence)
                (HT _ _)
                ltac:(rewrite unsub_next0; now apply Forall_removeFirst)
                ltac:(rewrite unsub_next0;
                      pose proof (length_removeFirst (UserFn f) registered); lia)) as Hd3.
  exists w1, w2, w3, (afterDispatch (T (currentState w3) a) a w3).
  split; [exact Hsub|]. split; [exact Hn1|]. split; [exact Hd1|].
  split; [unfold w2; rewrite afterDispatch_trace, Hn1, Hst1; reflexivity|].
  split; [unfold registered; now rewrite occurrences_app, occurrences_replicate|].
  split; [exact Hun|]. split; [exact unsub_next0|].
  split.
  { rewrite unsub_next0.
    pose proof (occurrences_removeFirst (UserFn f) (UserFn f) registered Hin) as Ho.
    rewrite decide_True in Ho by reflexivity. exact Ho. }
  split; [exact Hd3|].
  rewrite afterDispatch_trace, unsub_next0, unsub_state0.
  change (currentState w2) with (T (currentState w1) a). now rewrite Hst1.
Qed.

(** C10. A listener subscribed [n] times is in the live array [n] more
    times, and each dispatch runs it once for every occurrence there: after
    the reducer, the notification is the sequence of the calls of the
    listeners of the live array, whatever the listeners do. Calling any one
    of the [n] unsubscribe functions ends that subscription and removes
    exactly one entry of the live array, the first occurrence of the
    listener, leaving every other listener's entries as they are; the next
    dispatch runs the listeners that are left, this one [n - 1] times when
    it was not registered before. When every listener only reads the state,
    both dispatches return the action, and the calls are recorded in this
    order. *)
Theorem C10_duplicate_registrations
    (fnBody : nat -> list value -> prog) (replaceSuffix : string)
    (T : value -> value -> value) (r m gas f n k : nat) (a : value) (w : World) :
  pureReducer fnBody r T ->
  wf w -> isDispatching w = false -> currentReducer w = VFun r ->
  1 < n -> k < n -> length (nextArray w) + n < gas -> isValidAction a = true ->
  let dispatch := dispatch fnBody (run fnBody replaceSuffix (S m)) gas in
  let calls := callEach fnBody (run fnBody replaceSuffix (S m)) in
  let registered := nextArray w ++ replicate n (UserFn f) in
  let h := length (subscriptions w) + k in
  exists w1 w3,
    mapM subscribe (replicate n (VFun f)) w = Ok (seq (length (subscriptions w)) n) w1
    /\ nextArray w1 = registered
    /\ occurrences (UserFn f) registered = occurrences (UserFn f) (nextArray w) + n
    /\ dispatch a w1 = (calls registered ;;; ret a) (reduced T a w1)
    /\ unsubscribe h w1 = Ok VUndefined w3
    /\ subscriptions w3 = <[h := (UserFn f, false)]> (subscriptions w1)
    /\ nextArray w3 = removeFirst (UserFn f) registered
    /\ occurrences (UserFn f) (nextArray w3) + 1 = occurrences (UserFn f) registered
    /\ (forall l, l <> UserFn f -> occurrences l (nextArray w3) = occurrences l registered)
    /\ (UserFn f ∉ nextArray w ->
          nextArray w3 = nextArray w ++ replicate (n - 1) (UserFn f))
    /\ dispatch a w3 = (calls (nextArray w3) ;;; ret a) (reduced T a w3)
    /\ (forall w', wf w' -> isDispatching w' = false -> currentReducer w' = VFun r ->
          length (nextArray w') < gas ->
          dispatch a w' = (calls (nextArray w') ;;; ret a) (reduced T a w'))
    /\ (Forall (quietListener fnBody) (nextArray w) -> quiet (fnBody f []) ->
          exists w2 w3' w4,
            dispatch a w1 = Ok a w2
            /\ trace w2 = trace w1 ++ EvReducer (currentState w) a :: map EvListener registered
            /\ unsubscribe h w2 = Ok VUndefined w3'
            /\ nextArray w3' = removeFirst (UserFn f) registered
            /\ dispatch a w3' = Ok a w4
            /\ trace w4 = trace w3' ++ EvReducer (T (currentState w) a) a
                                      :: map EvListener (removeFirst (UserFn f) registered)).
Proof.
  intros HT Hw Hidle Hr Hn Hk Hgas Ha dispatch' calls registered h.
  destruct (subscribe_all (replicate n f) w Hw Hidle)
    as (w1 & Hsub & Hn1 & Hs1 & Hw1 & Hi1 & Hr1 & Hst1 & Htr1).
  rewrite map_replicate, length_replicate in Hsub. rewrite map_replicate in Hn1.
  rewrite (map_replicate (fun f => (UserFn f, true)) n f) in Hs1.
  fold registered in Hn1.
  assert (Hlen : length registered = length (nextArray w) + n).
  { unfold registered. now rewrite length_app, length_replicate. }
  assert (Hh : subscriptions w1 !! h = Some (UserFn f, true)).
  { unfold h. rewrite Hs1, lookup_app_r by lia.
    replace (length (subscriptions w) + k - length (subscriptions w)) with k by lia.
    now apply lookup_replicate_2. }
  destruct (unsubscribe_live _ _ w1 Hw1 Hi1 Hh) as (w3 & Hun & Hu).
  destruct Hu as [Unext Usubs _ _ Ured _ _ _ _ Uwf [Uflag _ _ _ _]].
  rewrite Hn1 in Unext.
  assert (Hin : UserFn f ∈ registered).
  { unfold registered. apply elem_of_app. right. destruct n; [lia|]. simpl. left. }
  assert (Hall : forall w', wf w' -> isDispatching w' = false -> currentReducer w' = VFun r ->
                   length (nextArray w') < gas ->
                   dispatch' a w' = (calls (nextArray w') ;;; ret a) (reduced T a w')).
  { intros w' Hw' Hi' Hr' Hg'. now apply dispatch_calls_each with (r := r). }
  exists w1, w3.
  split; [exact Hsub|]. split; [exact Hn1|].
  split; [unfold registered; now rewrite occurrences_app, occurrences_replicate|].
  split.
  { rewrite <- Hn1. apply Hall; [exact Hw1 | exact Hi1 | congruence | rewrite Hn1; lia]. }
  split; [exact Hun|]. split; [exact Usubs|]. split; [exact Unext|].
  split.
  { rewrite Unext.
    pose proof (occurrences_removeFirst (UserFn f) (UserFn f) registered Hin) as Ho.
    rewrite decide_True in Ho by reflexivity. exact Ho. }
  split.
  { intros l Hl. rewrite Unext.
    pose proof (occurrences_removeFirst (UserFn f) l registered Hin) as Ho.
    rewrite decide_False in Ho by congruence. lia. }
  split.
  { intros Hnot. rewrite Unext. unfold registered.
    destruct n as [|n']; [lia|]. simpl replicate. rewrite Nat.sub_0_r.
    clear -Hnot. induction (nextArray w) as [|x l IH]; simpl.
    - now rewrite decide_True by reflexivity.
    - rewrite decide_False.
      + f_equal. apply IH. intros H. apply Hnot. now right.
      + intros Heq. apply Hnot. rewrite Heq. left. }
  split.
  { apply Hall; [exact Uwf | rewrite Uflag; exact Hi1 | congruence|].
    rewrite Unext. pose proof (length_removeFirst (UserFn f) registered). lia. }
  split; [exact Hall|].
  intros Hq Hf.
  destruct (duplicate_registrations_quiet fnBody replaceSuffix T r m gas f n k a w
              HT Hw Hidle Hr Hq Hf Hn Hk Hgas Ha)
    as (w1' & w2 & w3' & w4 & Q1 & _ & Q2 & Q3 & _ & Q4 & Q5 & _ & Q6 & Q7).
  rewrite Hsub in Q1. inversion Q1 as [Hw1']. subst w1'.
  exists w2, w3', w4. repeat (split; [assumption|]). exact Q7.
Qed.

(** Three registrations of a listener that leaves a mark each time it is
    called: a dispatch leaves three marks; with the second unsubscribe
    function called first, it leaves two. *)
Lemma C10_witness :
  exists w1 w2 w3 w4,
    mapM subscribe [VFun 1; VFun 1; VFun 1] (initEngine (VFun 0) (VNum 0) emptyWorld)
    = Ok [0; 1; 2] w1
    /\ dispatch markingBody (run markingBody replaceKey 1) 5 inc w1 = Ok inc w2
    /\ trace w2 = [EvReducer (VNum 0) inc;
                   EvListener (UserFn 1); EvListener (UserFn 1); EvListener (UserFn 1)]
    /\ subscriptions w2
       = subscriptions w1 ++ [(UserFn 2, true); (UserFn 2, true); (UserFn 2, true)]
    /\ unsubscribe 1 w1 = Ok VUndefined w3
    /\ nextArray w3 = [UserFn 1; UserFn 1]
    /\ dispatch markingBody (run markingBody replaceKey 1) 5 inc w3 = Ok inc w4
    /\ trace w4 = [EvReducer (VNum 0) inc; EvListener (UserFn 1); EvListener (UserFn 1)]
    /\ subscriptions w4 = subscriptions w3 ++ [(UserFn 2, true); (UserFn 2, true)].
Proof.
  destruct (C10_duplicate_registrations markingBody replaceKey count 0 0 5 1 3 1 inc
              (initEngine (VFun 0) (VNum 0) emptyWorld))
    as (w1 & w3 & H1 & _ & _ & H2 & H3 & _ & H4 & _ & _ & _ & H5 & _).
  - intros s a. reflexivity.
  - apply initEngine_wf.
  - reflexivity.
  - reflexivity.
  - lia.
  - lia.
  - simpl. lia.
  - reflexivity.
  - vm_compute in H1. inversion H1 as [Hw1]. clear H1.
    rewrite <- Hw1 in H3. vm_compute in H3. inversion H3 as [Hw3]. clear H3.
    exists w1. eexists. exists w3. eexists.
    split; [rewrite <- Hw1; reflexivity|].
    split; [rewrite H2, <- Hw1; vm_compute; reflexivity|].
    split; [reflexivity|].
    split; [rewrite <- Hw1; reflexivity|].
    split; [rewrite <- Hw1, <- Hw3; reflexivity|].
    split; [rewrite <- Hw3; reflexivity|].
    split; [rewrite H5, <- Hw3; vm_compute; reflexivity|].
    split; [reflexivity|].
    rewrite <- Hw3. reflexivity.
Defined.

(** * Further properties of the code *)

(** ** createStore.js: construction *)

(** X1. [createStore(reducer, preloadedState)] with a state that is not a
    function calls the reducer exactly once, on the preloaded state and the
    reserved initialise action. What the reducer returns is the store's
    first state, there are no listeners yet and the engine is idle; what the
    reducer throws comes out of [createStore]. *)
Theorem X1_createStore_runs_the_reducer_once
    (fnBody : nat -> list value -> prog) (initSuffix replaceSuffix : string)
    (enhancerBody : nat -> creator -> creator) (r m : nat) (p : value) (w : World) :
  is_function p = false ->
  let init := actionOfType (INIT initSuffix) in
  let create :=
    createStore fnBody initSuffix replaceSuffix enhancerBody (S m) (VFun r) p VUndefined in
  (forall v, fnBody r [p; init] = Ret v ->
     exists w',
       create w = Ok (engineStore fnBody replaceSuffix (S m)) w'
       /\ getState w' = Ok v w'
       /\ trace w' = trace w ++ [EvReducer p init]
       /\ nextArray w' = [] /\ subscriptions w' = []
       /\ isDispatching w' = false)
  /\ (forall e, fnBody r [p; init] = Raise e ->
        exists w',
          create w = Throw e w'
          /\ trace w' = trace w ++ [EvReducer p init]).
Proof.
  intros Hp init create. subst init create. split.
  - intros v Hv. eexists. split.
    + cbn [createStore]. rewrite Hp. cbn [is_undefined andb negb is_function].
      unfold bind at 1. unfold modify at 1. unfold bind at 1.
      rewrite (dispatch_quiet fnBody replaceSuffix m (S m) r v).
      * reflexivity.
      * apply initEngine_wf.
      * reflexivity.
      * reflexivity.
      * reflexivity.
      * exact Hv.
      * constructor.
      * simpl. lia.
    + split; [reflexivity|]. split; [now rewrite afterDispatch_trace|]. repeat split.
  - intros e He. eexists. split.
    + cbn [createStore]. rewrite Hp. cbn [is_undefined andb negb is_function].
      unfold bind at 1. unfold modify at 1. unfold bind at 1.
      erewrite dispatch_reducer_throws; [reflexivity | reflexivity | reflexivity |].
      cbn [currentReducer initEngine callFunction run currentState].
      rewrite He. reflexivity.
    + reflexivity.
Qed.

(** The counter store hydrated with 7. *)
Lemma X1_witness :
  exists w',
    createStore counterBody initKey replaceKey noEnhancer 1 (VFun 0) (VNum 7) VUndefined
      emptyWorld
    = Ok (engineStore counterBody replaceKey 1) w'
    /\ getState w' = Ok (VNum 7) w'.
Proof.
  destruct (X1_createStore_runs_the_reducer_once counterBody initKey replaceKey noEnhancer
              0 0 (VNum 7) emptyWorld eq_refl) as [Hret _].
  destruct (Hret (VNum 7) eq_refl) as (w' & H1 & H2 & _).
  exists w'. split; assumption.
Defined.

(** ** createStore.js: what every client leaves behind *)

(** X2. A store built by [createStore] starts with a registry in which the
    live listener array holds every listener once per active subscription,
    and whatever a client then does with the store (dispatching,
    subscribing, unsubscribing, replacing the reducer, observing, from
    listeners and reducers at any depth, returning or throwing) leaves it
    so, with the engine idle; in particular the listener of an active
    subscription is always found by [indexOf]. *)
Theorem X2_registry_matches_subscriptions
    (fnBody : nat -> list value -> prog) (initSuffix replaceSuffix : string)
    (enhancerBody : nat -> creator -> creator)
    (n : nat) (reducer p : value) (client : prog) (store : Store) (w w0 : World) :
  is_function p = false ->
  createStore fnBody initSuffix replaceSuffix enhancerBody n reducer p VUndefined w
  = Ok store w0 ->
  store = engineStore fnBody replaceSuffix n
  /\ wf w0 /\ isDispatching w0 = false
  /\ match run fnBody replaceSuffix (S n) client w0 with
     | Ok _ w' | Throw _ w' =>
         (forall l, occurrences l (nextArray w') = liveCount l (subscriptions w'))
         /\ nextListeners w' < length (arrays w')
         /\ currentListeners w' < length (arrays w')
         /\ isDispatching w' = false
         /\ (forall h l, subscriptions w' !! h = Some (l, true) ->
               (0 <= indexOf l (nextArray w'))%Z)
     | OutOfFuel => True
     end.
Proof.
  intros Hp Hc.
  pose proof (createStore_establishes_wf fnBody initSuffix replaceSuffix enhancerBody
                n reducer p w Hp) as H0.
  rewrite Hc in H0. destruct H0 as (Hs & Hw0 & Hidle).
  split; [exact Hs|]. split; [exact Hw0|]. split; [exact Hidle|].
  pose proof (steady_run fnBody replaceSuffix (S n) client w0 Hw0) as Hrun.
  destruct (run fnBody replaceSuffix (S n) client w0) as [v w'|e w'|]; [| |exact I];
    destruct Hrun as [Hw' [F _ _ _ _]];
    (split; [apply Hw'|]; split; [apply Hw'|]; split; [apply Hw'|];
     split; [congruence|];
     intros h l Hh; apply indexOf_range; eapply live_in_nextArray; eauto).
Qed.

(** A client of the counter store that subscribes, dispatches and
    unsubscribes. *)
Lemma X2_witness :
  wf counterWorld
  /\ exists w',
       run counterBody replaceKey 3 subscribingClient counterWorld = Ok VUndefined w'
       /\ forall l, occurrences l (nextArray w') = liveCount l (subscriptions w').
Proof.
  destruct (X2_registry_matches_subscriptions counterBody initKey replaceKey noEnhancer
              2 (VFun 0) VUndefined subscribingClient
              (engineStore counterBody replaceKey 2) emptyWorld counterWorld
              eq_refl eq_refl) as (_ & Hw & _ & Hrun).
  split; [exact Hw|].
  destruct (run counterBody replaceKey 3 subscribingClient counterWorld)
    as [v w'|e w'|] eqn:E; [|vm_compute in E; discriminate E|vm_compute in E; discriminate E].
  exists w'. split; [|apply Hrun].
  vm_compute in E. inversion E. reflexivity.
Defined.

(** ** createStore.js: the state and the reducer *)

Lemma reducerFirst_refl w : reducerFirst w w.
Proof. exists []. split; [now rewrite app_nil_r | reflexivity]. Qed.

Lemma reducerFirst_same w w' :
  trace w' = trace w -> currentState w' = currentState w -> reducerFirst w w'.
Proof. intros Ht Hs. exists []. split; [now rewrite app_nil_r | exact Hs]. Qed.

Lemma reducerFirst_trans w1 w2 w3 :
  reducerFirst w1 w2 -> reducerFirst w2 w3 -> reducerFirst w1 w3.
Proof.
  intros (es1 & H1 & M1) (es2 & H2 & M2). exists (es1 ++ es2).
  split; [rewrite H2, H1; now rewrite app_assoc|].
  destruct es1 as [|[] es1]; simpl in *; try tauto.
  destruct es2 as [|[] es2]; simpl in *; try tauto. congruence.
Qed.

Lemma orderly_growing {A} (m : M A) : orderly m -> growing m.
Proof.
  intros H w. specialize (H w). destruct (m w) as [a w'|e w'|]; [| |exact I];
    destruct H as (es & Ht & _); now exists es.
Qed.

Lemma orderly_ret {A} (a : A) : orderly (ret a).
Proof. intros w. apply reducerFirst_refl. Qed.

Lemma orderly_throw {A} e : orderly (@throw A e).
Proof. intros w. apply reducerFirst_refl. Qed.

Lemma orderly_reads {A} (f : World -> A) : orderly (reads f).
Proof. intros w. apply reducerFirst_refl. Qed.

Lemma orderly_modify (f : World -> World) :
  (forall w, trace (f w) = trace w /\ currentState (f w) = currentState w) ->
  orderly (modify f).
Proof. intros Hf w. simpl. destruct (Hf w). now apply reducerFirst_same. Qed.

Lemma orderly_bind {A B} (m : M A) (f : A -> M B) :
  orderly m -> (forall a, orderly (f a)) -> orderly (bind m f).
Proof.
  intros Hm Hf w. unfold bind. specialize (Hm w).
  destruct (m w) as [a w1|e w1|]; [|exact Hm|exact I].
  specialize (Hf a w1). destruct (f a w1) as [b w2|e w2|]; [| |exact I];
    eapply reducerFirst_trans; eauto.
Qed.

Lemma orderly_catch {A} (m : M A) (h : error -> M A) :
  orderly m -> (forall e, orderly (h e)) -> orderly (catch m h).
Proof.
  intros Hm Hh w. unfold catch. specialize (Hm w).
  destruct (m w) as [a w1|e w1|]; [exact Hm| |exact I].
  specialize (Hh e w1). destruct (h e w1) as [b w2|e' w2|]; [| |exact I];
    eapply reducerFirst_trans; eauto.
Qed.

Lemma growing_bind {A B} (m : M A) (f : A -> M B) :
  growing m -> (forall a, growing (f a)) -> growing (bind m f).
Proof.
  intros Hm Hf w. unfold bind. specialize (Hm w).
  destruct (m w) as [a w1|e w1|]; [|exact Hm|exact I].
  specialize (Hf a w1). destruct Hm as (es1 & H1).
  destruct (f a w1) as [b w2|e w2|]; [| |exact I];
    destruct Hf as (es2 & H2); exists (es1 ++ es2); rewrite H2, H1; now rewrite app_assoc.
Qed.

Lemma orderly_getState : orderly getState.
Proof.
  intros w. unfold getState. destruct (isDispatching w); apply reducerFirst_refl.
Qed.

Lemma orderly_subscribeFn l : orderly (subscribeFn l).
Proof.
  intros w. unfold subscribeFn. destruct (isDispatching w); [apply reducerFirst_refl|].
  cbv [bind ensureCanMutateNextListeners modify ret].
  destruct (_ =? _); now apply reducerFirst_same.
Qed.

Lemma orderly_subscribe v : orderly (subscribe v).
Proof. destruct v; simpl; try apply orderly_throw. apply orderly_subscribeFn. Qed.

Lemma orderly_unsubscribe h : orderly (unsubscribe h).
Proof.
  intros w. unfold unsubscribe.
  destruct (subscriptions w !! h) as [[l [|]]|]; cbn [negb]; try apply reducerFirst_refl.
  destruct (isDispatching w); [apply reducerFirst_refl|].
  cbv [bind ensureCanMutateNextListeners modify ret].
  destruct (_ =? _); now apply reducerFirst_same.
Qed.

Section Orderly.
Variable fnBody : nat -> list value -> prog.
Variable replaceSuffix : string.

Section Level.
Variable lower : prog -> M value.
Variable gas : nat.
Hypothesis lower_orderly : forall p, orderly (lower p).

Lemma orderly_callFunction f args : orderly (callFunction fnBody lower f args).
Proof. destruct f; simpl; try apply orderly_throw. apply lower_orderly. Qed.

Lemma orderly_observeState observer : orderly (observeState fnBody lower observer).
Proof.
  unfold observeState.
  destruct observer; try apply orderly_throw;
    (destruct (truthy _); [|apply orderly_ret];
     apply orderly_bind; [apply orderly_getState|]; intros ?;
     apply orderly_bind; [apply orderly_callFunction|]; intros _; apply orderly_ret).
Qed.

Lemma orderly_callListener l : orderly (callListener fnBody lower l).
Proof.
  destruct l; simpl; [apply lower_orderly|].
  intros w. apply orderly_observeState.
Qed.

(** The notification only adds records. *)
Lemma growing_notify budget a i : growing (notify fnBody lower budget a i).
Proof.
  revert i. induction budget as [|b IH]; intros i w; [exact I|].
  simpl. destruct (arrayAt a w !! i) as [l|]; [|exists []; now rewrite app_nil_r].
  pose proof (growing_bind (callListener fnBody lower l)
                (fun _ => notify fnBody lower b a (S i))
                (orderly_growing _ (orderly_callListener l)) (fun _ => IH (S i))
                (log (EvListener l) w)) as H.
  destruct (bind _ _ _) as [r w1|e w1|]; [| |exact I];
    destruct H as (es & Ht); exists (EvListener l :: es); rewrite Ht;
    cbn [trace log]; now rewrite <- app_assoc.
Qed.

(** A dispatch that gets past its checks records the reducer call before
    anything else. *)
Lemma orderly_dispatch action : orderly (dispatch fnBody lower gas action).
Proof.
  intros w.
  destruct (isPlainObject action) eqn:Hp;
    [|unfold dispatch; rewrite Hp; apply reducerFirst_refl].
  destruct (is_undefined (getField action "type")) eqn:Ht;
    [unfold dispatch; rewrite Hp, Ht; apply reducerFirst_refl|].
  destruct (isDispatching w) eqn:Hidle;
    [unfold dispatch; rewrite Hp, Ht, Hidle; apply reducerFirst_refl|].
  rewrite dispatch_unfold by assumption.
  set (wd := log _ (set_isDispatching true w)).
  pose proof (orderly_growing _ (orderly_callFunction (currentReducer w)
                                   [currentState w; action]) wd) as Hred.
  destruct (callFunction _ _ _ _ wd) as [v w1|e w1|]; [| |exact I].
  - destruct Hred as (es1 & H1).
    set (w3 := set_currentListeners _ _).
    pose proof (growing_notify gas (nextListeners w1) 0 w3) as Hn.
    destruct (notify _ _ _ _ _ w3) as [r w4|e w4|]; [| |exact I];
      destruct Hn as (es2 & H2);
      exists (EvReducer (currentState w) action :: es1 ++ es2);
      (split; [|exact I]); rewrite H2; unfold w3; cbn [trace set_currentListeners
        set_isDispatching set_currentState]; rewrite H1; unfold wd; cbn [trace log
        set_isDispatching]; rewrite <- !app_assoc; reflexivity.
  - destruct Hred as (es1 & H1).
    exists (EvReducer (currentState w) action :: es1). split; [|exact I].
    cbn [trace set_isDispatching]. rewrite H1. unfold wd. cbn [trace log set_isDispatching].
    now rewrite <- app_assoc.
Qed.

Lemma orderly_replaceReducer r :
  orderly (replaceReducer fnBody replaceSuffix lower gas r).
Proof.
  unfold replaceReducer. destruct (negb (is_function r)); [apply orderly_throw|].
  apply orderly_bind; [apply orderly_modify; intros w; now split|]; intros _.
  apply orderly_bind; [apply orderly_dispatch|]; intros _. apply orderly_ret.
Qed.

Lemma orderly_observableSubscribe observer :
  orderly (observableSubscribe fnBody lower observer).
Proof.
  unfold observableSubscribe. destruct (negb (is_object observer)); [apply orderly_throw|].
  apply orderly_bind; [apply orderly_reads|]; intros c.
  apply orderly_bind; [apply orderly_modify; intros w; now split|]; intros _.
  apply orderly_bind; [apply orderly_observeState|]; intros _.
  apply orderly_subscribeFn.
Qed.

Lemma orderly_exec p : orderly (exec fnBody replaceSuffix lower gas p).
Proof.
  induction p as [v|e|k IH|l k IH|h k IH|a k IH|r k IH|o k IH|body IHb handler IHh k IHk];
    simpl.
  - apply orderly_ret.
  - apply orderly_throw.
  - apply orderly_bind; [apply orderly_getState | exact IH].
  - apply orderly_bind; [apply orderly_subscribe | exact IH].
  - apply orderly_bind; [apply orderly_unsubscribe | intros _; exact IH].
  - apply orderly_bind; [apply orderly_dispatch | exact IH].
  - apply orderly_bind; [apply orderly_replaceReducer | intros _; exact IH].
  - apply orderly_bind; [apply orderly_observableSubscribe | exact IH].
  - apply orderly_bind; [apply orderly_catch; [exact IHb | exact IHh] | exact IHk].
Qed.
End Level.

Lemma orderly_run n p : orderly (run fnBody replaceSuffix n p).
Proof.
  revert p. induction n as [|n IH]; intros p; [intros w; exact I|].
  simpl. apply orderly_exec. exact IH.
Qed.

End Orderly.

(** X3. The only way to change the state is to run the reducer: whatever a
    client does with the store, either no reducer and no listener has been
    called and the state is what it was, or the first call recorded is a
    call of the reducer. So no listener is ever called before the reducer
    has run, and no operation other than a dispatch that reaches the reducer
    touches the state. *)
Theorem X3_the_state_changes_only_through_the_reducer
    (fnBody : nat -> list value -> prog) (replaceSuffix : string)
    (n : nat) (client : prog) (w : World) :
  match run fnBody replaceSuffix n client w with
  | Ok _ w' | Throw _ w' =>
      exists es,
        trace w' = trace w ++ es
        /\ (es = [] /\ currentState w' = currentState w
            \/ exists s a rest, es = EvReducer s a :: rest)
  | OutOfFuel => True
  end.
Proof.
  pose proof (orderly_run fnBody replaceSuffix n client w) as H.
  destruct (run fnBody replaceSuffix n client w) as [v w'|e w'|]; [| |exact I];
    destruct H as (es & Ht & Hm); exists es; (split; [exact Ht|]);
    (destruct es as [|[s a|l|name a] es];
     [left; now split | right; now exists s, a, es | destruct Hm | destruct Hm]).
Qed.

(** ** createStore.js: the listener registry *)

Lemma indexOf_found x l :
  x ∈ l ->
  exists i, indexOf x l = Z.of_nat i /\ l !! i = Some x
            /\ (forall j, j < i -> l !! j <> Some x)
            /\ removeFirst x l = delete i l.
Proof.
  unfold indexOf. induction l as [|y l IH]; intros Hin.
  - inversion Hin.
  - simpl indexOfFrom. simpl removeFirst. destruct (decide (x = y)) as [->|Hne].
    + exists 0. repeat split; try reflexivity. intros j Hj. lia.
    + assert (Hl : x ∈ l) by (inversion Hin; subst; [congruence | assumption]).
      destruct (IH Hl) as (i & Hi & Hlook & Hmin & Hrem).
      exists (S i). rewrite (indexOfFrom_shift x l (0 + 1) Hl), Hi.
      split; [lia|]. split; [exact Hlook|]. split.
      * intros [|j] Hj; simpl; [congruence|]. apply Hmin. lia.
      * simpl. now rewrite Hrem.
Qed.

Lemma occurrences_removeFirst_other x y l :
  x <> y -> occurrences y (removeFirst x l) = occurrences y l.
Proof.
  intros Hne. induction l as [|z l IH]; [reflexivity|].
  simpl removeFirst. destruct (decide (x = z)) as [->|Hz].
  - rewrite occurrences_cons. now rewrite decide_False by congruence.
  - rewrite !occurrences_cons. now rewrite IH.
Qed.

Lemma length_removeFirst_in x l : x ∈ l -> length (removeFirst x l) + 1 = length l.
Proof.
  induction l as [|y l IH]; intros Hin; [inversion Hin|].
  simpl removeFirst. destruct (decide (x = y)) as [->|Hne]; simpl; [lia|].
  assert (Hl : x ∈ l) by (inversion Hin; subst; [congruence | assumption]).
  specialize (IH Hl). lia.
Qed.

(** X5. The unsubscribe function of an active subscription always finds
    its listener: [indexOf] answers the position of the listener's first
    entry in the live array, [splice] removes that entry and no other, so
    the array is one shorter and every other listener is in it as often as
    before. [indexOf] could only answer [-1] for a listener that is not in
    the array, and [splice(-1, 1)] would then remove the last listener. *)
Theorem X5_unsubscribe_removes_its_own_entry (h : nat) (l : fref) (w : World) :
  wf w -> isDispatching w = false -> subscriptions w !! h = Some (l, true) ->
  exists i w1,
    indexOf l (nextArray w) = Z.of_nat i
    /\ nextArray w !! i = Some l
    /\ (forall j, j < i -> nextArray w !! j <> Some l)
    /\ unsubscribe h w = Ok VUndefined w1
    /\ nextArray w1 = delete i (nextArray w)
    /\ length (nextArray w1) + 1 = length (nextArray w)
    /\ (forall l', l' <> l -> occurrences l' (nextArray w1) = occurrences l' (nextArray w))
    /\ subscriptions w1 = <[h := (l, false)]> (subscriptions w)
    /\ (forall x arr, x ∉ arr ->
          indexOf x arr = (-1)%Z /\ splice1 (indexOf x arr) arr = removelast arr).
Proof.
  intros Hw Hidle Hh.
  pose proof (live_in_nextArray w h l Hw Hh) as Hin.
  destruct (indexOf_found l (nextArray w) Hin) as (i & Hi & Hlook & Hmin & Hrem).
  destruct (unsubscribe_live h l w Hw Hidle Hh) as (w1 & Hrun & Hu).
  destruct Hu as [Unext Usubs _ _ _ _ _ _ _ _ _].
  exists i, w1.
  split; [exact Hi|]. split; [exact Hlook|]. split; [exact Hmin|]. split; [exact Hrun|].
  split; [now rewrite Unext|].
  split; [rewrite Unext; now apply length_removeFirst_in|].
  split; [intros l' Hne; rewrite Unext; apply occurrences_removeFirst_other; congruence|].
  split; [exact Usubs|].
  intros x arr Hx. split; [now apply indexOfFrom_absent | now apply splice1_absent].
Qed.

(** Listener 2 of three unsubscribes. *)
Lemma X5_witness :
  exists w1,
    unsubscribe 1 threeListeners = Ok VUndefined w1
    /\ nextArray w1 = [UserFn 1; UserFn 3].
Proof.
  destruct (X5_unsubscribe_removes_its_own_entry 1 (UserFn 2) threeListeners)
    as (i & w1 & Hi & _ & _ & Hrun & Hnext & _).
  - apply wf_from_liveListeners; [simpl; lia | simpl; lia | reflexivity].
  - reflexivity.
  - reflexivity.
  - exists w1. split; [exact Hrun|]. rewrite Hnext.
    change (indexOf (UserFn 2) (nextArray threeListeners)) with 1%Z in Hi.
    assert (Hi1 : i = 1) by lia. rewrite Hi1. reflexivity.
Defined.

Lemma liveListeners_app s1 s2 :
  liveListeners (s1 ++ s2) = liveListeners s1 ++ liveListeners s2.
Proof.
  induction s1 as [|[l [|]] s1 IH]; simpl; [reflexivity| |]; now rewrite IH.
Qed.

(** X6. Because unsubscribing removes the first entry of the listener and
    not the entry its own [subscribe] call added, unsubscribing the later of
    two registrations of a listener moves the listener behind everything
    registered in between: after subscribing [l], [x], [l] and calling the
    third unsubscribe function, the live array ends in [x; l], although the
    subscription of [l] that is still active is older than that of [x]. *)
Theorem X6_unsubscribing_a_later_duplicate_removes_the_earlier_entry
    (l x : nat) (w : World) :
  wf w -> isDispatching w = false ->
  l <> x -> UserFn l ∉ nextArray w ->
  exists w',
    (subscribe (VFun l) ;;;
     subscribe (VFun x) ;;;
     h <- subscribe (VFun l) ;;
     unsubscribe h) w = Ok VUndefined w'
    /\ nextArray w' = nextArray w ++ [UserFn x; UserFn l]
    /\ liveListeners (subscriptions w')
       = liveListeners (subscriptions w) ++ [UserFn l; UserFn x].
Proof.
  intros Hw Hidle Hne Hnin. cbn [subscribe].
  destruct (subscribeFn_idle (UserFn l) w Hw Hidle) as (w1 & H1 & S1).
  destruct S1 as [N1 B1 _ _ _ _ _ _ _ W1 [F1 _ _ _ _]].
  destruct (subscribeFn_idle (UserFn x) w1 W1 ltac:(congruence)) as (w2 & H2 & S2).
  destruct S2 as [N2 B2 _ _ _ _ _ _ _ W2 [F2 _ _ _ _]].
  destruct (subscribeFn_idle (UserFn l) w2 W2 ltac:(congruence)) as (w3 & H3 & S3).
  destruct S3 as [N3 B3 _ _ _ _ _ _ _ W3 [F3 _ _ _ _]].
  assert (Hh : subscriptions w3 !! length (subscriptions w2) = Some (UserFn l, true)).
  { rewrite B3. rewrite lookup_app_r by lia. now rewrite Nat.sub_diag. }
  destruct (unsubscribe_live _ _ w3 W3 ltac:(congruence) Hh) as (w4 & H4 & U4).
  destruct U4 as [N4 B4 _ _ _ _ _ _ _ _ _].
  exists w4. unfold bind. rewrite H1, H2, H3, H4.
  split; [reflexivity|]. split.
  - rewrite N4, N3, N2, N1. rewrite <- !app_assoc. cbn [app].
    now rewrite removeFirst_middle.
  - rewrite B4, B3.
    replace (length (subscriptions w2)) with (length (subscriptions w2) + 0) by lia.
    rewrite insert_app_r. cbn [insert list_insert].
    rewrite B2, B1. rewrite !liveListeners_app. cbn. rewrite <- !app_assoc. reflexivity.
Qed.

(** Listeners 1, 2, 1 on a fresh engine; the third unsubscribe function is
    called. *)
Lemma X6_witness :
  exists w',
    (subscribe (VFun 1) ;;;
     subscribe (VFun 2) ;;;
     h <- subscribe (VFun 1) ;;
     unsubscribe h) (initEngine (VFun 0) (VNum 0) emptyWorld) = Ok VUndefined w'
    /\ nextArray w' = [UserFn 2; UserFn 1]
    /\ liveListeners (subscriptions w') = [UserFn 1; UserFn 2].
Proof.
  destruct (X6_unsubscribing_a_later_duplicate_removes_the_earlier_entry 1 2
              (initEngine (VFun 0) (VNum 0) emptyWorld))
    as (w' & H1 & H2 & H3).
  - apply initEngine_wf.
  - reflexivity.
  - lia.
  - intros Hin. inversion Hin.
  - exists w'. split; [exact H1|]. split; [exact H2 | exact H3].
Defined.

(** *** Copies of the listener array *)

Lemma mutateNext_copies f w :
  exists w',
    mutateNext f w = Ok tt w'
    /\ length (arrays w')
       = length (arrays w) + (if nextListeners w =? currentListeners w then 1 else 0).
Proof.
  unfold mutateNext, bind, ensureCanMutateNextListeners, modify.
  destruct (nextListeners w =? currentListeners w) eqn:E.
  - eexists. split; [reflexivity|]. simpl. rewrite length_insert, length_app. simpl. lia.
  - eexists. split; [reflexivity|]. simpl. rewrite length_insert. lia.
Qed.

Lemma subscribeFn_copies l w w' h :
  subscribeFn l w = Ok h w' ->
  length (arrays w')
  = length (arrays w) + (if nextListeners w =? currentListeners w then 1 else 0).
Proof.
  unfold subscribeFn. destruct (isDispatching w); [discriminate|].
  set (w0 := set_subscriptions _ w).
  destruct (mutateNext_copies (fun arr => arr ++ [l]) w0) as (w1 & Hrun & Hlen).
  unfold mutateNext in Hrun. unfold bind in *.
  destruct (ensureCanMutateNextListeners w0) as [[] w2|e w2|]; try discriminate.
  unfold modify in *. intros H. inversion H; subst. inversion Hrun; subst.
  exact Hlen.
Qed.

Lemma unsubscribe_copies h l w w' v :
  subscriptions w !! h = Some (l, true) ->
  unsubscribe h w = Ok v w' ->
  length (arrays w')
  = length (arrays w) + (if nextListeners w =? currentListeners w then 1 else 0).
Proof.
  intros Hh. unfold unsubscribe. rewrite Hh.
  cbn [negb]. destruct (isDispatching w); [discriminate|].
  set (w0 := set_subscriptions _ w).
  destruct (mutateNext_copies (fun arr => splice1 (indexOf l arr) arr) w0)
    as (w1 & Hrun & Hlen).
  unfold mutateNext in Hrun. unfold bind in *.
  destruct (ensureCanMutateNextListeners w0) as [[] w2|e w2|]; try discriminate.
  unfold modify in *. intros H. inversion H; subst. inversion Hrun; subst.
  exact Hlen.
Qed.

(** One call: either nothing is copied and the two references stay as they
    were, shared or not; or they were shared, one copy is made and they are
    no longer shared. *)
Lemma performCall_step c w :
  wf w -> isDispatching w = false ->
  match performCall c w with
  | Ok _ w' =>
      wf w' /\ isDispatching w' = false
      /\ currentListeners w' = currentListeners w
      /\ arrayAt (currentListeners w') w' = arrayAt (currentListeners w) w
      /\ ((length (arrays w') = length (arrays w)
           /\ (nextListeners w' =? currentListeners w')
              = (nextListeners w =? currentListeners w))
          \/ (length (arrays w') = length (arrays w) + 1
              /\ nextListeners w = currentListeners w
              /\ nextListeners w' <> currentListeners w'))
  | Throw _ w' => w' = w
  | OutOfFuel => False
  end.
Proof.
  intros Hw Hidle.
  assert (Hcase : forall w', nextListeners w' <> currentListeners w' ->
            length (arrays w')
            = length (arrays w) + (if nextListeners w =? currentListeners w then 1 else 0) ->
            (length (arrays w') = length (arrays w)
             /\ (nextListeners w' =? currentListeners w')
                = (nextListeners w =? currentListeners w))
            \/ (length (arrays w') = length (arrays w) + 1
                /\ nextListeners w = currentListeners w
                /\ nextListeners w' <> currentListeners w')).
  { intros w' Hunsh Hlen. destruct (nextListeners w =? currentListeners w) eqn:E.
    - right. apply Nat.eqb_eq in E. repeat split; [lia | exact E | exact Hunsh].
    - left. split; [lia|]. now apply Nat.eqb_neq. }
  destruct c as [listener|h]; cbn [performCall]; unfold bind.
  - destruct listener; cbn [subscribe]; try reflexivity.
    destruct (subscribeFn_idle (UserFn f) w Hw Hidle) as (w' & Hs & Hsub).
    rewrite Hs. unfold ret.
    pose proof (subscribeFn_copies _ _ _ _ Hs) as Hlen.
    destruct Hsub as [_ _ Scur Sunsh _ _ _ _ _ Swf [Sflag _ Sfrozen _ _]].
    split; [exact Swf|]. split; [congruence|]. split; [exact Scur|].
    split.
    { rewrite Scur. unfold arrayAt.
      destruct (Sfrozen (currentListeners w) ltac:(apply Hw) ltac:(intros ?; reflexivity))
        as [E _]. now rewrite E. }
    now apply Hcase.
  - destruct (subscriptions w !! h) as [[l [|]]|] eqn:Hh.
    + destruct (unsubscribe_live h l w Hw Hidle Hh) as (w' & Hs & Hun).
      rewrite Hs. unfold ret.
      pose proof (unsubscribe_copies _ _ _ _ _ Hh Hs) as Hlen.
      destruct Hun as [_ _ Ucur Uunsh _ _ _ _ _ Uwf [Uflag _ Ufrozen _ _]].
      split; [exact Uwf|]. split; [congruence|]. split; [exact Ucur|].
      split.
      { rewrite Ucur. unfold arrayAt.
        destruct (Ufrozen (currentListeners w) ltac:(apply Hw) ltac:(intros ?; reflexivity))
          as [E _]. now rewrite E. }
      now apply Hcase.
    + rewrite (unsubscribe_dead h l) by exact Hh. unfold ret.
      split; [exact Hw|]. split; [exact Hidle|]. split; [reflexivity|].
      split; [reflexivity|]. left. split; reflexivity.
    + unfold unsubscribe. rewrite Hh. reflexivity.
Qed.

Lemma performCalls_copies calls w :
  wf w -> isDispatching w = false ->
  match mapM performCall calls w with
  | Ok _ w' | Throw _ w' =>
      length (arrays w) <= length (arrays w')
      /\ length (arrays w')
         <= length (arrays w) + (if nextListeners w =? currentListeners w then 1 else 0)
      /\ currentListeners w' = currentListeners w
      /\ arrayAt (currentListeners w') w' = arrayAt (currentListeners w) w
  | OutOfFuel => False
  end.
Proof.
  revert w. induction calls as [|c calls IH]; intros w Hw Hidle.
  - simpl. repeat split; lia.
  - cbn [mapM]. unfold bind at 1.
    pose proof (performCall_step c w Hw Hidle) as Hstep.
    destruct (performCall c w) as [[] w2|e w2|]; [| |exact Hstep].
    + destruct Hstep as (Hw2 & Hidle2 & Hcur & Harr & Hcopy).
      specialize (IH w2 Hw2 Hidle2). unfold bind.
      destruct (mapM performCall calls w2) as [ys w3|e w3|]; [| |exact IH];
        destruct IH as (Hge3 & Hlen3 & Hcur3 & Harr3);
        (destruct Hcopy as [[Hl He]|(Hl & Hsh & Hun)];
         [rewrite He in Hlen3
         |apply Nat.eqb_neq in Hun; rewrite Hun in Hlen3;
          apply Nat.eqb_eq in Hsh; rewrite Hsh]);
        (split; [lia|]; split; [lia|]; split; congruence).
    + subst w2. repeat split; lia.
Qed.

(** X7. However many [subscribe] and [unsubscribe] calls a client makes
    while the engine is idle, the listener array is copied at most once, by
    the first call that changes it after the two references came to share
    an array, and not at all when they do not share one; the array of the
    last snapshot is left as it was. The calls stop at the first one that
    throws. *)
Theorem X7_the_listener_array_is_copied_at_most_once
    (calls : list registryCall) (w : World) :
  wf w -> isDispatching w = false ->
  match mapM performCall calls w with
  | Ok _ w' | Throw _ w' =>
      length (arrays w) <= length (arrays w')
      /\ copiesSince w w' <= 1
      /\ (nextListeners w <> currentListeners w -> copiesSince w w' = 0)
      /\ currentListeners w' = currentListeners w
      /\ arrayAt (currentListeners w') w' = arrayAt (currentListeners w) w
  | OutOfFuel => False
  end.
Proof.
  intros Hw Hidle. unfold copiesSince.
  pose proof (performCalls_copies calls w Hw Hidle) as H.
  destruct (mapM performCall calls w) as [ys w'|e w'|]; [| |exact H];
    destruct H as (Hge & Hle & Hcur & Harr);
    (split; [exact Hge|];
     split; [destruct (nextListeners w =? currentListeners w); lia|];
     split; [intros Hne; apply Nat.eqb_neq in Hne; rewrite Hne in Hle; lia|];
     split; assumption).
Qed.

(** Four calls on the counter store after its first dispatch. *)
Lemma X7_witness :
  exists w',
    mapM performCall
      [CallSubscribe (VFun 1); CallSubscribe (VFun 2); CallUnsubscribe 0;
       CallSubscribe (VFun 3)] counterWorld = Ok [tt; tt; tt; tt] w'
    /\ copiesSince counterWorld w' <= 1
    /\ arrayAt (currentListeners w') w'
       = arrayAt (currentListeners counterWorld) counterWorld.
Proof.
  pose proof (X7_the_listener_array_is_copied_at_most_once
                [CallSubscribe (VFun 1); CallSubscribe (VFun 2); CallUnsubscribe 0;
                 CallSubscribe (VFun 3)] counterWorld
                ltac:(apply wf_from_liveListeners; [simpl; lia | simpl; lia | reflexivity])
                eq_refl) as H.
  destruct (mapM performCall _ counterWorld) as [ys w'|e w'|] eqn:E;
    [|vm_compute in E; discriminate E|destruct H].
  destruct H as (_ & H1 & _ & _ & H4).
  exists w'. split; [|split; [exact H1 | exact H4]].
  vm_compute in E. inversion E. reflexivity.
Defined.

(** ** createStore.js: dispatch and its listeners *)

Section ThrowingListener.
Variable fnBody : nat -> list value -> prog.
Variable replaceSuffix : string.

(** A listener that throws ends the notification: the listeners after it
    in the snapshot are not called. *)
Lemma notifySnapshot_throws m pre f post e budget w :
  Forall (quietListener fnBody) pre -> fnBody f [] = Raise e ->
  isDispatching w = false -> length pre < budget ->
  notifySnapshot fnBody (run fnBody replaceSuffix (S m)) budget (pre ++ UserFn f :: post) w
  = Throw e (logs (map EvListener (pre ++ [UserFn f])) w).
Proof.
  intros Hpre Hf Hidle Hb.
  replace budget with (length pre + S (budget - length pre - 1)) by lia.
  rewrite notifySnapshot_quiet_prefix by assumption.
  rewrite notifySnapshot_cons. unfold bind.
  cbn [callListener run]. rewrite Hf. cbn [exec]. unfold throw.
  f_equal. rewrite map_app. unfold logs, log. cbn. f_equal. now rewrite <- app_assoc.
Qed.

Lemma notifySnapshot_inert lower ls budget w :
  Forall (inertAt fnBody lower (currentState w)) ls -> isDispatching w = false ->
  length ls < budget ->
  notifySnapshot fnBody lower budget ls w = Ok tt (logs (map EvListener ls) w).
Proof.
  intros Hin. revert budget w Hin.
  induction ls as [|l ls IH]; intros budget w Hin Hidle Hb.
  - destruct budget; [simpl in Hb; lia|]. simpl. now rewrite logs_nil.
  - destruct budget; [simpl in Hb; lia|].
    rewrite notifySnapshot_cons. inversion Hin as [|? ? Hl Hls]; subst.
    destruct (Hl (log (EvListener l) w) eq_refl Hidle) as [v Hv].
    unfold bind. rewrite Hv. rewrite IH; [now rewrite logs_log | exact Hls | exact Hidle |].
    simpl in Hb. lia.
Qed.

Lemma quiet_inert m s l :
  quietListener fnBody l -> inertAt fnBody (run fnBody replaceSuffix (S m)) s l.
Proof. intros Hq w _ Hidle. now apply callListener_quiet. Qed.

End ThrowingListener.

(** X8. When a listener throws, [dispatch] throws what the listener threw:
    the new state stays, the listeners before it have been called, the
    listeners after it are not called, and nobody is unsubscribed. Since the
    throwing listener stays registered, the next dispatch ends the same way:
    the listeners behind it are not called again as long as it is there. *)
Theorem X8_a_throwing_listener_ends_the_notification
    (fnBody : nat -> list value -> prog) (replaceSuffix : string)
    (T : value -> value -> value) (r m gas f : nat) (pre post : list fref)
    (e : error) (a1 a2 : value) (w : World) :
  pureReducer fnBody r T ->
  wf w -> isDispatching w = false -> currentReducer w = VFun r ->
  nextArray w = pre ++ UserFn f :: post ->
  Forall (quietListener fnBody) pre -> fnBody f [] = Raise e ->
  length pre < gas ->
  isValidAction a1 = true -> isValidAction a2 = true ->
  let send := dispatch fnBody (run fnBody replaceSuffix (S m)) gas in
  exists w1 w2,
    send a1 w = Throw e w1
    /\ getState w1 = Ok (T (currentState w) a1) w1
    /\ trace w1 = trace w ++ EvReducer (currentState w) a1
                            :: map EvListener (pre ++ [UserFn f])
    /\ nextArray w1 = nextArray w
    /\ subscriptions w1 = subscriptions w
    /\ send a2 w1 = Throw e w2
    /\ getState w2 = Ok (T (T (currentState w) a1) a2) w2
    /\ trace w2 = trace w1 ++ EvReducer (T (currentState w) a1) a2
                              :: map EvListener (pre ++ [UserFn f]).
Proof.
  intros HT Hw Hidle Hr Hnext Hpre Hf Hgas Ha1 Ha2 send. subst send.
  assert (Hstep : forall a w', wf w' -> isDispatching w' = false ->
            currentReducer w' = VFun r -> nextArray w' = pre ++ UserFn f :: post ->
            isValidAction a = true ->
            dispatch fnBody (run fnBody replaceSuffix (S m)) gas a w'
            = Throw e (logs (map EvListener (pre ++ [UserFn f]))
                         (set_currentListeners (nextListeners w')
                            (set_currentState (T (currentState w') a)
                               (log (EvReducer (currentState w') a) w'))))).
  { intros a w' Hw' Hidle' Hr' Hnext' Ha.
    rewrite (dispatch_reduces fnBody replaceSuffix m gas r (T (currentState w') a) a w')
      by (try assumption; apply HT).
    rewrite Hnext'.
    rewrite (notifySnapshot_throws fnBody replaceSuffix m pre f post e) by assumption.
    reflexivity. }
  eexists. eexists.
  split; [apply Hstep; assumption|].
  split; [unfold getState; cbn [isDispatching logs set_currentListeners set_currentState log];
          rewrite Hidle; reflexivity|].
  split; [cbn [trace logs set_currentListeners set_currentState log];
          now rewrite <- app_assoc|].
  split; [reflexivity|]. split; [reflexivity|].
  split.
  { apply Hstep; [|exact Hidle|exact Hr|exact Hnext|exact Ha2].
    destruct Hw as [Wn Wc Wl]. split; simpl; auto. }
  split; [unfold getState; cbn [isDispatching logs set_currentListeners set_currentState log];
          rewrite Hidle; reflexivity|].
  cbn [trace logs set_currentListeners set_currentState log currentState].
  now rewrite <- !app_assoc.
Qed.

(** Listener 2 of three throws: the counter moves on, listener 3 is not
    called. *)
Lemma X8_witness :
  exists w1 w2,
    dispatch throwingListenerBody (run throwingListenerBody replaceKey 1) 4 inc threeListeners
    = Throw (ErrUser (VStr "listener failed")) w1
    /\ getState w1 = Ok (VNum 1) w1
    /\ trace w1 = trace threeListeners
                  ++ [EvReducer (VNum 0) inc; EvListener (UserFn 1); EvListener (UserFn 2)]
    /\ dispatch throwingListenerBody (run throwingListenerBody replaceKey 1) 4 inc w1
       = Throw (ErrUser (VStr "listener failed")) w2
    /\ getState w2 = Ok (VNum 2) w2.
Proof.
  destruct (X8_a_throwing_listener_ends_the_notification throwingListenerBody replaceKey
              count 0 0 4 2 [UserFn 1] [UserFn 3] (ErrUser (VStr "listener failed"))
              inc inc threeListeners)
    as (w1 & w2 & H1 & H2 & H3 & _ & _ & H4 & H5 & _).
  - intros s a. reflexivity.
  - apply wf_from_liveListeners; [simpl; lia | simpl; lia | reflexivity].
  - reflexivity.
  - reflexivity.
  - reflexivity.
  - repeat constructor.
  - reflexivity.
  - simpl. lia.
  - reflexivity.
  - reflexivity.
  - exists w1, w2. repeat split; assumption.
Defined.

(** X9. A listener may dispatch. When a listener dispatches [b] during the
    notification of [a], the nested dispatch runs to its end first: the
    reducer is called on the state that [a] produced, and every listener of
    the registry is notified of [b], the listeners behind the dispatching one
    before they have been notified of [a]. The outer notification then goes
    on with them: they are called a second time, both times after the
    reducer has handled [b], so that the state after [a] alone is never shown
    to them. *)
Theorem X9_a_listener_that_dispatches
    (fnBody : nat -> list value -> prog) (replaceSuffix : string)
    (T : value -> value -> value) (P : value -> bool)
    (r m gas f : nat) (pre post : list fref) (a b : value) (w : World) :
  pureReducer fnBody r T ->
  wf w -> isDispatching w = false -> currentReducer w = VFun r ->
  nextArray w = pre ++ UserFn f :: post ->
  Forall (quietListener fnBody) pre -> Forall (quietListener fnBody) post ->
  fnBody f [] = GetState (fun s => if P s then Dispatch b (fun _ => Ret VUndefined)
                                    else Ret VUndefined) ->
  P (T (currentState w) a) = true -> P (T (T (currentState w) a) b) = false ->
  isValidAction a = true -> isValidAction b = true ->
  length pre + length post + 1 < gas -> length pre + length post + 1 <= m ->
  exists w',
    dispatch fnBody (run fnBody replaceSuffix (S (S m))) gas a w = Ok a w'
    /\ currentState w' = T (T (currentState w) a) b
    /\ trace w' = trace w
                  ++ EvReducer (currentState w) a :: map EvListener pre
                  ++ EvListener (UserFn f)
                     :: EvReducer (T (currentState w) a) b
                        :: map EvListener (pre ++ UserFn f :: post)
                  ++ map EvListener post
    /\ nextArray w' = nextArray w
    /\ isDispatching w' = false.
Proof.
  intros HT Hw Hidle Hr Hnext Hpre Hpost Hf HP1 HP2 Ha Hb Hgas Hm.
  set (s := currentState w) in *.
  rewrite (dispatch_reduces fnBody replaceSuffix (S m) gas r (T s a) a w)
    by (try assumption; apply HT).
  rewrite Hnext.
  set (w0 := set_currentListeners _ _).
  replace gas with (length pre + S (gas - length pre - 1)) by lia.
  rewrite notifySnapshot_quiet_prefix by assumption.
  rewrite notifySnapshot_cons.
  set (wA := log (EvListener (UserFn f)) (logs (map EvListener pre) w0)).
  assert (HwA : wf wA).
  { destruct Hw as [Wn Wc Wl]. split; simpl; auto. }
  assert (Hinner : dispatch fnBody (run fnBody replaceSuffix (S m)) (S m) b wA
                   = Ok b (afterDispatch (T (T s a) b) b wA)).
  { rewrite (dispatch_reduces fnBody replaceSuffix m (S m) r (T (T s a) b) b wA)
      by (try assumption; apply HT).
    rewrite notifySnapshot_inert; [reflexivity | | exact Hidle |].
    - change (nextArray wA) with (nextArray w). rewrite Hnext.
      cbn [currentState set_currentListeners set_currentState log].
      apply Forall_app. split.
      + eapply Forall_impl; [exact Hpre|]. intros l Hl. now apply quiet_inert.
      + constructor.
        * intros w' Hs' Hidle'. cbn [callListener run]. rewrite Hf. cbn [exec].
          unfold bind, getState. rewrite Hidle', Hs', HP2. cbn [exec]. now eexists.
        * eapply Forall_impl; [exact Hpost|]. intros l Hl. now apply quiet_inert.
    - change (nextArray wA) with (nextArray w). rewrite Hnext, length_app. simpl. lia. }
  assert (Hcall : callListener fnBody (run fnBody replaceSuffix (S (S m))) (UserFn f) wA
                  = Ok VUndefined (afterDispatch (T (T s a) b) b wA)).
  { cbn [callListener run]. rewrite Hf. cbn [exec].
    unfold bind at 1. unfold getState. change (isDispatching wA) with (isDispatching w).
    rewrite Hidle. change (currentState wA) with (T s a). rewrite HP1. cbn [exec].
    unfold bind.
    change (fun p : prog => exec fnBody replaceSuffix (run fnBody replaceSuffix m) m p)
      with (run fnBody replaceSuffix (S m)).
    rewrite Hinner. reflexivity. }
  unfold bind. rewrite Hcall.
  rewrite notifySnapshot_quiet; [|exact Hpost|exact Hidle|lia].
  eexists. split; [reflexivity|]. split; [reflexivity|].
  split.
  { cbn [trace logs]. rewrite afterDispatch_trace.
    change (nextArray wA) with (nextArray w). rewrite Hnext.
    unfold wA, w0.
    cbn [trace logs log set_currentListeners set_currentState currentState].
    rewrite <- !app_assoc. reflexivity. }
  split; [rewrite <- Hnext; reflexivity | exact Hidle].
Qed.

(** Listener 1 dispatches a second [inc] when it sees the counter at 1:
    listener 3 is called twice, and the counter shows 2. *)
Lemma X9_witness :
  exists w',
    dispatch echoingBody (run echoingBody replaceKey 4) 3 inc twoListeners = Ok inc w'
    /\ currentState w' = VNum 2
    /\ trace w' = trace twoListeners
                  ++ [EvReducer (VNum 0) inc; EvListener (UserFn 1);
                      EvReducer (VNum 1) inc; EvListener (UserFn 1); EvListener (UserFn 3);
                      EvListener (UserFn 3)].
Proof.
  destruct (X9_a_listener_that_dispatches echoingBody replaceKey count showsOne
              0 2 3 1 [] [UserFn 3] inc inc twoListeners)
    as (w' & H1 & H2 & H3 & _).
  - intros s a. reflexivity.
  - apply wf_from_liveListeners; [simpl; lia | simpl; lia | reflexivity].
  - reflexivity.
  - reflexivity.
  - reflexivity.
  - constructor.
  - repeat constructor.
  - reflexivity.
  - reflexivity.
  - reflexivity.
  - reflexivity.
  - reflexivity.
  - simpl. lia.
  - simpl. lia.
  - exists w'. split; [exact H1|]. split; [exact H2 | exact H3].
Defined.

(** ** createStore.js: replaceReducer *)

Lemma replaceReducer_unfold fnBody replaceSuffix lower gas r w :
  replaceReducer fnBody replaceSuffix lower gas (VFun r) w
  = match dispatch fnBody lower gas (actionOfType (REPLACE replaceSuffix))
            (set_currentReducer (VFun r) w) with
    | Ok _ w' => Ok VUndefined w'
    | Throw e w' => Throw e w'
    | OutOfFuel => OutOfFuel
    end.
Proof.
  unfold replaceReducer. cbn [is_function negb]. unfold bind at 1. unfold modify at 1.
  unfold bind. destruct (dispatch _ _ _ _ _); reflexivity.
Qed.

Lemma replaceReducer_dispatching fnBody replaceSuffix lower gas r w :
  isDispatching w = true ->
  replaceReducer fnBody replaceSuffix lower gas (VFun r) w
  = Throw ErrReducersMayNotDispatch (set_currentReducer (VFun r) w).
Proof.
  intros Hd. rewrite replaceReducer_unfold.
  now rewrite dispatch_dispatching by (reflexivity || exact Hd).
Qed.

(** X10. [replaceReducer(next)] installs the new reducer and dispatches the
    reserved replace action through it: the state becomes what the new
    reducer makes of the old state and that action, the listeners are
    notified once, the subscriptions are untouched, and every later action
    goes through the new reducer. *)
Theorem X10_replaceReducer_reinitialises
    (fnBody : nat -> list value -> prog) (replaceSuffix : string)
    (T' : value -> value -> value) (r' m gas : nat) (a : value) (w : World) :
  pureReducer fnBody r' T' ->
  wf w -> isDispatching w = false ->
  Forall (quietListener fnBody) (nextArray w) -> length (nextArray w) < gas ->
  isValidAction a = true ->
  let lower := run fnBody replaceSuffix (S m) in
  let replace := actionOfType (REPLACE replaceSuffix) in
  exists w1 w2,
    replaceReducer fnBody replaceSuffix lower gas (VFun r') w = Ok VUndefined w1
    /\ currentReducer w1 = VFun r'
    /\ currentState w1 = T' (currentState w) replace
    /\ trace w1 = trace w ++ EvReducer (currentState w) replace :: map EvListener (nextArray w)
    /\ nextArray w1 = nextArray w
    /\ subscriptions w1 = subscriptions w
    /\ isDispatching w1 = false
    /\ dispatch fnBody lower gas a w1 = Ok a w2
    /\ currentState w2 = T' (T' (currentState w) replace) a.
Proof.
  intros HT Hw Hidle Hq Hgas Ha lower replace. subst lower replace.
  set (w0 := set_currentReducer (VFun r') w).
  assert (Hw0 : wf w0) by (eapply sameRegistry_wf; [|exact Hw]; now repeat split).
  pose proof (dispatch_quiet fnBody replaceSuffix m gas r'
                (T' (currentState w0) (actionOfType (REPLACE replaceSuffix)))
                (actionOfType (REPLACE replaceSuffix)) w0 Hw0 Hidle eq_refl eq_refl
                (HT _ _) Hq Hgas) as Hd.
  set (w1 := afterDispatch _ _ w0) in Hd.
  assert (Hw1 : wf w1) by now apply afterDispatch_wf.
  pose proof (dispatch_quiet fnBody replaceSuffix m gas r' (T' (currentState w1) a) a w1
                Hw1 Hidle Ha eq_refl (HT _ _) Hq Hgas) as Hd2.
  exists w1, (afterDispatch (T' (currentState w1) a) a w1).
  split; [rewrite replaceReducer_unfold; fold w0; now rewrite Hd|].
  split; [reflexivity|]. split; [reflexivity|].
  split; [unfold w1; now rewrite afterDispatch_trace|].
  split; [reflexivity|]. split; [reflexivity|]. split; [exact Hidle|].
  split; [exact Hd2 | reflexivity].
Qed.

(** The counter at 3 gets the reducer that counts twice: the state stays 3,
    and the next [inc] takes it to 5. *)
Lemma X10_witness :
  exists w1 w2,
    replaceReducer twoCountersBody replaceKey (run twoCountersBody replaceKey 1) 1 (VFun 1)
      (initEngine (VFun 0) (VNum 3) emptyWorld) = Ok VUndefined w1
    /\ currentState w1 = VNum 3
    /\ dispatch twoCountersBody (run twoCountersBody replaceKey 1) 1 inc w1 = Ok inc w2
    /\ currentState w2 = VNum 5.
Proof.
  destruct (X10_replaceReducer_reinitialises twoCountersBody replaceKey
              (fun s a => count (count s a) a) 1 0 1 inc
              (initEngine (VFun 0) (VNum 3) emptyWorld))
    as (w1 & w2 & H1 & _ & H2 & _ & _ & _ & _ & H3 & H4).
  - intros s a. reflexivity.
  - apply initEngine_wf.
  - reflexivity.
  - constructor.
  - simpl. lia.
  - reflexivity.
  - exists w1, w2. repeat split; assumption.
Defined.

(** X11. [replaceReducer] assigns the new reducer before it dispatches, and
    nothing undoes the assignment when the dispatch fails. Called from
    inside a reducer it throws the "reducers may not dispatch" error, which
    also ends the outer dispatch, and yet the store is left with the new
    reducer; called with a reducer that throws on the replace action it
    throws that error and leaves the store with the new reducer and the old
    state. Only an argument that is not a function leaves everything as it
    was. *)
Theorem X11_replaceReducer_is_not_undone
    (fnBody : nat -> list value -> prog) (replaceSuffix : string)
    (r r2 m gas : nat) (swap : value) (k : value -> prog) (e : error) (w : World) :
  isDispatching w = false -> currentReducer w = VFun r ->
  isValidAction swap = true ->
  (forall s, fnBody r [s; swap] = ReplaceReducer (VFun r2) (k s)) ->
  fnBody r2 [currentState w; actionOfType (REPLACE replaceSuffix)] = Raise e ->
  let lower := run fnBody replaceSuffix (S m) in
  (exists w1,
     dispatch fnBody lower gas swap w = Throw ErrReducersMayNotDispatch w1
     /\ currentReducer w1 = VFun r2
     /\ currentState w1 = currentState w
     /\ isDispatching w1 = false
     /\ trace w1 = trace w ++ [EvReducer (currentState w) swap])
  /\ (exists w1,
        replaceReducer fnBody replaceSuffix lower gas (VFun r2) w = Throw e w1
        /\ currentReducer w1 = VFun r2
        /\ currentState w1 = currentState w
        /\ isDispatching w1 = false
        /\ trace w1 = trace w ++ [EvReducer (currentState w)
                                    (actionOfType (REPLACE replaceSuffix))])
  /\ (forall v w', is_function v = false ->
        replaceReducer fnBody replaceSuffix lower gas v w' = Throw ErrNextReducerNotFunction w').
Proof.
  intros Hidle Hr Hswap Hbody Hthrows lower. subst lower.
  split; [|split].
  - eexists. split.
    + apply dispatch_reducer_throws; [exact Hswap | exact Hidle |].
      rewrite Hr. cbn [callFunction run]. rewrite Hbody. cbn [exec].
      unfold bind. rewrite replaceReducer_dispatching by reflexivity. reflexivity.
    + repeat split; try reflexivity.
  - eexists. split.
    + rewrite replaceReducer_unfold.
      erewrite dispatch_reducer_throws; [reflexivity | reflexivity | exact Hidle |].
      cbn [currentReducer set_currentReducer callFunction run currentState].
      rewrite Hthrows. reflexivity.
    + repeat split; try reflexivity.
  - intros v w' Hv. unfold replaceReducer. now rewrite Hv.
Qed.

(** A reducer that calls [replaceReducer] on [swap]: the dispatch fails, and
    the store has the other reducer afterwards. *)
Lemma X11_witness :
  exists w1,
    dispatch replacingBody (run replacingBody replaceKey 1) 1 (actionOfType "swap")
      (initEngine (VFun 0) (VNum 3) emptyWorld)
    = Throw ErrReducersMayNotDispatch w1
    /\ currentReducer w1 = VFun 2
    /\ currentState w1 = VNum 3.
Proof.
  destruct (X11_replaceReducer_is_not_undone replacingBody replaceKey 0 2 0 1
              (actionOfType "swap") (fun s => Ret s) (ErrUser (VStr "broken"))
              (initEngine (VFun 0) (VNum 3) emptyWorld))
    as ((w1 & H1 & H2 & H3 & _) & _).
  - reflexivity.
  - reflexivity.
  - reflexivity.
  - intros s. reflexivity.
  - reflexivity.
  - exists w1. repeat split; assumption.
Defined.

(** ** createStore.js: the observable *)

Section Observable.
Variable fnBody : nat -> list value -> prog.

Lemma observeState_next lower observer f w :
  getField observer "next" = VFun f -> isDispatching w = false ->
  observeState fnBody lower observer w
  = (lower (fnBody f [currentState w]) ;;; ret VUndefined) w.
Proof.
  intros Hnext Hidle. destruct observer; try discriminate.
  unfold observeState. rewrite Hnext. cbn [truthy].
  unfold bind at 1. unfold getState. rewrite Hidle. reflexivity.
Qed.

Lemma observeState_silent lower observer w :
  is_object observer = true -> observer <> VNull ->
  truthy (getField observer "next") = false ->
  observeState fnBody lower observer w = Ok VUndefined w.
Proof.
  intros Ho Hn Hf. destruct observer; try discriminate; try congruence;
    unfold observeState; rewrite Hf; reflexivity.
Qed.

End Observable.

(** X12. What [subscribe] of the observable accepts. A value whose [typeof]
    is not ['object'] is turned away with "Expected the observer to be an
    object" and nothing changes. [null] passes that test and fails with the
    language's own error when its [next] is read. An object (or array)
    without a truthy [next] is registered all the same: the call returns an
    unsubscribe function and adds a listener that does nothing. While the
    reducer is running, the call fails with the error of [getState] when the
    observer has a truthy [next] and with the error of [subscribe]
    otherwise; in both cases the registry is left alone. *)
Theorem X12_what_the_observable_accepts
    (fnBody : nat -> list value -> prog) (lower : prog -> M value)
    (observer : value) (w : World) :
  let subscribeTo := observableSubscribe fnBody lower in
  (is_object observer = false -> subscribeTo observer w = Throw ErrObserverNotObject w)
  /\ (exists w',
        subscribeTo VNull w = Throw ErrNotCallable w'
        /\ sameRegistry w w' /\ currentState w' = currentState w /\ trace w' = trace w)
  /\ (is_object observer = true -> observer <> VNull ->
      truthy (getField observer "next") = false ->
      wf w -> isDispatching w = false ->
        exists w',
          subscribeTo observer w = Ok (length (subscriptions w)) w'
          /\ nextArray w' = nextArray w ++ [ObserveState (length (observers w))]
          /\ observers w' !! length (observers w) = Some observer
          /\ currentState w' = currentState w /\ trace w' = trace w
          /\ forall lower', callListener fnBody lower' (ObserveState (length (observers w))) w'
                            = Ok VUndefined w')
  /\ (is_object observer = true -> observer <> VNull -> isDispatching w = true ->
        exists w',
          subscribeTo observer w
          = Throw (if truthy (getField observer "next") then ErrGetStateWhileDispatching
                   else ErrSubscribeWhileDispatching) w'
          /\ sameRegistry w w').
Proof.
  intros subscribeTo. subst subscribeTo. split; [|split; [|split]].
  - intros Ho. unfold observableSubscribe. now rewrite Ho.
  - eexists. split; [reflexivity|]. now repeat split.
  - intros Ho Hn Hf Hw Hidle. unfold observableSubscribe. rewrite Ho. cbn [negb].
    unfold bind at 1. unfold reads at 1. unfold bind at 1. unfold modify at 1.
    unfold bind at 1. rewrite observeState_silent by assumption.
    set (w0 := set_observers _ w).
    assert (Hw0 : wf w0) by (eapply sameRegistry_wf; [|exact Hw]; now repeat split).
    destruct (subscribeFn_idle (ObserveState (length (observers w))) w0 Hw0 Hidle)
      as (w' & Hs & Hsub).
    destruct Hsub as [Snext Ssubs _ _ _ Sstate Sobs _ Strace _ _].
    exists w'. split; [exact Hs|]. split; [exact Snext|].
    assert (Hlook : observers w' !! length (observers w) = Some observer).
    { rewrite Sobs. unfold w0. cbn [observers set_observers].
      rewrite lookup_app_r by lia. now rewrite Nat.sub_diag. }
    split; [exact Hlook|]. split; [exact Sstate|]. split; [exact Strace|].
    intros lower'. cbn [callListener]. rewrite Hlook. cbn [default].
    now apply observeState_silent.
  - intros Ho Hn Hd. unfold observableSubscribe. rewrite Ho. cbn [negb].
    unfold bind at 1. unfold reads at 1. unfold bind at 1. unfold modify at 1.
    unfold bind at 1.
    exists (set_observers (observers w ++ [observer]) w).
    split; [|now repeat split].
    destruct (truthy (getField observer "next")) eqn:Hf.
    + destruct observer; try discriminate; try congruence;
        unfold observeState; rewrite Hf; unfold bind at 1; unfold getState;
        cbn [isDispatching set_observers]; rewrite Hd; reflexivity.
    + rewrite observeState_silent by assumption.
      now rewrite subscribeFn_dispatching by exact Hd.
Qed.

(** X13. An observer with a [next] method is handed the state at once, when
    it subscribes, before the listener that serves it is registered; and on
    every dispatch, after the listeners registered before it, it is handed
    the state that the reducer has just produced. *)
Theorem X13_the_observer_is_handed_each_state
    (fnBody : nat -> list value -> prog) (replaceSuffix : string)
    (T : value -> value -> value) (r m gas f c : nat) (observer : value)
    (pre : list fref) (a : value) (w : World) :
  pureReducer fnBody r T ->
  wf w -> isDispatching w = false -> currentReducer w = VFun r ->
  getField observer "next" = VFun f ->
  let lower := run fnBody replaceSuffix (S m) in
  observableSubscribe fnBody lower observer w
  = (lower (fnBody f [currentState w]) ;;;
     subscribeFn (ObserveState (length (observers w))))
      (set_observers (observers w ++ [observer]) w)
  /\ (observers w !! c = Some observer ->
      nextArray w = pre ++ [ObserveState c] ->
      Forall (quietListener fnBody) pre -> length pre + 1 < gas ->
      isValidAction a = true ->
        dispatch fnBody lower gas a w
        = (lower (fnBody f [T (currentState w) a]) ;;; ret a)
            (logs (EvReducer (currentState w) a :: map EvListener (pre ++ [ObserveState c]))
               (set_currentListeners (nextListeners w)
                  (set_currentState (T (currentState w) a) w)))).
Proof.
  intros HT Hw Hidle Hr Hnext lower. subst lower. split.
  - assert (Ho : is_object observer = true)
      by (destruct observer; try discriminate; reflexivity).
    unfold observableSubscribe. rewrite Ho. cbn [negb].
    unfold bind at 1. unfold reads at 1. unfold bind at 1. unfold modify at 1.
    unfold bind at 1. rewrite (observeState_next fnBody _ observer f) by assumption.
    unfold bind. cbn [currentState set_observers].
    destruct (run fnBody replaceSuffix (S m) _ _); reflexivity.
  - intros Hc Hnx Hpre Hgas Ha.
    rewrite (dispatch_reduces fnBody replaceSuffix m gas r (T (currentState w) a) a w)
      by (try assumption; apply HT).
    rewrite Hnx.
    replace gas with (length pre + S (S (gas - length pre - 2))) by lia.
    rewrite notifySnapshot_quiet_prefix by assumption.
    rewrite notifySnapshot_cons. unfold bind at 1.
    cbn [callListener].
    cbn [observers logs log set_currentListeners set_currentState]. rewrite Hc.
    cbn [default]. rewrite (observeState_next fnBody _ observer f) by assumption.
    unfold bind.
    cbn [currentState logs log set_currentListeners set_currentState].
    assert (Hworld :
      log (EvListener (ObserveState c))
        (logs (map EvListener pre)
           (set_currentListeners (nextListeners w)
              (set_currentState (T (currentState w) a) (log (EvReducer (currentState w) a) w))))
      = logs (EvReducer (currentState w) a :: map EvListener (pre ++ [ObserveState c]))
          (set_currentListeners (nextListeners w) (set_currentState (T (currentState w) a) w))).
    { unfold logs, log. cbn. f_equal. rewrite map_app. cbn.
      rewrite <- !app_assoc. reflexivity. }
    rewrite Hworld.
    destruct (run fnBody replaceSuffix (S m) _ _) as [v w1|e w1|]; reflexivity.
Qed.

(** The counter store with one observer: an [inc] calls the observer's
    listener once. *)
Lemma X13_witness :
  exists w',
    dispatch counterBody (run counterBody replaceKey 1) 2 inc observedWorld = Ok inc w'
    /\ trace w' = trace observedWorld
                  ++ [EvReducer (VNum 0) inc; EvListener (ObserveState 0)]
    /\ currentState w' = VNum 1.
Proof.
  destruct (X13_the_observer_is_handed_each_state counterBody replaceKey count 0 0 2 1 0
              sampleObserver [] inc observedWorld) as [_ Hd].
  - intros s a. reflexivity.
  - apply wf_from_liveListeners; [simpl; lia | simpl; lia | reflexivity].
  - reflexivity.
  - reflexivity.
  - reflexivity.
  - eexists. split; [|split].
    + rewrite Hd; [reflexivity | reflexivity | reflexivity | constructor | simpl; lia
                  | reflexivity].
    + reflexivity.
    + reflexivity.
Defined.

(** ** utils/actionTypes.js *)

Lemma length_substringFrom n s :
  String.length (substringFrom n s) = String.length s - n.
Proof.
  revert s. induction n as [|n IH]; intros s; simpl; [lia|].
  destruct s as [|c s]; simpl; [reflexivity | apply IH].
Qed.

Lemma length_append s1 s2 :
  String.length (s1 ++ s2)%string = String.length s1 + String.length s2.
Proof.
  induction s1 as [|c s1 IH]; [reflexivity|].
  change (String c s1 ++ s2)%string with (String c (s1 ++ s2)%string).
  cbn [String.length]. now rewrite IH.
Qed.

Lemma length_join_cons c s :
  String.length (join "." (splitChars (String c s))) = 2 * String.length s + 1.
Proof.
  revert c. induction s as [|c' s IH]; intros c; [reflexivity|].
  change (join "." (splitChars (String c (String c' s))))
    with (String c EmptyString ++ "." ++ join "." (splitChars (String c' s)))%string.
  rewrite !length_append, IH. cbn [String.length]. lia.
Qed.

Lemma length_join_splitChars s :
  String.length (join "." (splitChars s)) = 2 * String.length s - 1.
Proof.
  destruct s as [|c s]; [reflexivity|]. rewrite length_join_cons. cbn [String.length]. lia.
Qed.

(** X14. Whatever the two random draws are, the reserved initialise and
    replace action types are different strings, the actions made of them
    pass the validation of [dispatch], and no type that does not start with
    [@@redux/] is one of them. The suffix puts a dot between every two of
    the characters left after the seventh of the random string: [k]
    characters give [2k - 1], none gives the empty suffix. *)
Theorem X14_the_reserved_action_types (digits1 digits2 : string) (t : string) :
  let init := INIT (randomSuffix digits1) in
  let replace := REPLACE (randomSuffix digits2) in
  init <> replace
  /\ isValidAction (actionOfType init) = true
  /\ isValidAction (actionOfType replace) = true
  /\ (String.prefix "@@redux/" t = false -> t <> init /\ t <> replace)
  /\ String.length (randomSuffix digits1) = 2 * (String.length digits1 - 7) - 1.
Proof.
  cbv zeta. split; [|split; [|split; [|split]]].
  - unfold INIT, REPLACE. cbn. discriminate.
  - reflexivity.
  - reflexivity.
  - intros Hp. split; intros ->; unfold INIT, REPLACE in Hp; cbn in Hp; discriminate.
  - unfold randomSuffix. now rewrite length_join_splitChars, length_substringFrom.
Qed.

(** A draw of [0.4fzyo82mvyr]. *)
Example random_suffix_example :
  randomSuffix "0.4fzyo82mvyr" = "8.2.m.v.y.r"
  /\ randomSuffix "0.5" = EmptyString.
Proof. split; reflexivity. Qed.

(** ** applyMiddleware.js *)

Lemma bind_ret_r {A} (m : M A) w : (v <- m ;; ret v) w = m w.
Proof. unfold bind, ret. destruct (m w); reflexivity. Qed.

Section Chains.
Variable store : Store.

Lemma callDispatchFn_forwards api chain a w :
  Forall (fun mg => forwards (fst mg) (snd mg)) chain ->
  callDispatchFn store api (map fst chain) a w
  = store_dispatch store (handedDown chain a) (logs (handlerCalls chain a) w).
Proof.
  intros Hch. revert a w. induction Hch as [|[m g] chain Hm _ IH]; intros a w.
  - simpl. now rewrite logs_nil.
  - cbn [map fst callDispatchFn handedDown handlerCalls].
    unfold bind at 1. unfold modify at 1.
    cbn [fst snd] in Hm. rewrite (Hm a). cbn [mexec].
    rewrite bind_ret_r. rewrite IH. now rewrite logs_log.
Qed.

End Chains.

Lemma applyMiddleware_forwards
    (chain : list (Middleware * (value -> value))) (create : creator)
    (args : list value) (n : nat) (store : Store) (w w0 : World) :
  create args w = Ok store w0 ->
  Forall (fun mg => plainMiddleware (fst mg) /\ forwards (fst mg) (snd mg)) chain ->
  exists enhanced,
    applyMiddleware n (map fst chain) create args w
    = Ok enhanced (newDispatchVar (Some (map fst chain)) w0)
    /\ (forall a w',
          store_dispatch enhanced a w'
          = store_dispatch store (handedDown chain a) (logs (handlerCalls chain a) w'))
    /\ store_replaceReducer enhanced = store_replaceReducer store.
Proof.
  intros Hc Hch.
  exists (withDispatch store (composed store (length (dispatchVars w0)) n (map fst chain))).
  split.
  { apply applyMiddleware_plain; [exact Hc|].
    apply Forall_map. eapply Forall_impl; [exact Hch|]. intros mg [H _]. exact H. }
  split; [|reflexivity].
  intros a w'. cbn [store_dispatch withDispatch]. rewrite composed_unfold.
  apply callDispatchFn_forwards.
  eapply Forall_impl; [exact Hch|]. intros mg [_ H]. exact H.
Qed.

Lemma applyMiddleware_single n m (create : creator) args w store w0 :
  create args w = Ok store w0 -> plainMiddleware m ->
  applyMiddleware n [m] create args w
  = Ok (withDispatch store (composed store (length (dispatchVars w0)) n [m]))
       (newDispatchVar (Some [m]) w0).
Proof.
  intros Hc Hm. apply applyMiddleware_plain; [exact Hc|]. now constructor.
Qed.

(** X15. A chain of any length of middleware that hand the action on,
    each after rewriting it in its own way, is one dispatch of the store:
    the handlers are entered from the first middleware to the last, each
    sees what the one before made of the action, the store's dispatch gets
    the action rewritten by all of them, and its result (or what it throws)
    is the result of the enhanced dispatch. With no middleware at all the
    enhanced dispatch is the store's. *)
Theorem X15_a_chain_of_forwarding_middleware
    (chain : list (Middleware * (value -> value))) (create : creator)
    (args : list value) (n : nat) (store : Store) (w w0 : World) :
  create args w = Ok store w0 ->
  Forall (fun mg => plainMiddleware (fst mg) /\ forwards (fst mg) (snd mg)) chain ->
  exists enhanced,
    applyMiddleware n (map fst chain) create args w
    = Ok enhanced (newDispatchVar (Some (map fst chain)) w0)
    /\ (forall a w',
          store_dispatch enhanced a w'
          = store_dispatch store (handedDown chain a) (logs (handlerCalls chain a) w'))
    /\ (chain = [] -> forall a w', store_dispatch enhanced a w' = store_dispatch store a w').
Proof.
  intros Hc Hch.
  destruct (applyMiddleware_forwards chain create args n store w w0 Hc Hch)
    as (enhanced & Happly & Hd & _).
  exists enhanced. split; [exact Happly|]. split; [exact Hd|].
  intros -> a w'. rewrite Hd. simpl. now rewrite logs_nil.
Qed.

(** The counter store behind [[N; B]]: an [add] reaches the reducer as an
    [inc], and the [inc] is what the dispatch returns. *)
Lemma X15_witness :
  exists enhanced w1 w2,
    applyMiddleware 1 [renamer; passer] counterStore [VFun 0] emptyWorld = Ok enhanced w1
    /\ store_dispatch enhanced (actionOfType "add") w1 = Ok inc w2
    /\ trace w2 = [EvReducer VUndefined (actionOfType (INIT initKey));
                   EvHandler "N" (actionOfType "add"); EvHandler "B" inc;
                   EvReducer (VNum 0) inc]
    /\ currentState w2 = VNum 1.
Proof.
  destruct (X15_a_chain_of_forwarding_middleware
              [(renamer, rename); (passer, fun a => a)] counterStore [VFun 0] 1
              (engineStore counterBody replaceKey 1) emptyWorld counterWorld)
    as (enhanced & Happly & Hd & _).
  - reflexivity.
  - repeat constructor; try (eexists; reflexivity); intros a; reflexivity.
  - exists enhanced. eexists. eexists.
    split; [exact Happly|].
    split; [rewrite Hd; vm_compute; reflexivity|].
    split; reflexivity.
Defined.

(** X16. The [getState] that a middleware is given is the store's own: a
    handler that reads the state, hands the action on and reads the state
    again finds the old state before and the reducer's result after. *)
Theorem X16_middleware_reads_the_live_state
    (fnBody : nat -> list value -> prog) (replaceSuffix : string)
    (T : value -> value -> value) (r m n : nat) (mw : Middleware)
    (k : value -> value -> value -> value)
    (create : creator) (args : list value) (w w0 : World) :
  create args w = Ok (engineStore fnBody replaceSuffix (S m)) w0 ->
  plainMiddleware mw ->
  (forall a, mw_handle mw a
             = MApiGetState (fun before =>
                 MNext a (fun result =>
                   MApiGetState (fun after => MRet (k before result after))))) ->
  pureReducer fnBody r T ->
  exists enhanced,
    applyMiddleware n [mw] create args w = Ok enhanced (newDispatchVar (Some [mw]) w0)
    /\ forall a w',
         wf w' -> isDispatching w' = false -> currentReducer w' = VFun r ->
         Forall (quietListener fnBody) (nextArray w') -> length (nextArray w') <= m ->
         isValidAction a = true ->
         exists w'',
           store_dispatch enhanced a w'
           = Ok (k (currentState w') a (T (currentState w') a)) w''
           /\ currentState w'' = T (currentState w') a
           /\ trace w'' = trace w' ++ EvHandler (mw_name mw) a
                                     :: EvReducer (currentState w') a
                                     :: map EvListener (nextArray w').
Proof.
  intros Hc Hplain Hh HT.
  eexists. split; [exact (applyMiddleware_single n mw create args w _ w0 Hc Hplain)|].
  intros a w' Hw' Hidle Hr Hq Hlen Ha.
  cbn [store_dispatch withDispatch]. rewrite composed_unfold.
  cbn [callDispatchFn]. unfold bind at 1. unfold modify at 1.
  rewrite Hh. cbn [mexec store_getState engineStore].
  unfold bind at 1. unfold getState at 1. cbn [isDispatching log]. rewrite Hidle.
  unfold bind at 1. cbn [callDispatchFn store_dispatch engineStore currentState log].
  set (w1 := log (EvHandler (mw_name mw) a) w').
  assert (Hw1 : wf w1) by (eapply sameRegistry_wf; [|exact Hw']; now repeat split).
  assert (Hlt : length (nextArray w1) < S m).
  { change (nextArray w1) with (nextArray w'). lia. }
  rewrite (dispatch_quiet fnBody replaceSuffix m (S m) r (T (currentState w1) a) a w1
             Hw1 Hidle Ha Hr (HT _ _) Hq Hlt).
  unfold bind at 1. unfold getState. cbn [isDispatching afterDispatch logs
    set_currentListeners set_currentState log w1]. rewrite Hidle.
  eexists. split; [reflexivity|]. split; [reflexivity|].
  rewrite afterDispatch_trace. unfold w1. cbn [trace log currentState nextArray].
  rewrite <- app_assoc. reflexivity.
Qed.

(** The counter store behind [G]: an [inc] on a fresh store returns the
    states 0 and 1 around the action. *)
Lemma X16_witness :
  exists enhanced w1 w2,
    applyMiddleware 1 [reader] counterStore [VFun 0] emptyWorld = Ok enhanced w1
    /\ store_dispatch enhanced inc w1 = Ok (VArr [VNum 0; inc; VNum 1]) w2.
Proof.
  destruct (X16_middleware_reads_the_live_state counterBody replaceKey count 0 0 1 reader
              (fun before result after => VArr [before; result; after])
              counterStore [VFun 0] emptyWorld counterWorld)
    as (enhanced & Happly & Hd).
  - reflexivity.
  - split; eexists; reflexivity.
  - intros a. reflexivity.
  - intros s a. reflexivity.
  - destruct (Hd inc (newDispatchVar (Some [reader]) counterWorld))
      as (w2 & Hrun & _).
    + apply wf_from_liveListeners; [simpl; lia | simpl; lia | reflexivity].
    + reflexivity.
    + reflexivity.
    + constructor.
    + simpl. lia.
    + reflexivity.
    + exists enhanced, (newDispatchVar (Some [reader]) counterWorld), w2.
      split; [exact Happly | exact Hrun].
Defined.

(** X17. What the reducer throws travels up through [next]: a middleware
    that wraps [next(action)] in [try]/[catch] turns the reducer's exception
    into its own result, where the store's own dispatch throws; either way
    the state is unchanged and the engine is idle afterwards. *)
Theorem X17_middleware_can_catch_what_the_reducer_throws
    (fnBody : nat -> list value -> prog) (replaceSuffix : string)
    (r m n : nat) (mw : Middleware) (h : error -> value) (e : error) (bad : value)
    (create : creator) (args : list value) (w w0 : World) :
  create args w = Ok (engineStore fnBody replaceSuffix (S m)) w0 ->
  plainMiddleware mw ->
  (forall a, mw_handle mw a = MTryCatch (MNext a MRet) (fun e => MRet (h e)) MRet) ->
  (forall s, fnBody r [s; bad] = Raise e) ->
  isValidAction bad = true ->
  exists enhanced,
    applyMiddleware n [mw] create args w = Ok enhanced (newDispatchVar (Some [mw]) w0)
    /\ forall w',
         isDispatching w' = false -> currentReducer w' = VFun r ->
         exists w'',
           store_dispatch (engineStore fnBody replaceSuffix (S m)) bad w'
           = Throw e (log (EvReducer (currentState w') bad) w')
           /\ store_dispatch enhanced bad w' = Ok (h e) w''
           /\ currentState w'' = currentState w'
           /\ isDispatching w'' = false
           /\ trace w'' = trace w' ++ [EvHandler (mw_name mw) bad;
                                       EvReducer (currentState w') bad].
Proof.
  intros Hc Hplain Hh Hbody Hbad.
  eexists. split; [exact (applyMiddleware_single n mw create args w _ w0 Hc Hplain)|].
  intros w' Hidle Hr.
  assert (Hthrow : forall w1, isDispatching w1 = false -> currentReducer w1 = VFun r ->
            dispatch fnBody (run fnBody replaceSuffix (S m)) (S m) bad w1
            = Throw e (log (EvReducer (currentState w1) bad) w1)).
  { intros w1 Hidle1 Hr1.
    erewrite dispatch_reducer_throws; [| exact Hbad | exact Hidle1 |].
    2:{ rewrite Hr1. cbn [callFunction run]. rewrite Hbody. reflexivity. }
    f_equal. destruct w1. cbn in *. subst. reflexivity. }
  eexists. split; [apply Hthrow; assumption|].
  split.
  { cbn [store_dispatch withDispatch]. rewrite composed_unfold.
    cbn [callDispatchFn]. unfold bind at 1. unfold modify at 1.
    rewrite Hh. cbn [mexec]. unfold bind at 1. unfold catch.
    unfold bind at 1. cbn [callDispatchFn store_dispatch engineStore].
    rewrite Hthrow by assumption. reflexivity. }
  split; [reflexivity|]. split; [exact Hidle|].
  cbn [trace log]. now rewrite <- app_assoc.
Qed.

(** A reducer that throws on [bad], behind [K]. *)
Lemma X17_witness :
  exists enhanced w1 w2,
    applyMiddleware 1 [catcher]
      (createStoreArgs failingBody initKey replaceKey noEnhancer 1) [VFun 0] emptyWorld
    = Ok enhanced w1
    /\ store_dispatch enhanced (actionOfType "bad") w1 = Ok (VStr "caught") w2
    /\ isDispatching w2 = false.
Proof.
  destruct (X17_middleware_can_catch_what_the_reducer_throws failingBody replaceKey
              0 0 1 catcher (fun _ => VStr "caught") (ErrUser (VStr "bad action"))
              (actionOfType "bad")
              (createStoreArgs failingBody initKey replaceKey noEnhancer 1) [VFun 0]
              emptyWorld failingWorld)
    as (enhanced & Happly & Hd).
  - reflexivity.
  - split; eexists; reflexivity.
  - intros a. reflexivity.
  - intros s. reflexivity.
  - reflexivity.
  - destruct (Hd (newDispatchVar (Some [catcher]) failingWorld) eq_refl eq_refl)
      as (w2 & _ & Hrun & _ & Hidle & _).
    exists enhanced, (newDispatchVar (Some [catcher]) failingWorld), w2.
    split; [exact Happly|]. split; [exact Hrun | exact Hidle].
Defined.

(** X18. The two reserved actions never pass through the middleware. With
    [createStore(reducer, state, applyMiddleware(...))] the initialise action
    is dispatched by the inner [createStore], before the chain exists; and
    [replaceReducer] of the enhanced store is the base store's, whose replace
    action goes to the base dispatch. Neither is seen by any handler, while
    an action dispatched on the enhanced store enters every handler before
    it reaches the reducer. *)
Theorem X18_reserved_actions_bypass_the_middleware
    (fnBody : nat -> list value -> prog) (initSuffix replaceSuffix : string)
    (enhancerBody : nat -> creator -> creator)
    (T T' : value -> value -> value) (r r' m n e : nat)
    (chain : list (Middleware * (value -> value))) (p a : value) (w : World) :
  pureReducer fnBody r T -> pureReducer fnBody r' T' ->
  is_function p = false ->
  enhancerBody e = applyMiddleware n (map fst chain) ->
  Forall (fun mg => plainMiddleware (fst mg) /\ forwards (fst mg) (snd mg)) chain ->
  isValidAction (handedDown chain a) = true ->
  let init := actionOfType (INIT initSuffix) in
  let replace := actionOfType (REPLACE replaceSuffix) in
  exists enhanced w1 w2 w3,
    createStore fnBody initSuffix replaceSuffix enhancerBody (S (S m)) (VFun r) p (VFun e) w
    = Ok enhanced w1
    /\ trace w1 = trace w ++ [EvReducer p init]
    /\ store_replaceReducer enhanced (VFun r') w1 = Ok VUndefined w2
    /\ trace w2 = trace w1 ++ [EvReducer (T p init) replace]
    /\ store_dispatch enhanced a w2 = Ok (handedDown chain a) w3
    /\ trace w3 = trace w2 ++ handlerCalls chain a
                          ++ [EvReducer (T' (T p init) replace) (handedDown chain a)].
Proof.
  intros HT HT' Hp He Hch Hva init replace. subst init replace.
  set (init := actionOfType (INIT initSuffix)).
  set (replace := actionOfType (REPLACE replaceSuffix)).
  set (store := engineStore fnBody replaceSuffix (S m)).
  set (w0 := afterDispatch (T p init) init (initEngine (VFun r) p w)).
  assert (Hcreate : createStoreArgs fnBody initSuffix replaceSuffix enhancerBody (S m)
                      [VFun r; p] w = Ok store w0).
  { unfold createStoreArgs. cbn [arg lookup list_lookup default].
    apply createStore_fresh; assumption. }
  destruct (applyMiddleware_forwards chain _ _ n store w w0 Hcreate Hch)
    as (enhanced & Happly & Hd & Hrr).
  set (w1 := newDispatchVar (Some (map fst chain)) w0) in *.
  assert (Hw1 : wf w1).
  { split; cbn; [lia | lia | intros l; reflexivity]. }
  set (w1r := set_currentReducer (VFun r') w1).
  assert (Hw1r : wf w1r) by (eapply sameRegistry_wf; [|exact Hw1]; now repeat split).
  pose proof (dispatch_quiet fnBody replaceSuffix m (S m) r' (T' (currentState w1r) replace)
                replace w1r Hw1r eq_refl eq_refl eq_refl (HT' _ _)
                ltac:(constructor) ltac:(cbn; lia)) as Hrep.
  set (w2 := afterDispatch _ replace w1r) in Hrep.
  assert (Hw2 : wf w2) by now apply afterDispatch_wf.
  set (w2h := logs (handlerCalls chain a) w2).
  assert (Hw2h : wf w2h) by (eapply sameRegistry_wf; [apply sameRegistry_logs | exact Hw2]).
  pose proof (dispatch_quiet fnBody replaceSuffix m (S m) r'
                (T' (currentState w2h) (handedDown chain a)) (handedDown chain a)
                w2h Hw2h eq_refl Hva eq_refl (HT' _ _)
                ltac:(constructor) ltac:(cbn; lia)) as Hdis.
  exists enhanced, w1, w2. eexists.
  split.
  { cbn [createStore]. cbn [is_function is_undefined andb negb].
    rewrite andb_false_r. cbn [negb is_undefined]. rewrite He. exact Happly. }
  split; [unfold w1, w0; cbn [trace newDispatchVar set_dispatchVars]; now rewrite afterDispatch_trace|].
  split.
  { rewrite Hrr. unfold store. cbn [store_replaceReducer engineStore].
    rewrite replaceReducer_unfold. fold w1r. fold replace. now rewrite Hrep. }
  split; [unfold w2; now rewrite afterDispatch_trace|].
  split; [rewrite Hd; unfold store; cbn [store_dispatch engineStore]; exact Hdis|].
  rewrite afterDispatch_trace. unfold w2h. cbn [trace logs nextArray].
  rewrite <- app_assoc. reflexivity.
Qed.

(** [createStore(counter, 0, applyMiddleware(N, B))], then the reducer that
    counts twice, then an [add]. *)
Lemma X18_witness :
  exists enhanced w1 w2 w3,
    createStore twoCountersBody initKey replaceKey renamingEnhancer 2
      (VFun 0) (VNum 0) (VFun 5) emptyWorld = Ok enhanced w1
    /\ trace w1 = [EvReducer (VNum 0) (actionOfType (INIT initKey))]
    /\ store_replaceReducer enhanced (VFun 1) w1 = Ok VUndefined w2
    /\ trace w2 = trace w1 ++ [EvReducer (VNum 0) (actionOfType (REPLACE replaceKey))]
    /\ store_dispatch enhanced (actionOfType "add") w2 = Ok inc w3
    /\ trace w3 = trace w2 ++ [EvHandler "N" (actionOfType "add"); EvHandler "B" inc;
                               EvReducer (VNum 0) inc].
Proof.
  destruct (X18_reserved_actions_bypass_the_middleware twoCountersBody initKey replaceKey
              renamingEnhancer count (fun s a => count (count s a) a) 0 1 0 1 5
              [(renamer, rename); (passer, fun a => a)] (VNum 0) (actionOfType "add")
              emptyWorld)
    as (enhanced & w1 & w2 & w3 & H1 & H2 & H3 & H4 & H5 & H6).
  - intros s a. reflexivity.
  - intros s a. reflexivity.
  - reflexivity.
  - reflexivity.
  - repeat constructor; try (eexists; reflexivity); intros a; reflexivity.
  - reflexivity.
  - exists enhanced, w1, w2, w3. repeat split; assumption.
Defined.

Lemma createStore_function_state
    (fnBody : nat -> list value -> prog) (initSuffix replaceSuffix : string)
    (enhancerBody : nat -> creator -> creator)
    (m n e g : nat) (ms : list Middleware) (reducer : value) (w : World) :
  enhancerBody e = applyMiddleware n ms ->
  createStore fnBody initSuffix replaceSuffix enhancerBody (S (S m)) reducer (VFun g)
    (VFun e) w
  = applyMiddleware n ms
      (fun _ => enhancerBody g
                  (createStoreArgs fnBody initSuffix replaceSuffix enhancerBody m)
                  [reducer; VUndefined])
      [reducer; VFun g] w.
Proof.
  intros He. cbn [createStore is_function is_undefined andb negb]. rewrite He.
  unfold applyMiddleware. unfold bind at 1 3. reflexivity.
Qed.

(** X19. A function in second place is only safe from being taken for an
    enhancer in the outer call. With [createStore(reducer, g, enhancer)] and
    [enhancer = applyMiddleware(...)], the store creator that the enhancer
    calls is [createStore(reducer, g)]: there [g] is in second place with
    nothing in third, so [g] itself is called as an enhancer, with the state
    cleared. When [g] hands the creator back as it is, the store therefore
    starts from what the reducer makes of [undefined], and [g] is not its
    state. A state that is not a function reaches the inner construction as
    it is. *)
Theorem X19_a_function_valued_state_is_taken_for_an_enhancer
    (fnBody : nat -> list value -> prog) (initSuffix replaceSuffix : string)
    (enhancerBody : nat -> creator -> creator)
    (m n e g : nat) (ms : list Middleware) (reducer : value) (w : World) :
  enhancerBody e = applyMiddleware n ms ->
  let create := createStore fnBody initSuffix replaceSuffix enhancerBody in
  let createArgs := createStoreArgs fnBody initSuffix replaceSuffix enhancerBody in
  create (S (S m)) reducer (VFun g) (VFun e) w
  = applyMiddleware n ms
      (fun _ => enhancerBody g (createArgs m) [reducer; VUndefined])
      [reducer; VFun g] w
  /\ (forall r T,
        reducer = VFun r -> pureReducer fnBody r T -> Forall plainMiddleware ms ->
        enhancerBody g = (fun creator => creator) ->
        exists enhanced w1,
          create (S (S (S m))) reducer (VFun g) (VFun e) w = Ok enhanced w1
          /\ store_getState enhanced w1
             = Ok (T VUndefined (actionOfType (INIT initSuffix))) w1)
  /\ (forall p, is_function p = false ->
        create (S (S m)) reducer p (VFun e) w
        = applyMiddleware n ms
            (fun _ => create (S m) reducer p VUndefined) [reducer; p] w).
Proof.
  intros He create createArgs. subst create createArgs. split; [|split].
  - now apply createStore_function_state.
  - intros r T -> HT Hms Hg.
    rewrite (createStore_function_state fnBody initSuffix replaceSuffix enhancerBody
               (S m) n e g ms (VFun r) w He).
    eexists. eexists. split.
    + apply applyMiddleware_plain; [|exact Hms].
      rewrite Hg. unfold createStoreArgs. cbn [arg lookup list_lookup default].
      now apply createStore_fresh.
    + reflexivity.
  - intros p Hp. cbn [createStore is_undefined]. rewrite andb_false_r.
    cbn [negb]. rewrite He.
    unfold applyMiddleware. unfold bind at 1 3. reflexivity.
Qed.

(** With [applyMiddleware(N, B)] for every enhancer: the function in second
    place is called as one, so that the chain is put around the store
    twice. *)
Lemma X19_witness :
  createStore counterBody initKey replaceKey renamingEnhancer 3
    (VFun 0) (VFun 8) (VFun 5) emptyWorld
  = applyMiddleware 1 [renamer; passer]
      (fun _ => applyMiddleware 1 [renamer; passer]
                  (createStoreArgs counterBody initKey replaceKey renamingEnhancer 1)
                  [VFun 0; VUndefined])
      [VFun 0; VFun 8] emptyWorld.
Proof.
  destruct (X19_a_function_valued_state_is_taken_for_an_enhancer counterBody initKey
              replaceKey renamingEnhancer 1 1 5 8 [renamer; passer] (VFun 0) emptyWorld
              eq_refl) as [H _].
  exact H.
Defined.

(** ** bindActionCreators.js *)

Lemma setProp_fresh {A} key (x : A) fields :
  key ∉ map fst fields -> setProp key x fields = fields ++ [(key, x)].
Proof.
  induction fields as [|[k y] fields IH]; intros Hnin; [reflexivity|].
  simpl. destruct (String.eqb k key) eqn:E.
  - apply String.eqb_eq in E. subst. exfalso. apply Hnin. simpl. left.
  - rewrite IH; [reflexivity|]. intros Hin. apply Hnin. simpl. now right.
Qed.

Lemma assoc_NoDup key v fields :
  NoDup (map fst fields) -> (key, v) ∈ fields -> assoc key fields = v.
Proof.
  induction fields as [|[k y] fields IH]; intros Hnd Hin; [inversion Hin|].
  simpl in *. apply NoDup_cons in Hnd as [Hk Hnd].
  destruct (String.eqb k key) eqn:E.
  - apply String.eqb_eq in E. subst.
    apply elem_of_cons in Hin as [Hin|Hin]; [congruence|].
    exfalso. apply Hk. apply list_elem_of_fmap. now exists (key, v).
  - apply String.eqb_neq in E.
    apply elem_of_cons in Hin as [Hin|Hin]; [congruence|]. now apply IH.
Qed.

(** The indices of an array are distinct keys. *)
Lemma ownEntries_array_NoDup elems : NoDup (keysOf (VArr elems)).
Proof.
  unfold keysOf. simpl.
  assert (H : forall (j : nat) (l : list value),
            map fst (imap (fun i x => (pretty (j + i), x)) l)
            = map (fun i => pretty i) (seq j (length l))).
  { intros j l. revert j. induction l as [|x l IH]; intros j; [reflexivity|].
    simpl. rewrite Nat.add_0_r. f_equal.
    rewrite <- (IH (S j)). f_equal. apply imap_ext. intros i y _. simpl.
    f_equal. f_equal. lia. }
  specialize (H 0 elems). simpl in H. rewrite H.
  apply NoDup_fmap_2; [apply _ | apply NoDup_seq].
Qed.

Section BindLoop.
Variable fnBody : nat -> list value -> prog.
Variable run : prog -> M value.

(** The loop adds, in the order of the keys, one bound function for every
    key that holds a function. *)
Lemma bindEach_entries actionCreators dispatch entries acc :
  (forall kv, kv ∈ entries -> getOwn actionCreators (fst kv) = snd kv) ->
  NoDup (map fst acc ++ map fst entries) ->
  bindEach fnBody run actionCreators dispatch (map fst entries) acc
  = acc ++ map (bindEntry fnBody run dispatch)
             (List.filter (fun kv => is_function (snd kv)) entries).
Proof.
  revert acc. induction entries as [|[k v] entries IH]; intros acc Hget Hnd.
  - simpl. now rewrite app_nil_r.
  - cbn [map fst bindEach].
    pose proof (Hget (k, v) ltac:(left)) as Hkv. cbn [fst snd] in Hkv. rewrite Hkv.
    cbn [snd List.filter].
    assert (Hk : k ∉ map fst acc).
    { apply NoDup_app in Hnd as (_ & Hdisj & _). intros Hin.
      apply (Hdisj k Hin). simpl. left. }
    destruct (is_function v) eqn:Hv.
    + rewrite setProp_fresh by exact Hk. rewrite IH.
      * cbn [map]. rewrite <- app_assoc. reflexivity.
      * intros kv Hin. apply Hget. now right.
      * rewrite map_app. cbn [map fst]. rewrite <- app_assoc. exact Hnd.
    + apply IH.
      * intros kv Hin. apply Hget. now right.
      * apply NoDup_app in Hnd as (Ha & Hdisj & He). simpl in He.
        apply NoDup_cons in He as [_ He].
        apply NoDup_app. split; [exact Ha|]. split; [|exact He].
        intros x Hx Hx'. apply (Hdisj x Hx). simpl. now right.
Qed.

Lemma boundField_bindEntry dispatch key f entries :
  NoDup (map fst entries) -> (key, VFun f) ∈ entries ->
  boundField key (map (bindEntry fnBody run dispatch)
                    (List.filter (fun kv => is_function (snd kv)) entries))
  = Some (bindActionCreator fnBody run (VFun f) dispatch).
Proof.
  induction entries as [|[k v] entries IH]; intros Hnd Hin; [inversion Hin|].
  simpl in Hnd. apply NoDup_cons in Hnd as [Hk Hnd].
  apply elem_of_cons in Hin as [Hin|Hin].
  - inversion Hin; subst. cbn. now rewrite String.eqb_refl.
  - cbn [List.filter snd]. destruct (is_function v); [|now apply IH].
    cbn. destruct (String.eqb k key) eqn:E; [|now apply IH].
    apply String.eqb_eq in E. subst. exfalso. apply Hk.
    apply list_elem_of_fmap. now exists (key, VFun f).
Qed.

Lemma boundField_absent dispatch key entries :
  (forall v, (key, v) ∈ entries -> is_function v = false) ->
  boundField key (map (bindEntry fnBody run dispatch)
                    (List.filter (fun kv => is_function (snd kv)) entries))
  = None.
Proof.
  induction entries as [|[k v] entries IH]; intros Hno; [reflexivity|].
  cbn [List.filter snd]. destruct (is_function v) eqn:Hv.
  - cbn. destruct (String.eqb k key) eqn:E.
    + apply String.eqb_eq in E. subst. rewrite (Hno v) in Hv by left. discriminate.
    + apply IH. intros v' Hin. apply Hno. now right.
  - apply IH. intros v' Hin. apply Hno. now right.
Qed.

End BindLoop.

(** X20. Given an object, [bindActionCreators] returns an object that has
    exactly the keys under which the argument holds a function, in the same
    order: every such function is bound, so that calling the new field calls
    the creator with the same arguments and dispatches what it returns, and
    every field that is not a function is left out without complaint. *)
Theorem X20_bindActionCreators_binds_the_function_valued_keys
    (fnBody : nat -> list value -> prog) (run : prog -> M value)
    (actionCreators : value) (dispatch : value -> M value) :
  is_function actionCreators = false ->
  is_object actionCreators = true -> actionCreators <> VNull ->
  NoDup (keysOf actionCreators) ->
  exists fields,
    bindActionCreators fnBody run actionCreators dispatch = inr (BoundObject fields)
    /\ map fst fields
       = map fst (List.filter (fun kv => is_function (snd kv)) (ownEntries actionCreators))
    /\ (forall key f, (key, VFun f) ∈ ownEntries actionCreators ->
          boundField key fields
          = Some (fun arguments =>
                    action <- callFunction fnBody run (VFun f) arguments ;;
                    dispatch action))
    /\ (forall key, (forall v, (key, v) ∈ ownEntries actionCreators -> is_function v = false) ->
          boundField key fields = None).
Proof.
  intros Hf Ho Hn Hnd.
  exists (map (bindEntry fnBody run dispatch)
            (List.filter (fun kv => is_function (snd kv)) (ownEntries actionCreators))).
  split.
  { unfold bindActionCreators. rewrite Hf, Ho. cbn [negb orb].
    destruct actionCreators; try discriminate; try congruence; cbn [is_null];
      unfold keysOf; rewrite bindEach_entries; try reflexivity; try exact Hnd;
      intros [k v] Hin; apply assoc_NoDup; assumption. }
  split.
  { rewrite map_map. reflexivity. }
  split.
  { intros key f Hin. now apply boundField_bindEntry. }
  intros key Hno. now apply boundField_absent.
Qed.

(** An object with two creators and a number, and an array of two
    creators. *)
Lemma X20_witness :
  (exists fields,
     bindActionCreators creatorsBody (run creatorsBody replaceKey 1) sampleCreators
       (dispatch creatorsBody (run creatorsBody replaceKey 1) 1)
     = inr (BoundObject fields)
     /\ map fst fields = ["add"; "fail"]
     /\ boundField "version" fields = None)
  /\ (exists fields,
        bindActionCreators creatorsBody (run creatorsBody replaceKey 1)
          (VArr [VFun 7; VFun 9])
          (dispatch creatorsBody (run creatorsBody replaceKey 1) 1)
        = inr (BoundObject fields)
        /\ map fst fields = ["0"; "1"]).
Proof.
  split.
  - destruct (X20_bindActionCreators_binds_the_function_valued_keys creatorsBody
                (run creatorsBody replaceKey 1) sampleCreators
                (dispatch creatorsBody (run creatorsBody replaceKey 1) 1))
      as (fields & H1 & H2 & _ & H3).
    + reflexivity.
    + reflexivity.
    + discriminate.
    + apply (bool_decide_unpack _). vm_compute. reflexivity.
    + exists fields. split; [exact H1|]. split; [exact H2|].
      apply H3. intros v Hin.
      apply elem_of_cons in Hin as [Hin|Hin]; [discriminate Hin|].
      apply elem_of_cons in Hin as [Hin|Hin]; [inversion Hin; reflexivity|].
      apply elem_of_cons in Hin as [Hin|Hin]; [discriminate Hin|]. inversion Hin.
  - destruct (X20_bindActionCreators_binds_the_function_valued_keys creatorsBody
                (run creatorsBody replaceKey 1) (VArr [VFun 7; VFun 9])
                (dispatch creatorsBody (run creatorsBody replaceKey 1) 1))
      as (fields & H1 & H2 & _).
    + reflexivity.
    + reflexivity.
    + discriminate.
    + apply ownEntries_array_NoDup.
    + exists fields. split; [exact H1 | exact H2].
Defined.

(** X22. A bound action creator on the store's dispatch: when the creator
    returns a valid action, the call dispatches it, so that the state moves
    by that action, the listeners are notified and the action is returned;
    when the creator returns something that is not a plain object, the call
    throws the error of [dispatch] and the store is as it was; when the
    creator throws, nothing is dispatched. *)
Theorem X22_a_bound_creator_dispatches_what_the_creator_returns
    (fnBody : nat -> list value -> prog) (replaceSuffix : string)
    (T : value -> value -> value) (r m gas c : nat) (w : World) :
  pureReducer fnBody r T ->
  wf w -> isDispatching w = false -> currentReducer w = VFun r ->
  Forall (quietListener fnBody) (nextArray w) -> length (nextArray w) < gas ->
  let lower := run fnBody replaceSuffix (S m) in
  exists bound,
    bindActionCreators fnBody lower (VFun c) (dispatch fnBody lower gas)
    = inr (BoundFunction bound)
    /\ (forall arguments action,
          fnBody c arguments = Ret action -> isValidAction action = true ->
          bound arguments w
          = Ok action (afterDispatch (T (currentState w) action) action w))
    /\ (forall arguments action,
          fnBody c arguments = Ret action -> isPlainObject action = false ->
          bound arguments w = Throw ErrActionNotPlain w)
    /\ (forall arguments e,
          fnBody c arguments = Raise e -> bound arguments w = Throw e w).
Proof.
  intros HT Hw Hidle Hr Hq Hgas lower. subst lower.
  eexists. split; [reflexivity|]. split; [|split].
  - intros arguments action Hc Ha. unfold bindActionCreator, bind.
    cbn [callFunction run]. rewrite Hc. cbn [exec]. unfold ret.
    apply (dispatch_quiet fnBody replaceSuffix m gas r); try assumption. apply HT.
  - intros arguments action Hc Ha. unfold bindActionCreator, bind.
    cbn [callFunction run]. rewrite Hc. cbn [exec]. unfold ret.
    unfold dispatch. now rewrite Ha.
  - intros arguments e Hc. unfold bindActionCreator, bind.
    cbn [callFunction run]. rewrite Hc. reflexivity.
Qed.

(** The creator of [inc], bound to the counter store. *)
Lemma X22_witness :
  exists bound w',
    bindActionCreators creatorsBody (run creatorsBody replaceKey 1) (VFun 7)
      (dispatch creatorsBody (run creatorsBody replaceKey 1) 1)
    = inr (BoundFunction bound)
    /\ bound [VNum 5] (initEngine (VFun 0) (VNum 0) emptyWorld) = Ok inc w'
    /\ currentState w' = VNum 1.
Proof.
  destruct (X22_a_bound_creator_dispatches_what_the_creator_returns creatorsBody replaceKey
              count 0 0 1 7 (initEngine (VFun 0) (VNum 0) emptyWorld))
    as (bound & Hb & Hok & _).
  - intros s a. reflexivity.
  - apply initEngine_wf.
  - reflexivity.
  - reflexivity.
  - constructor.
  - simpl. lia.
  - exists bound. eexists. split; [exact Hb|]. split.
    + apply (Hok [VNum 5] inc); reflexivity.
    + reflexivity.
Defined.
